(** * vogel.utils.stats: weighted model statistics

    A shallow embedding of the statistical core of
    [vogel/utils/stats/stats.py] ([weighted_gini], [weighted_rmse],
    [pearson_chi_sq_scale_estimate], [chi_sq_tweedie], [hl_tweedie_df],
    [hl_tweedie], [deviance_tweedie], [model_stats_reg]) together with the
    parts of numpy and pandas these functions rely on.

    Numbers.  A float64 is modelled as an exact rational or one of the three
    IEEE special values; arithmetic on finite values is exact (no rounding,
    no overflow) and the two signed zeros are identified.  Division by zero
    does not raise in numpy: it yields an infinity or NaN, and so it does
    here.  Where a statement is about the rounding itself (a vector scaled
    by the caller before it is passed in), the product is the float64
    product [float64_mul]: the exact product rounded to the nearest
    float64.  All arrays are of dtype float64.

    Effects.  Python exceptions are an explicit [outcome]; numpy arrays that
    a function copies or writes to live in a heap of array objects, and the
    dictionaries handed to [model_stats_reg] live in a store of dictionary
    objects, so that aliasing and in-place updates are visible. *)

From Stdlib Require Import QArith Qcanon Qround Qabs Sorted.
From stdpp Require Import gmap strings list fin_maps numbers.

Local Open Scope Qc_scope.

(** ** Floating-point values *)

Inductive fval : Type :=
  | Fin (q : Qc)
  | PInf
  | NInf
  | NaN.

#[global] Instance fval_eq_dec : EqDecision fval.
Proof. solve_decision. Defined.

#[global] Instance fval_inhabited : Inhabited fval := populate NaN.

Definition fzero : fval := Fin 0.
Definition fone : fval := Fin 1.
Definition ftwo : fval := Fin 2.

Definition is_nan (x : fval) : bool :=
  match x with NaN => true | _ => false end.

Definition is_finite (x : fval) : bool :=
  match x with Fin _ => true | _ => false end.

Definition fopp (x : fval) : fval :=
  match x with
  | Fin q => Fin (- q)
  | PInf => NInf
  | NInf => PInf
  | NaN => NaN
  end.

Definition fabs (x : fval) : fval :=
  match x with
  | Fin q => Fin (if Qclt_le_dec q 0 then - q else q)
  | PInf | NInf => PInf
  | NaN => NaN
  end.

Definition fadd (x y : fval) : fval :=
  match x, y with
  | NaN, _ | _, NaN => NaN
  | Fin a, Fin b => Fin (a + b)
  | PInf, NInf | NInf, PInf => NaN
  | PInf, _ | _, PInf => PInf
  | NInf, _ | _, NInf => NInf
  end.

Definition fsub (x y : fval) : fval := fadd x (fopp y).

(** An infinity of the sign of [q], NaN when [q] is zero. *)
Definition inf_of_sign (q : Qc) (pos neg : fval) : fval :=
  match q ?= 0 with
  | Gt => pos
  | Lt => neg
  | Eq => NaN
  end.

Definition fmul (x y : fval) : fval :=
  match x, y with
  | NaN, _ | _, NaN => NaN
  | Fin a, Fin b => Fin (a * b)
  | Fin a, PInf | PInf, Fin a => inf_of_sign a PInf NInf
  | Fin a, NInf | NInf, Fin a => inf_of_sign a NInf PInf
  | PInf, PInf | NInf, NInf => PInf
  | PInf, NInf | NInf, PInf => NInf
  end.

Definition fdiv (x y : fval) : fval :=
  match x, y with
  | NaN, _ | _, NaN => NaN
  | Fin a, Fin b =>
      if decide (b = 0) then inf_of_sign a PInf NInf else Fin (a / b)
  | Fin _, (PInf | NInf) => Fin 0
  | PInf, Fin b => if Qclt_le_dec b 0 then NInf else PInf
  | NInf, Fin b => if Qclt_le_dec b 0 then PInf else NInf
  | (PInf | NInf), (PInf | NInf) => NaN
  end.

(** IEEE comparisons: every comparison with NaN is false. *)
Definition fleb (x y : fval) : bool :=
  match x, y with
  | NaN, _ | _, NaN => false
  | NInf, _ | _, PInf => true
  | Fin a, Fin b => bool_decide (a ≤ b)
  | _, _ => false
  end.

Definition fltb (x y : fval) : bool :=
  match x, y with
  | NaN, _ | _, NaN => false
  | PInf, _ | _, NInf => false
  | Fin a, Fin b => bool_decide (a < b)
  | _, _ => true
  end.

(** The order numpy sorts and searches by: the IEEE order on numbers, with
    NaN after everything else. *)
Definition sort_compare (x y : fval) : comparison :=
  match x, y with
  | NaN, NaN => Eq
  | NaN, _ => Gt
  | _, NaN => Lt
  | Fin a, Fin b => a ?= b
  | NInf, NInf | PInf, PInf => Eq
  | NInf, _ | _, PInf => Lt
  | PInf, _ | _, NInf => Gt
  end.

Definition sort_ltb (x y : fval) : bool :=
  match sort_compare x y with Lt => true | _ => false end.

Definition sort_leb (x y : fval) : bool :=
  match sort_compare x y with Gt => false | _ => true end.

Close Scope Qc_scope.

(** ** float64 products

    [x * y] on two float64 numbers, as numpy computes it: the exact product
    rounded to the nearest float64 (53 significant bits, ties to even),
    with gradual underflow below [2^-1022] and overflow to an infinity from
    [2^1024] on. *)

(** [floor (log2 q)] for a positive rational. *)
Definition floor_log2 (q : Q) : Z :=
  let k := (Z.log2 (Qnum q) - Z.log2 (Zpos (Qden q)))%Z in
  if Qle_bool (Qpower 2 k) q then k else (k - 1)%Z.

Definition round_half_even (q : Q) : Z :=
  let f := Qfloor q in
  match Qcompare (q - inject_Z f) (1 # 2) with
  | Lt => f
  | Gt => (f + 1)%Z
  | Eq => if Z.even f then f else (f + 1)%Z
  end.

Definition float64_round (q : Qc) : fval :=
  match Qcompare q 0 with
  | Eq => Fin (Q2Qc 0)
  | c =>
      let a := Qabs q in
      let e := Z.max (floor_log2 a) (-1022) in
      let quantum := Qpower 2 (e - 52) in
      let r := (inject_Z (round_half_even (a / quantum)) * quantum)%Q in
      if Qle_bool (Qpower 2 1024) r
      then match c with Lt => NInf | _ => PInf end
      else Fin (Q2Qc (match c with Lt => - r | _ => r end))
  end.

Definition float64_mul (x y : fval) : fval :=
  match fmul x y with
  | Fin q => float64_round q
  | v => v
  end.

(** ** Exceptions *)

Inductive exn : Type :=
  | IndexError
  | KeyError
  | ValueError
  | ZeroDivisionError
  | AttributeError.

#[global] Instance exn_eq_dec : EqDecision exn.
Proof. solve_decision. Defined.

Inductive outcome (A : Type) : Type :=
  | Ok (a : A)
  | Raise (e : exn).

Arguments Ok {A} a.
Arguments Raise {A} e.

#[global] Instance outcome_eq_dec {A} `{EqDecision A} : EqDecision (outcome A).
Proof. solve_decision. Defined.

#[global] Instance outcome_ret : MRet outcome := @Ok.
#[global] Instance outcome_bind : MBind outcome := λ A B f m,
  match m with
  | Ok a => f a
  | Raise e => Raise e
  end.

Definition raises {A} (m : outcome A) : bool :=
  match m with Ok _ => false | Raise _ => true end.

(** ** One-dimensional numpy arrays of dtype float64, by value *)

Abbreviation ndarray := (list fval).

(** [x[idx]] with an integer index array: every index has to be in range. *)
Fixpoint take_indices (x : ndarray) (idx : list nat) : outcome ndarray :=
  match idx with
  | [] => Ok []
  | i :: idx' =>
      match x !! i with
      | Some v => r ← take_indices x idx'; Ok (v :: r)
      | None => Raise IndexError
      end
  end.

(** A binary ufunc on two one-dimensional arrays: equal shapes go
    elementwise, a length-one operand is stretched, anything else is a
    shape error. *)
Definition broadcast (f : fval → fval → fval) (x y : ndarray)
  : outcome ndarray :=
  if decide (length x = length y) then Ok (zip_with f x y)
  else match x, y with
       | [a], _ => Ok (map (f a) y)
       | _, [b] => Ok (map (λ a, f a b) x)
       | _, _ => Raise ValueError
       end.

Fixpoint cumsum_from (acc : fval) (x : ndarray) : ndarray :=
  match x with
  | [] => []
  | v :: x' => let s := fadd acc v in s :: cumsum_from s x'
  end.

Definition np_cumsum (x : ndarray) : ndarray := cumsum_from fzero x.

(** [sum(x)] and [np.sum(x)]: a left fold from 0. *)
Definition fsum (x : ndarray) : fval := fold_left fadd x fzero.

(** [x[1:]], [x[:-1]] and [x[-1]]. *)
Definition slice_from_1 (x : ndarray) : ndarray := drop 1 x.
Definition slice_to_last (x : ndarray) : ndarray := take (length x - 1) x.
Definition item_last (x : ndarray) : outcome fval :=
  match list.last x with
  | Some v => Ok v
  | None => Raise IndexError
  end.

Definition np_ones (n : nat) : ndarray := replicate n fone.

(** [np.searchsorted(a, v)] with the default [side='left'] on a sorted [a]:
    the first position whose element is not below [v]. *)
Fixpoint searchsorted1 (a : ndarray) (v : fval) : nat :=
  match a with
  | [] => 0
  | q :: a' => if sort_ltb q v then S (searchsorted1 a' v) else 0
  end.

Definition np_searchsorted (a v : ndarray) : list nat :=
  map (searchsorted1 a) v.

(** ** State and exceptions

    A computation that reads and updates a state of type [S] and either
    returns or raises; the state survives a raise, as Python objects do. *)

Definition StateExn (S A : Type) : Type := S → outcome A * S.

#[global] Instance StateExn_ret {S} : MRet (StateExn S) := λ A a s, (Ok a, s).
#[global] Instance StateExn_bind {S} : MBind (StateExn S) := λ A B f m s,
  match m s with
  | (Ok a, s') => f a s'
  | (Raise e, s') => (Raise e, s')
  end.

Definition lift {S A} (o : outcome A) : StateExn S A := λ s, (o, s).

(** ** Array objects

    An array a caller passes in is a reference into a heap of array
    objects; [x.copy()] allocates, [x[mask] = v] writes in place. *)

Definition loc : Type := nat.
Abbreviation heap := (list ndarray).

Definition ndarray_read (l : loc) : StateExn heap ndarray := λ h,
  match h !! l with
  | Some x => (Ok x, h)
  | None => (Raise AttributeError, h)
  end.

(** [x.copy()] *)
Definition ndarray_copy (l : loc) : StateExn heap loc := λ h,
  match h !! l with
  | Some x => (Ok (length h), h ++ [x])
  | None => (Raise AttributeError, h)
  end.

(** [x[x <= bound] = v] *)
Definition ndarray_setitem_le (l : loc) (bound v : fval)
  : StateExn heap unit := λ h,
  match h !! l with
  | Some x =>
      (Ok (), <[l := map (λ e, if fleb e bound then v else e) x]> h)
  | None => (Raise AttributeError, h)
  end.

(** The literal [.0000001]. *)
Definition epsilon : fval := Fin (Q2Qc (1 # 10000000)).

(** ** Data frames

    The frame [hl_tweedie_df] builds, as its list of rows. *)

Record row : Type := Row {
  col_weight : fval;
  col_actual : fval;
  col_predicted : fval;
  col_quantile : nat
}.

#[global] Instance row_eq_dec : EqDecision row.
Proof. solve_decision. Defined.

Abbreviation DataFrame := (list row).

Fixpoint zip_rows (w a p : ndarray) (q : list nat) : DataFrame :=
  match w, a, p, q with
  | w0 :: w', a0 :: a', p0 :: p', q0 :: q' =>
      Row w0 a0 p0 q0 :: zip_rows w' a' p' q'
  | _, _, _, _ => []
  end.

(** [pd.DataFrame({...})] from four arrays: they must be of one length. *)
Definition pd_DataFrame (w a p : ndarray) (q : list nat) : outcome DataFrame :=
  if decide (length w = length a ∧ length a = length p
             ∧ length p = length q)
  then Ok (zip_rows w a p q)
  else Raise ValueError.

(** [df.groupby('quantile')]: one sub-frame per key that occurs, keys in
    increasing order, rows in their original order. *)
Definition group_keys (df : DataFrame) : list nat :=
  filter (λ k, k ∈ map col_quantile df)
         (seq 0 (S (max_list (map col_quantile df)))).

Definition groupby_quantile (df : DataFrame) : list DataFrame :=
  map (λ k, filter (λ r, col_quantile r = k) df) (group_keys df).

(** [Series.sum()] with the default [skipna=True], for the series that
    [groupby(...).apply(...)] yields on a frame with at least one row. *)
Definition series_sum (x : ndarray) : fval :=
  fsum (filter (λ v, is_nan v = false) x).

(** [np.arange(1, bins) * 1 / bins] *)
Definition Qc_of_nat (n : nat) : Qc := Q2Qc (inject_Z (Z.of_nat n)).

Definition quantile_probs (bins : nat) : ndarray :=
  map (λ k, fdiv (fmul (Fin (Qc_of_nat k)) fone) (Fin (Qc_of_nat bins)))
      (seq 1 (bins - 1)).

(** ** Dictionary objects and standard output

    [train_set] and [valid_set] are references to dictionaries from key to
    vector; two references may name one dictionary.  [print] appends a line
    to standard output. *)

Abbreviation pydict := (gmap string ndarray).

Record world : Type := World {
  dicts : list pydict;
  stdout : list string
}.

#[global] Instance world_eq_dec : EqDecision world.
Proof. solve_decision. Defined.

Abbreviation report := (gmap string (gmap string ndarray)).

(** [d[k]] in a given list of dictionary objects. *)
Definition getitem (ds : list pydict) (d : loc) (k : string)
  : outcome ndarray :=
  match ds !! d with
  | Some m =>
      match m !! k with
      | Some v => Ok v
      | None => Raise KeyError
      end
  | None => Raise AttributeError
  end.

(** [k in d] *)
Definition dict_contains (d : loc) (k : string) : StateExn world bool := λ w,
  match dicts w !! d with
  | Some m => (Ok (bool_decide (is_Some (m !! k))), w)
  | None => (Raise AttributeError, w)
  end.

Definition dict_getitem (d : loc) (k : string) : StateExn world ndarray :=
  λ w, (getitem (dicts w) d k, w).

(** [d[k] = v] *)
Definition dict_setitem (d : loc) (k : string) (v : ndarray)
  : StateExn world unit := λ w,
  match dicts w !! d with
  | Some m => (Ok (), World (<[d := <[k := v]> m]> (dicts w)) (stdout w))
  | None => (Raise AttributeError, w)
  end.

Definition print (line : string) : StateExn world unit := λ w,
  (Ok (), World (dicts w) (stdout w ++ [line])).

(** What [print(e)] writes, reduced to the kind of the exception. *)
Definition exn_message (e : exn) : string :=
  match e with
  | IndexError => "IndexError"
  | KeyError => "KeyError"
  | ValueError => "ValueError"
  | ZeroDivisionError => "ZeroDivisionError"
  | AttributeError => "AttributeError"
  end.

(** [out_dict[split][name] = [v]] *)
Definition out_setitem (split name : string) (v : fval)
  : StateExn report unit := λ out,
  match out !! split with
  | Some m => (Ok (), <[split := <[name := [v]]> m]> out)
  | None => (Raise KeyError, out)
  end.

(** ** Library routines the module calls

    Routines of numpy, statsmodels and scikit-learn whose result is not
    determined by exact arithmetic on the inputs (the tie order of an
    unstable sort, irrational functions) or whose code is another
    project's. *)

Class Externals : Type := {
  (** [np.argsort(x)] *)
  np_argsort : ndarray → list nat;
  (** [np.sqrt(x)] on a scalar *)
  np_sqrt : fval → fval;
  (** [np.power(x, p)] on scalars *)
  np_power : fval → fval → fval;
  (** [sm.stats.DescrStatsW(data, weights=weights).quantile(probs)] *)
  DescrStatsW_quantile : ndarray → ndarray → ndarray → outcome ndarray;
  (** [sm.families.Tweedie(var_power=p).deviance(endog, mu, freq_weights)] *)
  Tweedie_deviance : fval → ndarray → ndarray → ndarray → outcome fval;
  (** [sklearn.metrics.mean_squared_error(y_true, y_pred)] *)
  mean_squared_error : ndarray → ndarray → outcome fval;
  (** [sklearn.metrics.mean_absolute_error(y_true, y_pred)] *)
  mean_absolute_error : ndarray → ndarray → outcome fval
}.

(** ** Model statistics *)

Section Stats.
Context `{E : Externals}.

Definition weighted_gini (weight actual predicted : ndarray) : outcome fval :=
  (* Sort by predicted in descending order *)
  let sort_index := reverse (np_argsort predicted) in
  weight ← take_indices weight sort_index;
  actual ← take_indices actual sort_index;
  (* Cumulative sums *)
  let cumulative_weight := np_cumsum weight in
  wa ← broadcast fmul weight actual;
  let cumulative_actual := np_cumsum wa in
  (* Calculate products *)
  pa ← broadcast fmul (slice_from_1 cumulative_weight)
                      (slice_to_last cumulative_actual);
  let sum_a := fsum pa in
  pb ← broadcast fmul (slice_to_last cumulative_weight)
                      (slice_from_1 cumulative_actual);
  let sum_b := fsum pb in
  (* Rescale *)
  cw_last ← item_last cumulative_weight;
  ca_last ← item_last cumulative_actual;
  let gini := fdiv (fsub sum_b sum_a) (fmul cw_last ca_last) in
  Ok (fabs gini).

Definition weighted_rmse (weight actual predicted : ndarray) : outcome fval :=
  d ← broadcast fsub actual predicted;
  let sq := map (λ x, np_power x ftwo) d in
  wsq ← broadcast fmul weight sq;
  Ok (np_sqrt (fdiv (fsum wsq) (fsum weight))).

Definition pearson_chi_sq_scale_estimate
    (actual weight predicted : loc) (p : Z) (tweedie_power : fval)
  : StateExn heap fval :=
  predicted_temp ← ndarray_copy predicted;
  _ ← ndarray_setitem_le predicted_temp fzero epsilon;
  actual_v ← ndarray_read actual;
  n ← mret (length actual_v);
  predicted_temp_v ← ndarray_read predicted_temp;
  d ← lift (broadcast fsub actual_v predicted_temp_v);
  (* square error *)
  se ← mret (map (λ x, np_power x ftwo) d);
  (* variance function *)
  v ← mret (map (λ x, np_power x tweedie_power) predicted_temp_v);
  if decide (Z.of_nat n - p = 0)%Z then lift (Raise ZeroDivisionError)
  else
    let scale := Fin (Q2Qc (/ inject_Z (Z.of_nat n - p))) in
    weight_v ← ndarray_read weight;
    wse ← lift (broadcast fmul weight_v se);
    r ← lift (broadcast fdiv wse v);
    mret (fmul scale (fsum r)).

(** The nested [weighted_average] of [chi_sq_tweedie], on two columns of one
    frame. *)
Definition weighted_average (x w : ndarray) : fval :=
  fdiv (fsum (zip_with fmul x w)) (fsum w).

(** Standardizes groups of observations coming from tweedie distribution *)
Definition chi_sq_tweedie (phi p : fval) : DataFrame → fval := λ grp,
  let wavg_actual :=
    weighted_average (map col_actual grp) (map col_weight grp) in
  let wavg_predicted :=
    weighted_average (map col_predicted grp) (map col_weight grp) in
  fdiv (np_power (fsub wavg_actual wavg_predicted) ftwo)
       (fdiv (fmul phi (np_power wavg_predicted p))
             (fsum (map col_weight grp))).

(** Calculates Hosmer-Lemeshow statistic for observations coming from
    tweedie distribution *)
Definition hl_tweedie_df
    (weight actual predicted : loc) (bins : nat) (phi p : fval)
  : StateExn heap DataFrame :=
  predicted_temp ← ndarray_copy predicted;
  _ ← ndarray_setitem_le predicted_temp fzero epsilon;
  predicted_v ← ndarray_read predicted;
  weight_v ← ndarray_read weight;
  qs ← lift (DescrStatsW_quantile predicted_v weight_v (quantile_probs bins));
  quantile ← mret (np_searchsorted qs predicted_v);
  actual_v ← ndarray_read actual;
  predicted_temp_v ← ndarray_read predicted_temp;
  lift (pd_DataFrame weight_v actual_v predicted_temp_v quantile).

Definition hl_tweedie
    (weight actual predicted : loc) (bins : nat) (phi p : fval)
  : StateExn heap fval :=
  df ← hl_tweedie_df weight actual predicted bins phi p;
  mret (series_sum (map (chi_sq_tweedie phi p) (groupby_quantile df))).

Definition deviance_tweedie (actual predicted weight : loc) (p : fval)
  : StateExn heap fval :=
  predicted_temp ← ndarray_copy predicted;
  _ ← ndarray_setitem_le predicted_temp fzero epsilon;
  actual_v ← ndarray_read actual;
  predicted_temp_v ← ndarray_read predicted_temp;
  weight_v ← ndarray_read weight;
  lift (Tweedie_deviance p actual_v predicted_temp_v weight_v).

(** The statements of the [try] block of [model_stats_reg], run on the
    partially built [out_dict]; [ds] are the dictionary objects as they are
    when the block is entered (the block reads them and writes none). *)
Definition model_stats_reg_try
    (ds : list pydict) (train_set : loc) (valid_set : option loc)
    (has_weight : bool)
  : StateExn report unit :=
  (* The mean squared error *)
  y ← lift (getitem ds train_set "y");
  pred ← lift (getitem ds train_set "pred");
  mse ← lift (mean_squared_error y pred);
  _ ← out_setitem "train" "rmse" (np_sqrt mse);
  y ← lift (getitem ds train_set "y");
  pred ← lift (getitem ds train_set "pred");
  mae ← lift (mean_absolute_error y pred);
  _ ← out_setitem "train" "mae" mae;
  (* Gini *)
  w ← lift (getitem ds train_set "w");
  y ← lift (getitem ds train_set "y");
  pred ← lift (getitem ds train_set "pred");
  gini ← lift (weighted_gini w y pred);
  _ ← out_setitem "train" "gini" gini;
  (* weighted_rmse *)
  _ ← (if has_weight then
         w ← lift (getitem ds train_set "w");
         y ← lift (getitem ds train_set "y");
         pred ← lift (getitem ds train_set "pred");
         wrmse ← lift (weighted_rmse w y pred);
         out_setitem "train" "weighted_rmse" wrmse
       else mret ());
  match valid_set with
  | Some valid_set =>
      y ← lift (getitem ds valid_set "y");
      pred ← lift (getitem ds valid_set "pred");
      mse ← lift (mean_squared_error y pred);
      _ ← out_setitem "valid" "rmse" (np_sqrt mse);
      y ← lift (getitem ds valid_set "y");
      pred ← lift (getitem ds valid_set "pred");
      mae ← lift (mean_absolute_error y pred);
      _ ← out_setitem "valid" "mae" mae;
      w ← lift (getitem ds valid_set "w");
      y ← lift (getitem ds valid_set "y");
      pred ← lift (getitem ds valid_set "pred");
      gini ← lift (weighted_gini w y pred);
      _ ← out_setitem "valid" "gini" gini;
      w ← lift (getitem ds valid_set "w");
      y ← lift (getitem ds valid_set "y");
      pred ← lift (getitem ds valid_set "pred");
      wrmse ← lift (weighted_rmse w y pred);
      out_setitem "valid" "weighted_rmse" wrmse
  | None => mret ()
  end.

(** Returns common metrics for a regression model. *)
Definition model_stats_reg (train_set : loc) (valid_set : option loc)
  : StateExn world report :=
  let out_dict : report := {[ "train" := ∅; "valid" := ∅ ]} in
  has_w ← dict_contains train_set "w";
  has_weight ←
    (if negb has_w then
       y ← dict_getitem train_set "y";
       _ ← dict_setitem train_set "w" (np_ones (length y));
       _ ← match valid_set with
           | Some valid_set =>
               vy ← dict_getitem valid_set "y";
               dict_setitem train_set "w" (np_ones (length vy))
           | None => mret ()
           end;
       mret true
     else mret false);
  ((λ w,
    match model_stats_reg_try (dicts w) train_set valid_set has_weight
            out_dict with
    | (Ok _, out_dict) => (Ok out_dict, w)
    | (Raise e, out_dict) =>
        match (_ ← print "Stats Failed to run"; print (exn_message e)) w with
        | (_, w') => (Ok out_dict, w')
        end
    end) : StateExn world report).

End Stats.

(** ** What the library routines are assumed to do

    [np.argsort] returns a permutation of the indices that sorts its
    argument, and, being a comparison sort, which permutation it returns
    depends on the outcomes of the comparisons only (no tie order is
    assumed); [np.power(x, 2)] is the square; the quantile routine returns
    one cut point per probability; the scikit-learn metrics are defined on
    finite vectors of one non-zero length. *)

Class ExternalsLaws (E : Externals) : Prop := {
  argsort_perm : ∀ x : ndarray, np_argsort x ≡ₚ seq 0 (length x);
  argsort_sorted : ∀ (x : ndarray) (i j a b : nat),
    i < j → np_argsort x !! i = Some a → np_argsort x !! j = Some b →
    sort_leb (x !!! a) (x !!! b) = true;
  argsort_by_comparisons : ∀ x y : ndarray,
    length x = length y →
    (∀ i j, i < length x → j < length x →
       sort_compare (x !!! i) (x !!! j) = sort_compare (y !!! i) (y !!! j)) →
    np_argsort x = np_argsort y;
  power_two : ∀ x : fval, np_power x ftwo = fmul x x;
  quantile_length : ∀ data weights probs qs : ndarray,
    DescrStatsW_quantile data weights probs = Ok qs →
    length qs = length probs;
  mean_squared_error_defined : ∀ y p : list Qc,
    length y = length p → 0 < length y →
    ∃ v, mean_squared_error (Fin <$> y) (Fin <$> p) = Ok v;
  mean_absolute_error_defined : ∀ y p : list Qc,
    length y = length p → 0 < length y →
    ∃ v, mean_absolute_error (Fin <$> y) (Fin <$> p) = Ok v
}.

(** ** A reference implementation of the library routines

    Executable instances of the routines above, used to run the module on
    concrete data: a stable insertion argsort, a square root that is exact
    on squares of rationals, powers with integer exponents, the weighted
    quantile of the SAS definition (ties aggregated, midpoint on an exact
    hit), the closed-form Tweedie deviance, and the two error means. *)

Module Reference.

Definition key_leb (x : ndarray) (i j : nat) : bool :=
  sort_leb (x !!! i) (x !!! j).

Definition key_le (x : ndarray) (i j : nat) : Prop := key_leb x i j = true.

Fixpoint insert_index (x : ndarray) (i : nat) (l : list nat) : list nat :=
  match l with
  | [] => [i]
  | j :: l' =>
      if key_leb x i j then i :: j :: l' else j :: insert_index x i l'
  end.

Definition argsort (x : ndarray) : list nat :=
  foldr (insert_index x) [] (seq 0 (length x)).

Definition sqrt (x : fval) : fval :=
  match x with
  | Fin v =>
      if Qclt_le_dec v 0 then NaN
      else Fin (Q2Qc (Z.sqrt (Qnum v) # Pos.sqrt (Qden v)))
  | PInf => PInf
  | NInf | NaN => NaN
  end.

Fixpoint power_nat (x : fval) (n : nat) : fval :=
  match n with
  | O => fone
  | S n' => fmul x (power_nat x n')
  end.

(** [x ** p] for an integer [p]; NaN stands for every other exponent. *)
Definition power (x p : fval) : fval :=
  match p with
  | Fin e =>
      if decide (Qden e = 1%positive) then
        match Qnum e with
        | Zneg n => fdiv fone (power_nat x (Pos.to_nat n))
        | n => power_nat x (Z.to_nat n)
        end
      else NaN
  | _ => NaN
  end.

Fixpoint map_outcome {A B} (f : A → outcome B) (l : list A)
  : outcome (list B) :=
  match l with
  | [] => Ok []
  | a :: l' => b ← f a; r ← map_outcome f l'; Ok (b :: r)
  end.

Fixpoint insert_weighted (v w : fval) (l : list (fval * fval))
  : list (fval * fval) :=
  match l with
  | [] => [(v, w)]
  | (v', w') :: l' =>
      match sort_compare v v' with
      | Lt => (v, w) :: (v', w') :: l'
      | Eq => (v', fadd w' w) :: l'
      | Gt => (v', w') :: insert_weighted v w l'
      end
  end.

Definition quantile (data weights probs : ndarray) : outcome ndarray :=
  if decide (length data = length weights) then
    let agg :=
      foldr (λ vw, insert_weighted vw.1 vw.2) [] (zip data weights) in
    let values := agg.*1 in
    let cweights := np_cumsum agg.*2 in
    totwt ← item_last cweights;
    map_outcome
      (λ pr,
         let target := fmul pr totwt in
         let ii := searchsorted1 cweights target in
         match values !! ii with
         | Some v =>
             match values !! S ii with
             | Some v' =>
                 if decide (cweights !! ii = Some target)
                 then Ok (fdiv (fadd v v') ftwo) else Ok v
             | None => Ok v
             end
         | None => Raise IndexError
         end)
      probs
  else Raise ValueError.

(** The unit deviance
    [2 (y^(2-p)/((1-p)(2-p)) - y mu^(1-p)/(1-p) + mu^(2-p)/(2-p))]. *)
Definition unit_deviance (p y mu : fval) : fval :=
  let p1 := fsub fone p in
  let p2 := fsub ftwo p in
  fmul ftwo
    (fadd (fsub (fdiv (power y p2) (fmul p1 p2))
                (fdiv (fmul y (power mu p1)) p1))
          (fdiv (power mu p2) p2)).

Fixpoint zip_with3 (f : fval → fval → fval → fval) (x y z : ndarray)
  : ndarray :=
  match x, y, z with
  | a :: x', b :: y', c :: z' => f a b c :: zip_with3 f x' y' z'
  | _, _, _ => []
  end.

Definition deviance (p : fval) (endog mu freq_weights : ndarray)
  : outcome fval :=
  if decide (length endog = length mu ∧ length mu = length freq_weights)
  then Ok (fsum (zip_with3 (λ y m w, fmul w (unit_deviance p y m))
                           endog mu freq_weights))
  else Raise ValueError.

Definition error_mean (f : fval → fval) (y_true y_pred : ndarray)
  : outcome fval :=
  if decide (length y_true = length y_pred ∧ 0 < length y_true
             ∧ forallb is_finite y_true = true
             ∧ forallb is_finite y_pred = true)
  then Ok (fdiv (fsum (zip_with (λ a b, f (fsub a b)) y_true y_pred))
                (Fin (Qc_of_nat (length y_true))))
  else Raise ValueError.

Definition externals : Externals := {|
  np_argsort := argsort;
  np_sqrt := sqrt;
  np_power := power;
  DescrStatsW_quantile := quantile;
  Tweedie_deviance := deviance;
  mean_squared_error := error_mean (λ d, fmul d d);
  mean_absolute_error := error_mean fabs
|}.

End Reference.

(** ** The formulas of the specification *)

(** [x] reordered by the index list [idx]. *)
Definition reorder (x : ndarray) (idx : list nat) : ndarray :=
  map (λ i, x !!! i) idx.

(** [sigma lo hi f] is the sum of [f i] for [lo <= i <= hi]. *)
Definition sigma (lo hi : nat) (f : nat → fval) : fval :=
  fsum (map f (seq lo (S hi - lo))).

(** [idx] is a permutation of the indices of [x] along which [x] never
    increases. *)
Definition descending_sort_permutation (x : ndarray) (idx : list nat) : Prop :=
  idx ≡ₚ seq 0 (length x) ∧
  ∀ i j a b, i < j → idx !! i = Some a → idx !! j = Some b →
    sort_leb (x !!! b) (x !!! a) = true.

Module GiniSpec.
Section GiniSpec.
Variables w a : ndarray.

(** [cw[i]] and [ca[i]]: cumulative weight and weighted actual. *)
Definition cw (i : nat) : fval := sigma 0 i (λ j, w !!! j).
Definition ca (i : nat) : fval := sigma 0 i (λ j, fmul (w !!! j) (a !!! j)).

Definition sum_b : fval :=
  sigma 1 (length w - 1) (λ i, fmul (cw (i - 1)) (ca i)).
Definition sum_a : fval :=
  sigma 1 (length w - 1) (λ i, fmul (cw i) (ca (i - 1))).

Definition denominator : fval :=
  fmul (cw (length w - 1)) (ca (length w - 1)).

Definition gini : fval := fabs (fdiv (fsub sum_b sum_a) denominator).
End GiniSpec.
End GiniSpec.

(** The value-level effect of the epsilon clamp. *)
Definition clamp (x : ndarray) : ndarray :=
  map (λ e, if fleb e fzero then epsilon else e) x.

(** The number of cut points strictly below [v]. *)
Definition cut_points_below (qs : ndarray) (v : fval) : nat :=
  length (filter (λ c, sort_ltb c v = true) qs).

(** A row of a frame built from valid observations: a finite weight that
    is not negative, a finite actual, and a finite predicted that the clamp
    has made positive. *)
Definition valid_row (r : row) : Prop :=
  ∃ w a p : Qc,
    col_weight r = Fin w ∧ col_actual r = Fin a ∧ col_predicted r = Fin p
    ∧ (0 ≤ w)%Qc ∧ (0 < p)%Qc.

(** The total weight of a bin, and whether it is positive. *)
Definition bin_weight (grp : DataFrame) : fval := fsum (map col_weight grp).

Definition positive_weight (grp : DataFrame) : Prop :=
  fltb fzero (bin_weight grp) = true.

#[global] Instance positive_weight_dec grp : Decision (positive_weight grp).
Proof. unfold positive_weight. apply _. Defined.

(** The chi-square term of one bin:
    [(wavg_actual - wavg_predicted)^2 / ((phi * wavg_predicted^p) / sum w)]
    with [wavg_x = sum (w * x) / sum w], over the bin's weight, actual and
    predicted columns. *)
Definition chi_square_term `{E : Externals} (phi p : fval)
    (w a pr : ndarray) : fval :=
  let wavg_actual := fdiv (fsum (zip_with fmul a w)) (fsum w) in
  let wavg_predicted := fdiv (fsum (zip_with fmul pr w)) (fsum w) in
  fdiv (np_power (fsub wavg_actual wavg_predicted) ftwo)
       (fdiv (fmul phi (np_power wavg_predicted p)) (fsum w)).

Definition bin_term `{E : Externals} (phi p : fval) (grp : DataFrame) : fval :=
  chi_square_term phi p (map col_weight grp) (map col_actual grp)
    (map col_predicted grp).

(** The report before any metric is entered, and the world after the
    [except] clause has handled the outcome of the [try] block. *)
Definition empty_report : report := {[ "train" := ∅; "valid" := ∅ ]}.

Definition logged (r : outcome unit) (w : world) : world :=
  match r with
  | Ok _ => w
  | Raise e =>
      World (dicts w) (stdout w ++ ["Stats Failed to run"; exn_message e])
  end.

(** [train_set] after the default weight has been filled in. *)
Definition with_default_weight (d : pydict) (n : nat) : pydict :=
  <["w" := np_ones n]> d.

(** The metric [name] of the split [split] in a report. *)
Definition metric (r : report) (split name : string) : option ndarray :=
  m ← r !! split; m !! name.

(** A computation keeps the state inside [P], whether it returns or
    raises. *)
Definition preserves {S A} (P : S → Prop) (m : StateExn S A) : Prop :=
  ∀ s, P s → P (m s).2.

(** The metric [name] of [split] in the report a call returned, if it
    returned one. *)
Definition returned_metric (o : outcome report) (split name : string)
  : option ndarray :=
  match o with
  | Ok r => metric r split name
  | Raise _ => None
  end.

(** The metric computations of the [try] block of [model_stats_reg], in the
    order the block makes them: the split and the key under which the value
    is entered, and the outcome of computing the value. *)
Definition metric_computations `{E : Externals} (ds : list pydict)
    (train_set : loc) (valid_set : option loc) (has_weight : bool)
  : list (string * string * outcome fval) :=
  [ ("train", "rmse",
     y ← getitem ds train_set "y";
     pred ← getitem ds train_set "pred";
     mse ← mean_squared_error y pred;
     Ok (np_sqrt mse));
    ("train", "mae",
     y ← getitem ds train_set "y";
     pred ← getitem ds train_set "pred";
     mean_absolute_error y pred);
    ("train", "gini",
     w ← getitem ds train_set "w";
     y ← getitem ds train_set "y";
     pred ← getitem ds train_set "pred";
     weighted_gini w y pred) ]
  ++ (if has_weight
      then [ ("train", "weighted_rmse",
              w ← getitem ds train_set "w";
              y ← getitem ds train_set "y";
              pred ← getitem ds train_set "pred";
              weighted_rmse w y pred) ]
      else [])
  ++ match valid_set with
     | Some valid_set =>
         [ ("valid", "rmse",
            y ← getitem ds valid_set "y";
            pred ← getitem ds valid_set "pred";
            mse ← mean_squared_error y pred;
            Ok (np_sqrt mse));
           ("valid", "mae",
            y ← getitem ds valid_set "y";
            pred ← getitem ds valid_set "pred";
            mean_absolute_error y pred);
           ("valid", "gini",
            w ← getitem ds valid_set "w";
            y ← getitem ds valid_set "y";
            pred ← getitem ds valid_set "pred";
            weighted_gini w y pred);
           ("valid", "weighted_rmse",
            w ← getitem ds valid_set "w";
            y ← getitem ds valid_set "y";
            pred ← getitem ds valid_set "pred";
            weighted_rmse w y pred) ]
     | None => []
     end.

(** The metrics that succeeded: the values computed before the first
    computation that raised; and the exception of that computation, if
    there is one. *)
Fixpoint succeeded (steps : list (string * string * outcome fval))
  : list (string * string * fval) :=
  match steps with
  | (split, name, Ok v) :: rest => (split, name, v) :: succeeded rest
  | _ => []
  end.

Fixpoint first_failure (steps : list (string * string * outcome fval))
  : option exn :=
  match steps with
  | [] => None
  | (_, _, Ok _) :: rest => first_failure rest
  | (_, _, Raise e) :: _ => Some e
  end.

(** The report that holds exactly the given metrics, each a one-element
    list under its split and key. *)
Definition enter (out : report) (m : string * string * fval) : report :=
  let '(split, name, v) := m in
  <[split := <[name := [v]]> (default ∅ (out !! split))]> out.

Definition report_of (entered : list (string * string * fval)) : report :=
  foldl enter empty_report entered.

(** What the [except] clause prints. *)
Definition failure_log (failure : option exn) : list string :=
  match failure with
  | None => []
  | Some e => ["Stats Failed to run"; exn_message e]
  end.

Definition try_outcome (failure : option exn) : outcome unit :=
  match failure with
  | None => Ok ()
  | Some e => Raise e
  end.

(** ** Example data *)

Module Examples.

Definition fq (n : Z) (d : positive) : fval := Fin (Q2Qc (n # d)).
Definition fz (n : Z) : fval := fq n 1.

(** Four observations, perfectly ranked and perfectly predicted. *)
Definition weight4 : ndarray := [fz 1; fz 1; fz 1; fz 1].
Definition actual4 : ndarray := [fz 10; fz 20; fz 30; fz 40].
Definition predicted4 : ndarray := [fz 10; fz 20; fz 30; fz 40].

(** Vectors of mismatched lengths. *)
Definition weight1 : ndarray := [fz 2].
Definition actual2 : ndarray := [fz 1; fz 2].
Definition predicted2 : ndarray := [fz 1; fz 3].
Definition weight3 : ndarray := [fz 1; fz 2; fz 3].
Definition actual3 : ndarray := [fz 10; fz 20; fz 30].
Definition predicted_short : ndarray := [fz 10; fz 20].

(** Two observations whose predictions are zero, as arrays on a heap. *)
Definition weight_ones2 : ndarray := [fz 1; fz 1].
Definition actual_ones2 : ndarray := [fz 1; fz 1].
Definition predicted_zeros2 : ndarray := [fz 0; fz 0].
Definition heap2 : heap := [weight_ones2; actual_ones2; predicted_zeros2].

(** Four observations of which only the third carries weight, on a heap;
    with three bins the last observation is alone in a bin without
    weight. *)
Definition w_third : list Qc := [Q2Qc 0; Q2Qc 0; Q2Qc 3; Q2Qc 0].
Definition a_third : list Qc := [Q2Qc 1; Q2Qc 2; Q2Qc 4; Q2Qc 4].
Definition p_third : list Qc := [Q2Qc 1; Q2Qc 2; Q2Qc 3; Q2Qc 4].
Definition heap_third : heap :=
  [Fin <$> w_third; Fin <$> a_third; Fin <$> p_third].

(** Worlds holding one training dictionary: without weights, with weights,
    and without ['y'] and weights. *)
Definition y2 : ndarray := [fz 1; fz 2].
Definition pred2 : ndarray := [fz 3; fz 4].
Definition w2 : ndarray := [fz 1; fz 3].

Definition world_no_w : world :=
  World [ {[ "y" := y2; "pred" := pred2 ]} ] [].
Definition world_with_w : world :=
  World [ {[ "y" := y2; "pred" := pred2; "w" := w2 ]} ] [].
Definition world_no_y : world :=
  World [ {[ "pred" := pred2 ]} ] [].

End Examples.

(** ** The Tweedie report *)

Section TweedieReport.
Context `{E : Externals}.

(** A call of one of the functions that clamp a copy, on three arrays held
    in dictionaries.  The callee writes to no array it is given, so only its
    result is kept. *)
Definition call_with_arrays {A}
    (f : loc → loc → loc → StateExn heap A) (x y z : ndarray) : outcome A :=
  (f 0 1 2 [x; y; z]).1.

(** [out_dict[split][name] = [v]] on the report a function holds. *)
Definition report_setitem (out : report) (split name : string) (v : fval)
  : outcome report :=
  match out_setitem split name v out with
  | (Ok _, out') => Ok out'
  | (Raise e, _) => Raise e
  end.

(** The placeholder dispersion [6000] and the default [bins=10]. *)
Definition train_phi : fval := Fin (Q2Qc 6000).
Definition valid_phi : fval := Fin (Q2Qc 6000).
Definition default_bins : nat := 10.

(** Returns common metrics for a regression model with a tweedie
    distribution assumptions. *)
Definition model_stats_tweedie
    (train_set : loc) (valid_set : option loc) (p : fval)
  : StateExn world report :=
  out_dict ← model_stats_reg train_set valid_set;
  has_w ← dict_contains train_set "w";
  _ ← (if negb has_w then
         y ← dict_getitem train_set "y";
         _ ← dict_setitem train_set "w" (np_ones (length y));
         match valid_set with
         | Some valid_set =>
             vy ← dict_getitem valid_set "y";
             dict_setitem train_set "w" (np_ones (length vy))
         | None => mret ()
         end
       else mret ());
  (* Tweedie Deviance *)
  y ← dict_getitem train_set "y";
  pred ← dict_getitem train_set "pred";
  w ← dict_getitem train_set "w";
  dev ← lift (call_with_arrays
                (λ actual predicted weight,
                   deviance_tweedie actual predicted weight p) y pred w);
  out_dict ← lift (report_setitem out_dict "train" "tweedie_deviance" dev);
  w ← dict_getitem train_set "w";
  y ← dict_getitem train_set "y";
  pred ← dict_getitem train_set "pred";
  hl ← lift (call_with_arrays
               (λ weight actual predicted,
                  hl_tweedie weight actual predicted default_bins train_phi p)
               w y pred);
  out_dict ← lift (report_setitem out_dict "train" "hl_tweedie" hl);
  match valid_set with
  | Some valid_set =>
      y ← dict_getitem valid_set "y";
      pred ← dict_getitem valid_set "pred";
      w ← dict_getitem valid_set "w";
      dev ← lift (call_with_arrays
                    (λ actual predicted weight,
                       deviance_tweedie actual predicted weight p) y pred w);
      out_dict ← lift (report_setitem out_dict "valid" "tweedie_deviance" dev);
      w ← dict_getitem valid_set "w";
      y ← dict_getitem valid_set "y";
      pred ← dict_getitem valid_set "pred";
      hl ← lift (call_with_arrays
                   (λ weight actual predicted,
                      hl_tweedie weight actual predicted default_bins
                        valid_phi p)
                   w y pred);
      out_dict ← lift (report_setitem out_dict "valid" "hl_tweedie" hl);
      mret out_dict
  | None => mret out_dict
  end.

End TweedieReport.

(** ** Finite vectors *)

#[global] Instance Qc_inhabited : Inhabited Qc := populate 0%Qc.

(** The exact sum of rationals. *)
Definition Qc_sum (l : list Qc) : Qc := foldr Qcplus 0%Qc l.

(** More example data: a heap of three arrays with a non-positive
    prediction, and worlds with a validation dictionary. *)
Module Examples2.
Import Examples.

Definition heap4 : heap := [weight4; actual4; [fz (-1); fz 0; fz 30; fz 40]].

Definition y3 : ndarray := [fz 1; fz 2; fz 3].
Definition pred3 : ndarray := [fz 1; fz 2; fz 4].

(** A training dictionary without weights and a validation dictionary
    with one observation. *)
Definition world_short_valid : world :=
  World [ {[ "y" := y3; "pred" := pred3 ]};
          {[ "y" := [fz 5]; "pred" := [fz 5]; "w" := [fz 1] ]} ] [].

(** Two predictions one unit in the last place apart, 0.7000000000000001
    and 0.7, which the float64 product with 100 merges into 70.0. *)
Definition near_07 : fval := float64_round (Q2Qc (7 # 10)).
Definition next_07 : fval :=
  match near_07 with
  | Fin q => Fin (Q2Qc (q + Qpower 2 (-53)))
  | v => v
  end.
Definition weight_ones3 : ndarray := [fz 1; fz 1; fz 1].
Definition predicted_near : ndarray := [next_07; near_07; fq 1 2].


End Examples2.

(** ** Basic facts about the arithmetic *)

Lemma fadd_zero_l (x : fval) : fadd fzero x = x.
Proof. destruct x; simpl; try done. by rewrite Qcplus_0_l. Qed.

Lemma fmul_one_r (x : fval) : fmul x fone = x.
Proof. destruct x; simpl; try done. by rewrite Qcmult_1_r. Qed.

(** ** Arrays: indexing, broadcasting, cumulative sums *)

Lemma take_indices_ok (x : ndarray) (idx : list nat) :
  Forall (λ i, i < length x) idx →
  take_indices x idx = Ok (reorder x idx).
Proof.
  induction 1 as [|i idx Hi _ IH]; [done|].
  simpl. rewrite (list_lookup_lookup_total_lt x i Hi), IH. done.
Qed.

Lemma take_indices_out_of_range (x : ndarray) (idx : list nat) :
  Exists (λ i, length x ≤ i) idx →
  take_indices x idx = Raise IndexError.
Proof.
  induction 1 as [i idx Hi|i idx _ IH]; simpl.
  - by rewrite (lookup_ge_None_2 x i Hi).
  - destruct (x !! i); [|done]. by rewrite IH.
Qed.

Lemma length_reorder (x : ndarray) (idx : list nat) :
  length (reorder x idx) = length idx.
Proof. apply length_map. Qed.

Lemma broadcast_same_length f (x y : ndarray) :
  length x = length y → broadcast f x y = Ok (zip_with f x y).
Proof. intros H. unfold broadcast. by rewrite decide_True. Qed.

Lemma length_cumsum_from acc (x : ndarray) :
  length (cumsum_from acc x) = length x.
Proof. revert acc. induction x as [|v x IH]; intros acc; simpl; [done|]. by rewrite IH. Qed.

Lemma length_np_cumsum (x : ndarray) : length (np_cumsum x) = length x.
Proof. apply length_cumsum_from. Qed.

Lemma cumsum_from_lookup acc (x : ndarray) (i : nat) :
  i < length x →
  cumsum_from acc x !! i = Some (fold_left fadd (take (S i) x) acc).
Proof.
  revert acc i. induction x as [|v x IH]; intros acc i Hi; simpl in *; [lia|].
  destruct i as [|i]; simpl.
  - done.
  - apply IH. lia.
Qed.

Lemma map_lookup_total_seq (x : ndarray) (n : nat) :
  n ≤ length x → map (λ j, x !!! j) (seq 0 n) = take n x.
Proof.
  intros Hn. apply list_eq. intros k.
  rewrite list_lookup_fmap.
  destruct (decide (k < n)) as [Hk|Hk].
  - rewrite lookup_seq_lt by done. simpl.
    rewrite lookup_take_lt by done.
    symmetry. apply list_lookup_lookup_total_lt. lia.
  - rewrite lookup_seq_ge by lia. simpl.
    symmetry. apply lookup_ge_None_2. rewrite length_take. lia.
Qed.

Lemma np_cumsum_lookup (x : ndarray) (i : nat) :
  i < length x →
  np_cumsum x !! i = Some (sigma 0 i (λ j, x !!! j)).
Proof.
  intros Hi. unfold np_cumsum. rewrite cumsum_from_lookup by done.
  unfold sigma, fsum. rewrite Nat.sub_0_r, map_lookup_total_seq by lia. done.
Qed.

Lemma sigma_ext (lo hi : nat) (f g : nat → fval) :
  (∀ i, lo ≤ i ≤ hi → f i = g i) → sigma lo hi f = sigma lo hi g.
Proof.
  intros Hfg. unfold sigma. f_equal. apply map_ext_in.
  intros i Hi. apply in_seq in Hi. apply Hfg. lia.
Qed.

Lemma sigma_empty (lo hi : nat) (f : nat → fval) :
  hi < lo → sigma lo hi f = fzero.
Proof. intros H. unfold sigma. by replace (S hi - lo) with 0 by lia. Qed.

Section AdjacentProducts.
Variables (X Y : ndarray) (fx fy : nat → fval) (n : nat).
Hypothesis HX : length X = n.
Hypothesis HY : length Y = n.
Hypothesis HfX : ∀ i, i < n → X !! i = Some (fx i).
Hypothesis HfY : ∀ i, i < n → Y !! i = Some (fy i).

Lemma products_upper_lower :
  zip_with fmul (slice_from_1 X) (slice_to_last Y)
  = map (λ i, fmul (fx i) (fy (i - 1))) (seq 1 (n - 1)).
Proof using All.
  unfold slice_from_1, slice_to_last. apply list_eq. intros k.
  rewrite lookup_zip_with, lookup_drop, list_lookup_fmap.
  destruct (decide (k < n - 1)) as [Hk|Hk].
  - rewrite lookup_take_lt by lia.
    rewrite HfX, HfY by lia. rewrite lookup_seq_lt by done. simpl.
    by replace (k - 0) with k by lia.
  - rewrite lookup_seq_ge by lia.
    rewrite (lookup_ge_None_2 X) by lia. done.
Qed.

Lemma products_lower_upper :
  zip_with fmul (slice_to_last X) (slice_from_1 Y)
  = map (λ i, fmul (fx (i - 1)) (fy i)) (seq 1 (n - 1)).
Proof using All.
  unfold slice_from_1, slice_to_last. apply list_eq. intros k.
  rewrite lookup_zip_with, lookup_drop, list_lookup_fmap.
  destruct (decide (k < n - 1)) as [Hk|Hk].
  - rewrite lookup_take_lt by lia.
    rewrite HfX, HfY by lia. rewrite lookup_seq_lt by done. simpl.
    by replace (k - 0) with k by lia.
  - rewrite lookup_seq_ge by lia.
    rewrite (lookup_ge_None_2 (take _ X)); [done|].
    rewrite length_take. lia.
Qed.

Lemma length_slices :
  length (slice_from_1 X) = length (slice_to_last Y)
  ∧ length (slice_to_last X) = length (slice_from_1 Y).
Proof using All.
  unfold slice_from_1, slice_to_last.
  rewrite !length_drop, !length_take. lia.
Qed.

Lemma item_last_lookup : 1 ≤ n → item_last X = Ok (fx (n - 1)).
Proof using All.
  intros Hn. unfold item_last. rewrite last_lookup, HX.
  replace (pred n) with (n - 1) by lia. by rewrite HfX by lia.
Qed.
End AdjacentProducts.

(** The body of [weighted_gini] once the vectors are in sorted order. *)
Lemma weighted_gini_sorted_body (w a : ndarray) :
  length a = length w → 1 ≤ length w →
  (let cumulative_weight := np_cumsum w in
   wa ← broadcast fmul w a;
   let cumulative_actual := np_cumsum wa in
   pa ← broadcast fmul (slice_from_1 cumulative_weight)
                       (slice_to_last cumulative_actual);
   let sum_a := fsum pa in
   pb ← broadcast fmul (slice_to_last cumulative_weight)
                       (slice_from_1 cumulative_actual);
   let sum_b := fsum pb in
   cw_last ← item_last cumulative_weight;
   ca_last ← item_last cumulative_actual;
   let gini := fdiv (fsub sum_b sum_a) (fmul cw_last ca_last) in
   Ok (fabs gini))
  = Ok (GiniSpec.gini w a).
Proof.
  intros Ha Hn. set (n := length w) in *.
  assert (HfX : ∀ i, i < n → np_cumsum w !! i = Some (GiniSpec.cw w i)).
  { intros i Hi. by apply np_cumsum_lookup. }
  assert (Hwa : length (zip_with fmul w a) = n).
  { rewrite length_zip_with. lia. }
  assert (HfY : ∀ i, i < n →
            np_cumsum (zip_with fmul w a) !! i = Some (GiniSpec.ca w a i)).
  { intros i Hi. rewrite np_cumsum_lookup by lia. f_equal.
    apply sigma_ext. intros j Hj.
    apply (inj Some). rewrite <- list_lookup_lookup_total_lt by lia.
    rewrite lookup_zip_with.
    rewrite (list_lookup_lookup_total_lt w j), (list_lookup_lookup_total_lt a j)
      by lia. done. }
  assert (HX : length (np_cumsum w) = n) by apply length_np_cumsum.
  assert (HY : length (np_cumsum (zip_with fmul w a)) = n).
  { by rewrite length_np_cumsum. }
  cbv zeta.
  rewrite (broadcast_same_length fmul w a) by lia. simpl.
  destruct (length_slices _ _ _ _ n HX HY HfX HfY) as [L1 L2].
  rewrite !broadcast_same_length by done. simpl.
  rewrite (products_upper_lower _ _ _ _ n HX HY HfX HfY).
  rewrite (products_lower_upper _ _ _ _ n HX HY HfX HfY).
  rewrite (item_last_lookup _ _ _ _ n HX HY HfX HfY Hn). simpl.
  rewrite (item_last_lookup _ _ _ _ n HY HX HfY HfX Hn). simpl.
  unfold GiniSpec.gini, GiniSpec.sum_a, GiniSpec.sum_b, GiniSpec.denominator,
    sigma.
  fold n. by replace (S (n - 1) - 1) with (n - 1) by lia.
Qed.

(** ** The sort order *)

Lemma sort_leb_total (x y : fval) : sort_leb x y = true ∨ sort_leb y x = true.
Proof.
  unfold sort_leb.
  destruct x as [a| | |], y as [b| | |]; simpl; auto.
  destruct (a ?= b)%Qc eqn:Hab; auto.
  right. rewrite <- Qcgt_alt in Hab.
  destruct (b ?= a)%Qc eqn:Hba; auto.
  rewrite <- Qcgt_alt in Hba. exfalso.
  by apply (Qclt_not_le _ _ Hab), Qclt_le_weak.
Qed.

Lemma sort_leb_trans (x y z : fval) :
  sort_leb x y = true → sort_leb y z = true → sort_leb x z = true.
Proof.
  unfold sort_leb.
  destruct x as [a| | |], y as [b| | |], z as [c| | |]; simpl; try done.
  destruct (a ?= b)%Qc eqn:Hab; try done;
    destruct (b ?= c)%Qc eqn:Hbc; try done; intros _ _;
    destruct (a ?= c)%Qc eqn:Hac; try done; exfalso;
    rewrite <- ?Qceq_alt, <- ?Qclt_alt, <- ?Qcgt_alt in *; subst;
    try (by eapply Qclt_not_le; [eassumption|apply Qclt_le_weak]);
    try (by eapply (Qclt_not_eq c c)).
  eapply (Qclt_not_le _ _ Hac), Qclt_le_weak, Qclt_trans; eassumption.
Qed.

(** ** The reference routines satisfy the assumptions *)

Module ReferenceFacts.
Import Reference.

Lemma insert_index_perm (x : ndarray) (i : nat) (l : list nat) :
  insert_index x i l ≡ₚ i :: l.
Proof.
  induction l as [|j l IH]; simpl; [done|].
  destruct (key_leb x i j); [done|].
  rewrite IH. apply Permutation_swap.
Qed.

Lemma argsort_perm (x : ndarray) : argsort x ≡ₚ seq 0 (length x).
Proof.
  unfold argsort. induction (seq 0 (length x)) as [|i l IH]; simpl; [done|].
  by rewrite insert_index_perm, IH.
Qed.

Lemma insert_index_sorted (x : ndarray) (i : nat) (l : list nat) :
  Sorted (key_le x) l → Sorted (key_le x) (insert_index x i l).
Proof.
  induction 1 as [|j l Hl IH Hj]; simpl.
  - by repeat constructor.
  - destruct (key_leb x i j) eqn:Hij.
    + by repeat constructor.
    + constructor; [done|].
      assert (Hji : key_le x j i).
      { destruct (sort_leb_total (x !!! i) (x !!! j)) as [H|H]; [|done].
        unfold key_leb in Hij. congruence. }
      destruct Hj as [|k l' Hjk]; simpl.
      * by constructor.
      * destruct (key_leb x i k); by constructor.
Qed.

Lemma argsort_Sorted (x : ndarray) : Sorted (key_le x) (argsort x).
Proof.
  unfold argsort. induction (seq 0 (length x)) as [|i l IH]; simpl.
  - constructor.
  - by apply insert_index_sorted.
Qed.

Lemma StronglySorted_lookup_lt {A} (R : relation A) (l : list A) i j a b :
  StronglySorted R l → i < j → l !! i = Some a → l !! j = Some b → R a b.
Proof.
  intros Hl. revert i j. induction Hl as [|c l Hl IH Hc]; intros i j Hij Hi Hj.
  - done.
  - destruct i as [|i], j as [|j]; simpl in *; try lia.
    + injection Hi as ->. rewrite Forall_forall in Hc.
      apply Hc, list_elem_of_In. eapply list_elem_of_lookup_2. exact Hj.
    + eapply (IH i j); [lia|done..].
Qed.

Lemma argsort_sorted (x : ndarray) (i j a b : nat) :
  i < j → argsort x !! i = Some a → argsort x !! j = Some b →
  sort_leb (x !!! a) (x !!! b) = true.
Proof.
  intros Hij Hi Hj.
  assert (Htrans : Transitive (key_le x)).
  { intros u v w. unfold key_le, key_leb. apply sort_leb_trans. }
  pose proof (Sorted_StronglySorted Htrans (argsort_Sorted x)) as HS.
  exact (StronglySorted_lookup_lt _ _ _ _ _ _ HS Hij Hi Hj).
Qed.

Lemma sort_leb_by_compare (a b a' b' : fval) :
  sort_compare a b = sort_compare a' b' → sort_leb a b = sort_leb a' b'.
Proof. unfold sort_leb. by intros ->. Qed.

Lemma insert_index_ext (x y : ndarray) (n i : nat) (l : list nat) :
  (∀ i j, i < n → j < n → key_leb x i j = key_leb y i j) →
  i < n → Forall (λ j, j < n) l →
  insert_index x i l = insert_index y i l.
Proof.
  intros Hxy Hi. induction 1 as [|j l Hj _ IH]; simpl; [done|].
  rewrite (Hxy i j Hi Hj), IH. done.
Qed.

Lemma insert_index_bound (x : ndarray) (n i : nat) (l : list nat) :
  i < n → Forall (λ j, j < n) l → Forall (λ j, j < n) (insert_index x i l).
Proof.
  intros Hi Hl. rewrite insert_index_perm. by constructor.
Qed.

Lemma argsort_by_comparisons (x y : ndarray) :
  length x = length y →
  (∀ i j, i < length x → j < length x →
     sort_compare (x !!! i) (x !!! j) = sort_compare (y !!! i) (y !!! j)) →
  argsort x = argsort y.
Proof.
  intros Hlen Hcmp. unfold argsort. rewrite <- Hlen.
  set (n := length x) in *.
  assert (Hk : ∀ i j, i < n → j < n → key_leb x i j = key_leb y i j).
  { intros i j Hi Hj. unfold key_leb. apply sort_leb_by_compare. auto. }
  assert (Hb : Forall (λ j, j < n) (seq 0 n)).
  { apply Forall_forall. intros j Hj. apply in_seq in Hj. lia. }
  induction Hb as [|i l Hi Hl IH]; simpl; [done|].
  rewrite <- IH.
  apply (insert_index_ext x y n); [done..|].
  clear IH. induction Hl as [|k l Hk' Hl IHl]; simpl; [constructor|].
  by apply insert_index_bound.
Qed.

Lemma power_two (x : fval) : power x ftwo = fmul x x.
Proof.
  unfold power, ftwo. simpl. by rewrite fmul_one_r.
Qed.

Lemma length_map_outcome {A B} (f : A → outcome B) (l : list A) (r : list B) :
  map_outcome f l = Ok r → length r = length l.
Proof.
  revert r. induction l as [|a l IH]; intros r; simpl.
  - by intros [= <-].
  - destruct (f a) as [b|e]; simpl; [|done].
    destruct (map_outcome f l) as [r'|e]; simpl; [|done].
    intros [= <-]. simpl. by rewrite (IH r').
Qed.

Lemma quantile_length (data weights probs qs : ndarray) :
  quantile data weights probs = Ok qs → length qs = length probs.
Proof.
  unfold quantile. case_decide; [|done].
  destruct (item_last _) as [totwt|e]; simpl; [|done].
  apply length_map_outcome.
Qed.

Lemma forallb_is_finite_Fin (y : list Qc) :
  forallb is_finite (Fin <$> y) = true.
Proof. induction y as [|a y IH]; simpl; [done|]. exact IH. Qed.

Lemma error_mean_defined (f : fval → fval) (y p : list Qc) :
  length y = length p → 0 < length y →
  ∃ v, error_mean f (Fin <$> y) (Fin <$> p) = Ok v.
Proof.
  intros Hlen Hpos. unfold error_mean. rewrite decide_True; [by eexists|].
  rewrite !length_fmap, !forallb_is_finite_Fin. done.
Qed.

Lemma laws : ExternalsLaws externals.
Proof.
  split; simpl.
  - apply argsort_perm.
  - apply argsort_sorted.
  - apply argsort_by_comparisons.
  - apply power_two.
  - apply quantile_length.
  - apply error_mean_defined.
  - apply error_mean_defined.
Qed.

End ReferenceFacts.

(** ** weighted_gini *)

Section WeightedGini.
Context `{E : Externals} {L : ExternalsLaws E}.

Lemma sort_index_descending (predicted : ndarray) :
  descending_sort_permutation predicted (reverse (np_argsort predicted)).
Proof.
  split.
  - rewrite reverse_Permutation. apply argsort_perm.
  - intros i j a b Hij Hi Hj.
    assert (Hj' := lookup_lt_Some _ _ _ Hj).
    rewrite length_reverse in Hj'.
    rewrite reverse_lookup in Hi by lia.
    rewrite reverse_lookup in Hj by lia.
    eapply (argsort_sorted predicted); [|exact Hj|exact Hi]. lia.
Qed.

Lemma sort_index_bound (predicted : ndarray) :
  Forall (λ i, i < length predicted) (reverse (np_argsort predicted)).
Proof.
  rewrite reverse_Permutation, argsort_perm.
  apply Forall_forall. intros i Hi. apply in_seq in Hi. lia.
Qed.

Lemma length_sort_index (predicted : ndarray) :
  length (reverse (np_argsort predicted)) = length predicted.
Proof.
  rewrite length_reverse, (Permutation_length (argsort_perm predicted)).
  apply length_seq.
Qed.

(** Whatever the lengths, [weighted_gini] is its body applied to the
    reordered vectors. *)
Lemma weighted_gini_reordered (weight actual predicted : ndarray) :
  length predicted ≤ length weight → length predicted ≤ length actual →
  1 ≤ length predicted →
  let sort_index := reverse (np_argsort predicted) in
  weighted_gini weight actual predicted
  = Ok (GiniSpec.gini (reorder weight sort_index) (reorder actual sort_index)).
Proof.
  intros Hw Ha Hn sort_index. unfold weighted_gini. fold sort_index.
  pose proof (sort_index_bound predicted) as Hb. fold sort_index in Hb.
  rewrite (take_indices_ok weight), (take_indices_ok actual)
    by (eapply Forall_impl; [|exact Hb]; simpl; intros; lia).
  simpl.
  apply weighted_gini_sorted_body;
    rewrite !length_reorder; unfold sort_index;
    rewrite ?length_sort_index; done.
Qed.

End WeightedGini.

Lemma fabs_zero : fabs fzero = fzero.
Proof.
  reflexivity.
Qed.

Lemma fdiv_zero_l (d : fval) : d ≠ NaN → d ≠ fzero → fdiv fzero d = fzero.
Proof.
  intros Hnan Hzero. destruct d as [d| | |]; simpl; try done.
  case_decide as Hd; [by subst|].
  unfold fzero. f_equal. unfold Qcdiv. apply Qcmult_0_l.
Qed.

Lemma gini_single (w a : ndarray) :
  length w = 1 →
  GiniSpec.denominator w a ≠ NaN → GiniSpec.denominator w a ≠ fzero →
  GiniSpec.gini w a = fzero.
Proof.
  intros Hlen Hnan Hzero. unfold GiniSpec.gini.
  unfold GiniSpec.sum_a, GiniSpec.sum_b. rewrite Hlen.
  rewrite !sigma_empty by lia.
  replace (fsub fzero fzero) with fzero
    by (unfold fsub, fzero; simpl; f_equal; ring).
  rewrite fdiv_zero_l by done. apply fabs_zero.
Qed.

(** C1.  For weight, actual and predicted of one length N >= 1,
    [weighted_gini] reorders the vectors by a descending sort permutation
    on predicted and returns [abs((sum_b - sum_a) / (cw[N-1] * ca[N-1]))],
    where [cw] and [ca] are the cumulative sums of weight and of
    weight*actual, [sum_a] is the sum of [cw[i] * ca[i-1]] and [sum_b] the
    sum of [cw[i-1] * ca[i]] for i from 1 to N-1; for N = 1 with a
    denominator that is neither zero nor NaN the result is 0. *)
Theorem weighted_gini_formula `{E : Externals} {L : ExternalsLaws E}
    (weight actual predicted : ndarray) :
  length weight = length predicted →
  length actual = length predicted →
  1 ≤ length predicted →
  let sort_index := reverse (np_argsort predicted) in
  let w := reorder weight sort_index in
  let a := reorder actual sort_index in
  descending_sort_permutation predicted sort_index
  ∧ weighted_gini weight actual predicted = Ok (GiniSpec.gini w a)
  ∧ (length predicted = 1 →
     GiniSpec.denominator w a ≠ NaN → GiniSpec.denominator w a ≠ fzero →
     weighted_gini weight actual predicted = Ok fzero).
Proof.
  intros Hw Ha Hn sort_index w a.
  assert (Hg : weighted_gini weight actual predicted = Ok (GiniSpec.gini w a)).
  { apply weighted_gini_reordered; lia. }
  split; [apply sort_index_descending|]. split; [exact Hg|].
  intros H1 Hnan Hzero. rewrite Hg. f_equal.
  apply gini_single; [|done..].
  unfold w. rewrite length_reorder. unfold sort_index.
  by rewrite length_sort_index.
Qed.

(** Evaluation of a decidable closed statement. *)
Ltac by_evaluation :=
  match goal with
  | |- ?P => apply (bool_decide_unpack P); vm_compute; exact I
  end.

Lemma weighted_gini_formula_witness :
  let sort_index := reverse (Reference.argsort Examples.predicted4) in
  let w := reorder Examples.weight4 sort_index in
  let a := reorder Examples.actual4 sort_index in
  weighted_gini (E := Reference.externals)
      Examples.weight4 Examples.actual4 Examples.predicted4
    = Ok (GiniSpec.gini w a)
  ∧ GiniSpec.gini w a = Examples.fq 1 4.
Proof.
  split.
  - apply (weighted_gini_formula (E := Reference.externals)
             (L := ReferenceFacts.laws)
             Examples.weight4 Examples.actual4 Examples.predicted4);
      simpl; lia.
  - by_evaluation.
Defined.

(** Whatever the numbers, [weighted_gini] reads predicted only through its
    sort order. *)
Lemma weighted_gini_order_only `{E : Externals} {L : ExternalsLaws E}
    (weight actual predicted predicted' : ndarray) :
  length predicted' = length predicted →
  (∀ i j, i < length predicted → j < length predicted →
     sort_compare (predicted' !!! i) (predicted' !!! j)
     = sort_compare (predicted !!! i) (predicted !!! j)) →
  weighted_gini weight actual predicted'
  = weighted_gini weight actual predicted.
Proof.
  intros Hlen Hcmp. unfold weighted_gini.
  rewrite (argsort_by_comparisons predicted' predicted); [done|done|].
  intros i j Hi Hj. rewrite Hlen in Hi, Hj. by apply Hcmp.
Qed.

(** C9 (as the code has it).  [weighted_gini(weight, actual, c * predicted)]
    equals [weighted_gini(weight, actual, predicted)] whenever the float64
    products [c * predicted[i]] compare with one another exactly as the
    [predicted[i]] do, that is, whenever the multiplication neither merges
    two different predictions (by rounding, underflow or overflow) nor
    reverses their order: the statistic depends on predicted through its
    sort order alone. *)
Theorem weighted_gini_scale_invariant `{E : Externals} {L : ExternalsLaws E}
    (weight actual predicted : ndarray) (c : fval) :
  (∀ i j, i < length predicted → j < length predicted →
     sort_compare (float64_mul c (predicted !!! i))
                  (float64_mul c (predicted !!! j))
     = sort_compare (predicted !!! i) (predicted !!! j)) →
  weighted_gini weight actual (map (float64_mul c) predicted)
  = weighted_gini weight actual predicted.
Proof.
  intros Hcmp. apply weighted_gini_order_only; [apply length_map|].
  intros i j Hi Hj.
  rewrite !(list_lookup_total_fmap (float64_mul c) predicted) by done.
  by apply Hcmp.
Qed.

Lemma weighted_gini_scale_invariant_witness :
  weighted_gini (E := Reference.externals) Examples.weight4 Examples.actual4
    (map (float64_mul (float64_round (Q2Qc (3 # 10)))) Examples.predicted4)
  = weighted_gini (E := Reference.externals)
      Examples.weight4 Examples.actual4 Examples.predicted4.
Proof.
  apply (weighted_gini_scale_invariant (E := Reference.externals)
           (L := ReferenceFacts.laws)).
  intros i j Hi Hj. simpl in Hi, Hj.
  destruct i as [|[|[|[|i]]]]; try lia;
    destruct j as [|[|[|[|j]]]]; try lia; by vm_compute.
Defined.

(** C9 as stated fails: the float64 product with the positive scalar 100
    maps the two different predictions 0.7000000000000001 and 0.7 to the
    same number 70.0; the sort then orders the two observations the other
    way round and the statistic changes from 2/9 to 1/9. *)
Lemma scaling_can_merge_predictions :
  sort_compare Examples2.next_07 Examples2.near_07 = Gt
  ∧ float64_mul (Examples.fz 100) Examples2.next_07 = Examples.fz 70
  ∧ float64_mul (Examples.fz 100) Examples2.near_07 = Examples.fz 70
  ∧ weighted_gini (E := Reference.externals) Examples2.weight_ones3
      Examples2.y3 Examples2.predicted_near = Ok (Examples.fq 2 9)
  ∧ weighted_gini (E := Reference.externals) Examples2.weight_ones3
      Examples2.y3
      (map (float64_mul (Examples.fz 100)) Examples2.predicted_near)
    = Ok (Examples.fq 1 9).
Proof. repeat split; by_evaluation. Qed.

(** ** Mismatched lengths *)

Lemma broadcast_shape_error f (x y : ndarray) :
  length x ≠ length y → length x ≠ 1 → length y ≠ 1 →
  broadcast f x y = Raise ValueError.
Proof.
  intros Hxy Hx Hy. unfold broadcast. rewrite decide_False by done.
  destruct x as [|a [|a' x]], y as [|b [|b' y]]; simpl in *; done.
Qed.

Lemma broadcast_stretch_l f (a : fval) (y : ndarray) :
  broadcast f [a] y = Ok (map (f a) y).
Proof.
  unfold broadcast. case_decide as H; [|done].
  destruct y as [|b [|b' y]]; simpl in *; done.
Qed.

Lemma take_indices_take (x : ndarray) (n : nat) (idx : list nat) :
  Forall (λ i, i < n) idx →
  take_indices (take n x) idx = take_indices x idx.
Proof.
  induction 1 as [|i idx Hi _ IH]; simpl; [done|].
  by rewrite lookup_take_lt, IH.
Qed.

Section Mismatch.
Context `{E : Externals} {L : ExternalsLaws E}.

Lemma sort_index_contains (predicted : ndarray) (i : nat) :
  i < length predicted → i ∈ reverse (np_argsort predicted).
Proof.
  intros Hi. rewrite reverse_Permutation, argsort_perm.
  apply elem_of_seq. lia.
Qed.

Lemma weighted_gini_index_error (weight actual predicted : ndarray) :
  length weight < length predicted ∨ length actual < length predicted →
  weighted_gini weight actual predicted = Raise IndexError.
Proof.
  intros Hlen. unfold weighted_gini.
  destruct (decide (length weight < length predicted)) as [Hw|Hw].
  - rewrite (take_indices_out_of_range weight); [done|].
    apply Exists_exists. exists (length weight). split; [|done].
    by apply list_elem_of_In, sort_index_contains.
  - rewrite (take_indices_ok weight).
    2:{ eapply Forall_impl; [|apply sort_index_bound]. simpl. intros. lia. }
    simpl. rewrite (take_indices_out_of_range actual); [done|].
    apply Exists_exists. exists (length actual). split; [|done].
    apply list_elem_of_In, sort_index_contains. lia.
Qed.

Lemma weighted_gini_truncates (weight actual predicted : ndarray) :
  weighted_gini weight actual predicted
  = weighted_gini (take (length predicted) weight)
                  (take (length predicted) actual) predicted.
Proof.
  unfold weighted_gini.
  by rewrite !take_indices_take by apply sort_index_bound.
Qed.

Lemma weighted_rmse_shape_error (weight actual predicted : ndarray) :
  (length actual ≠ length predicted
   ∧ length actual ≠ 1 ∧ length predicted ≠ 1)
  ∨ (length actual = length predicted
     ∧ length weight ≠ length actual
     ∧ length weight ≠ 1 ∧ length actual ≠ 1) →
  weighted_rmse weight actual predicted = Raise ValueError.
Proof.
  intros [(H1 & H2 & H3)|(H1 & H2 & H3 & H4)]; unfold weighted_rmse.
  - by rewrite broadcast_shape_error.
  - rewrite broadcast_same_length by done. simpl.
    rewrite broadcast_shape_error; [done|..];
      rewrite ?length_map, ?length_zip_with; lia.
Qed.

Lemma weighted_rmse_stretches_weight (w0 : fval) (actual predicted : ndarray) :
  length actual = length predicted →
  weighted_rmse [w0] actual predicted
  = Ok (np_sqrt
          (fdiv (fsum (map (λ d, fmul w0 (np_power d ftwo))
                           (zip_with fsub actual predicted)))
                (fsum [w0]))).
Proof.
  intros Hlen. unfold weighted_rmse.
  rewrite broadcast_same_length by done. simpl.
  rewrite broadcast_stretch_l. simpl. by rewrite map_map.
Qed.

End Mismatch.

(** ** Running the functions that clamp a copy *)

Lemma heap_clamp_copy (h : heap) (x y : ndarray) :
  <[length h := y]> (h ++ [x]) = h ++ [y].
Proof.
  rewrite insert_app_r_alt by lia. by rewrite Nat.sub_diag.
Qed.

Lemma lookup_heap_old (h : heap) (x y : ndarray) (l : loc) :
  h !! l = Some x → (h ++ [y]) !! l = Some x.
Proof. intros H. by apply lookup_app_l_Some. Qed.

Lemma lookup_heap_new (h : heap) (y : ndarray) :
  (h ++ [y]) !! length h = Some y.
Proof. by rewrite lookup_app_r, Nat.sub_diag by lia. Qed.

Ltac unfold_heap_monad :=
  unfold mbind, mret, StateExn_bind, StateExn_ret, ndarray_copy,
    ndarray_setitem_le, ndarray_read, lift.

Section ClampingFunctions.
Context `{E : Externals}.
Variables (h : heap) (weight actual predicted : loc) (wv av pv : ndarray).
Hypothesis Hw : h !! weight = Some wv.
Hypothesis Ha : h !! actual = Some av.
Hypothesis Hp : h !! predicted = Some pv.

Lemma hl_tweedie_df_run (bins : nat) (phi p : fval) :
  hl_tweedie_df weight actual predicted bins phi p h
  = (qs ← DescrStatsW_quantile pv wv (quantile_probs bins);
     pd_DataFrame wv av (clamp pv) (np_searchsorted qs pv),
     h ++ [clamp pv]).
Proof using All.
  unfold hl_tweedie_df. unfold_heap_monad.
  rewrite Hp, lookup_heap_new, heap_clamp_copy.
  rewrite (lookup_heap_old _ _ _ _ Hp), (lookup_heap_old _ _ _ _ Hw).
  destruct (DescrStatsW_quantile _ _ _) as [qs|e]; simpl; [|done].
  by rewrite (lookup_heap_old _ _ _ _ Ha), lookup_heap_new.
Qed.

Lemma hl_tweedie_run (bins : nat) (phi p : fval) :
  hl_tweedie weight actual predicted bins phi p h
  = (qs ← DescrStatsW_quantile pv wv (quantile_probs bins);
     df ← pd_DataFrame wv av (clamp pv) (np_searchsorted qs pv);
     Ok (series_sum (map (chi_sq_tweedie phi p) (groupby_quantile df))),
     h ++ [clamp pv]).
Proof using All.
  unfold hl_tweedie. unfold mbind at 1. unfold StateExn_bind.
  rewrite hl_tweedie_df_run.
  destruct (DescrStatsW_quantile _ _ _) as [qs|e]; simpl; [|done].
  by destruct (pd_DataFrame _ _ _ _).
Qed.

Lemma deviance_tweedie_run (p : fval) :
  deviance_tweedie actual predicted weight p h
  = (Tweedie_deviance p av (clamp pv) wv, h ++ [clamp pv]).
Proof using All.
  unfold deviance_tweedie. unfold_heap_monad.
  rewrite Hp, lookup_heap_new, heap_clamp_copy.
  by rewrite (lookup_heap_old _ _ _ _ Ha), lookup_heap_new,
    (lookup_heap_old _ _ _ _ Hw).
Qed.


End ClampingFunctions.

(** C10 (as the code has it).  No core function checks the lengths of its
    vectors before computing.  [weighted_gini] raises IndexError when
    predicted is longer than weight or actual, and otherwise uses only the
    first [len(predicted)] entries of weight and actual.  [weighted_rmse]
    raises ValueError when numpy cannot broadcast the shapes, and stretches
    a length-one weight over the observations.  [hl_tweedie] raises on
    every mismatch among its three vectors, from the construction of the
    data frame at the latest.  [deviance_tweedie] hands the three vectors to
    the library's deviance routine unchecked. *)
Theorem length_mismatch_behaviour `{E : Externals} {L : ExternalsLaws E} :
  (∀ weight actual predicted : ndarray,
     length weight < length predicted ∨ length actual < length predicted →
     weighted_gini weight actual predicted = Raise IndexError)
  ∧ (∀ weight actual predicted : ndarray,
       weighted_gini weight actual predicted
       = weighted_gini (take (length predicted) weight)
                       (take (length predicted) actual) predicted)
  ∧ (∀ weight actual predicted : ndarray,
       (length actual ≠ length predicted
        ∧ length actual ≠ 1 ∧ length predicted ≠ 1)
       ∨ (length actual = length predicted
          ∧ length weight ≠ length actual
          ∧ length weight ≠ 1 ∧ length actual ≠ 1) →
       weighted_rmse weight actual predicted = Raise ValueError)
  ∧ (∀ (w0 : fval) (actual predicted : ndarray),
       length actual = length predicted →
       raises (weighted_rmse [w0] actual predicted) = false)
  ∧ (∀ (h : heap) (weight actual predicted : loc) (wv av pv : ndarray)
       (bins : nat) (phi p : fval),
       h !! weight = Some wv → h !! actual = Some av →
       h !! predicted = Some pv →
       ¬ (length wv = length av ∧ length av = length pv) →
       raises (hl_tweedie weight actual predicted bins phi p h).1 = true)
  ∧ (∀ (h : heap) (weight actual predicted : loc) (wv av pv : ndarray)
       (p : fval),
       h !! weight = Some wv → h !! actual = Some av →
       h !! predicted = Some pv →
       (deviance_tweedie actual predicted weight p h).1
       = Tweedie_deviance p av (clamp pv) wv).
Proof.
  split; [apply weighted_gini_index_error|].
  split; [apply weighted_gini_truncates|].
  split; [apply weighted_rmse_shape_error|].
  split.
  { intros w0 actual predicted Hlen.
    by rewrite weighted_rmse_stretches_weight. }
  split.
  - intros h weight actual predicted wv av pv bins phi p Hw Ha Hp Hlen.
    rewrite (hl_tweedie_run h weight actual predicted wv av pv Hw Ha Hp).
    simpl. destruct (DescrStatsW_quantile _ _ _) as [qs|e]; simpl; [|done].
    unfold pd_DataFrame. rewrite decide_False; [done|].
    unfold clamp, np_searchsorted. rewrite !length_map. tauto.
  - intros h weight actual predicted wv av pv p Hw Ha Hp.
    by rewrite (deviance_tweedie_run h weight actual predicted wv av pv
                  Hw Ha Hp).
Qed.

Lemma length_mismatch_behaviour_witness :
  weighted_gini (E := Reference.externals)
      Examples.actual2 Examples.actual2 Examples.actual3
    = Raise IndexError
  ∧ weighted_gini (E := Reference.externals)
        Examples.weight3 Examples.actual3 Examples.predicted_short
      = weighted_gini (E := Reference.externals)
          (take 2 Examples.weight3) (take 2 Examples.actual3)
          Examples.predicted_short
  ∧ weighted_rmse (E := Reference.externals)
        Examples.actual2 Examples.actual3 Examples.actual3
      = Raise ValueError.
Proof.
  destruct (length_mismatch_behaviour (E := Reference.externals)
              (L := ReferenceFacts.laws)) as (H1 & H2 & H3 & _).
  split; [apply H1; simpl; lia|].
  split; [apply (H2 Examples.weight3 Examples.actual3
                    Examples.predicted_short)|].
  apply H3. right. simpl. lia.
Defined.

(** C10 as stated fails: a weight vector of length 1 against two
    observations is broadcast, and weight and actual of length 3 against a
    predicted of length 2 are cut to their first two entries; both calls
    return a number and neither reports the mismatch. *)
Lemma length_mismatch_not_reported :
  length Examples.weight1 ≠ length Examples.actual2
  ∧ weighted_rmse (E := Reference.externals)
        Examples.weight1 Examples.actual2 Examples.predicted2
      = Ok (Examples.fz 1)
  ∧ length Examples.weight3 ≠ length Examples.predicted_short
  ∧ weighted_gini (E := Reference.externals)
        Examples.weight3 Examples.actual3 Examples.predicted_short
      = Ok (Examples.fq 2 15).
Proof.
  split; [simpl; lia|]. split; [by_evaluation|].
  split; [simpl; lia|]. by_evaluation.
Qed.

(** ** hl_tweedie_df: binning *)

Lemma length_quantile_probs (bins : nat) :
  length (quantile_probs bins) = bins - 1.
Proof. unfold quantile_probs. by rewrite length_map, length_seq. Qed.

Lemma searchsorted1_bound (a : ndarray) (v : fval) :
  searchsorted1 a v ≤ length a.
Proof.
  induction a as [|c a IH]; simpl; [lia|].
  destruct (sort_ltb c v); lia.
Qed.

Lemma sort_leb_ltb_trans (x y z : fval) :
  sort_leb x y = true → sort_ltb y z = true → sort_ltb x z = true.
Proof.
  unfold sort_leb, sort_ltb.
  destruct x as [a| | |], y as [b| | |], z as [c| | |]; simpl; try done.
  destruct (a ?= b)%Qc eqn:Hab; try done;
    destruct (b ?= c)%Qc eqn:Hbc; try done; intros _ _;
    rewrite <- ?Qceq_alt, <- ?Qclt_alt in *; subst.
  - by apply Qclt_alt in Hbc as ->.
  - assert (Hac : (a < c)%Qc) by (eapply Qclt_trans; eassumption).
    by apply Qclt_alt in Hac as ->.
Qed.

Lemma filter_none {A} (P : A → Prop) `{∀ x, Decision (P x)} (l : list A) :
  Forall (λ x, ¬ P x) l → filter P l = [].
Proof.
  induction 1 as [|x l Hx _ IH]; [done|].
  by rewrite filter_cons, decide_False, IH.
Qed.

(** On sorted cut points the insertion index is the number of cut points
    strictly below the value. *)
Lemma searchsorted1_counts (qs : ndarray) (v : fval) :
  StronglySorted (λ x y, sort_leb x y = true) qs →
  searchsorted1 qs v = cut_points_below qs v.
Proof.
  unfold cut_points_below.
  induction 1 as [|c qs Hqs IH Hc]; simpl; [done|].
  rewrite filter_cons. destruct (sort_ltb c v) eqn:Hcv.
  - rewrite decide_True by done. simpl. by rewrite IH.
  - rewrite decide_False by done.
    rewrite filter_none; [done|].
    eapply Forall_impl; [|exact Hc]. simpl. intros y Hcy Hyv.
    by rewrite (sort_leb_ltb_trans c y v Hcy Hyv) in Hcv.
Qed.

Lemma zip_rows_columns (w a p : ndarray) (q : list nat) :
  length w = length a → length a = length p → length p = length q →
  map col_weight (zip_rows w a p q) = w
  ∧ map col_actual (zip_rows w a p q) = a
  ∧ map col_predicted (zip_rows w a p q) = p
  ∧ map col_quantile (zip_rows w a p q) = q.
Proof.
  revert a p q. induction w as [|w0 w IH];
    intros [|a0 a] [|p0 p] [|q0 q] H1 H2 H3; simpl in *; try done.
  destruct (IH a p q) as (-> & -> & -> & ->); [lia..|done].
Qed.

Lemma pd_DataFrame_ok (w a p : ndarray) (q : list nat) :
  length w = length a → length a = length p → length p = length q →
  pd_DataFrame w a p q = Ok (zip_rows w a p q).
Proof. intros. unfold pd_DataFrame. by rewrite decide_True. Qed.

Lemma length_clamp (x : ndarray) : length (clamp x) = length x.
Proof. apply length_map. Qed.

Lemma length_np_searchsorted (a v : ndarray) :
  length (np_searchsorted a v) = length v.
Proof. apply length_map. Qed.

(** C2 (as the code has it).  In the binning stage of [hl_tweedie_df] the
    bins-1 weighted quantile cut points are computed over the unclamped
    predicted vector, and each observation's bin id is assigned by
    [searchsorted] applied to the unclamped predicted vector as well; the
    clamped vector (values <= 0 replaced by 1e-7) only fills the frame's
    predicted column.  Every bin id is at most bins-1, and on sorted cut
    points it is the number of cut points strictly below the value. *)
Theorem hl_tweedie_df_binning `{E : Externals} {L : ExternalsLaws E}
    (h : heap) (weight actual predicted : loc) (wv av pv qs : ndarray)
    (bins : nat) (phi p : fval) :
  h !! weight = Some wv → h !! actual = Some av → h !! predicted = Some pv →
  length wv = length pv → length av = length pv →
  DescrStatsW_quantile pv wv (quantile_probs bins) = Ok qs →
  ∃ df,
    hl_tweedie_df weight actual predicted bins phi p h
      = (Ok df, h ++ [clamp pv])
    ∧ length qs = bins - 1
    ∧ map col_quantile df = np_searchsorted qs pv
    ∧ map col_predicted df = clamp pv
    ∧ map col_weight df = wv
    ∧ map col_actual df = av
    ∧ Forall (λ k, k ≤ bins - 1) (map col_quantile df)
    ∧ (StronglySorted (λ x y, sort_leb x y = true) qs →
       map col_quantile df = map (cut_points_below qs) pv).
Proof.
  intros Hw Ha Hp Hlw Hla Hq.
  assert (Hqs : length qs = bins - 1).
  { rewrite (quantile_length _ _ _ _ Hq). apply length_quantile_probs. }
  exists (zip_rows wv av (clamp pv) (np_searchsorted qs pv)).
  destruct (zip_rows_columns wv av (clamp pv) (np_searchsorted qs pv))
    as (Cw & Ca & Cp & Cq);
    rewrite ?length_clamp, ?length_np_searchsorted; try lia.
  split.
  { rewrite (hl_tweedie_df_run h weight actual predicted wv av pv Hw Ha Hp).
    rewrite Hq. simpl. rewrite pd_DataFrame_ok; [done|..];
      rewrite ?length_clamp, ?length_np_searchsorted; lia. }
  split; [done|]. split; [done|]. split; [done|].
  split; [done|]. split; [done|]. split.
  - rewrite Cq. unfold np_searchsorted. apply Forall_forall.
    intros k Hk. apply in_map_iff in Hk as (v & <- & _).
    rewrite <- Hqs. apply searchsorted1_bound.
  - intros Hsorted. rewrite Cq. unfold np_searchsorted.
    apply map_ext. intros v. by apply searchsorted1_counts.
Qed.

Lemma hl_tweedie_df_binning_witness :
  ∃ df,
    hl_tweedie_df (E := Reference.externals) 0 1 2 2 fone ftwo Examples.heap2
      = (Ok df, Examples.heap2 ++ [clamp Examples.predicted_zeros2])
    ∧ map col_quantile df = [0; 0]
    ∧ map col_predicted df = [epsilon; epsilon].
Proof.
  destruct (hl_tweedie_df_binning (E := Reference.externals)
              (L := ReferenceFacts.laws) Examples.heap2 0 1 2
              Examples.weight_ones2 Examples.actual_ones2
              Examples.predicted_zeros2 [Examples.fz 0] 2 fone ftwo)
    as (df & Hrun & _ & Hq & Hp & _); try reflexivity.
  exists df. split; [exact Hrun|]. split; [rewrite Hq|rewrite Hp];
    by_evaluation.
Defined.

(** C2 as stated fails: with two predictions equal to 0 and two bins the
    cut point is 0; the frame holds bin 0 for both observations, which is
    [searchsorted] on the unclamped vector, while [searchsorted] on the
    clamped vector would give bin 1 for both. *)
Lemma binning_not_on_clamped_predicted :
  Reference.quantile Examples.predicted_zeros2 Examples.weight_ones2
      (quantile_probs 2) = Ok [Examples.fz 0]
  ∧ (hl_tweedie_df (E := Reference.externals) 0 1 2 2 fone ftwo
       Examples.heap2).1
    = Ok [Row (Examples.fz 1) (Examples.fz 1) epsilon 0;
          Row (Examples.fz 1) (Examples.fz 1) epsilon 0]
  ∧ np_searchsorted [Examples.fz 0] (clamp Examples.predicted_zeros2)
    = [1; 1]
  ∧ np_searchsorted [Examples.fz 0] Examples.predicted_zeros2 = [0; 0].
Proof.
  repeat split; by_evaluation.
Qed.

(** ** hl_tweedie: aggregation *)

Lemma Qcplus_nonneg_zero (x y : Qc) :
  (0 ≤ x)%Qc → (0 ≤ y)%Qc → (x + y = 0)%Qc → x = 0%Qc ∧ y = 0%Qc.
Proof.
  intros Hx Hy Hxy.
  destruct (Qcle_lt_or_eq _ _ Hx) as [Hx'|<-].
  - exfalso. pose proof (Qcplus_pos_nonneg _ _ Hx' Hy) as H.
    rewrite Hxy in H. by apply (Qclt_not_eq 0%Qc 0%Qc).
  - rewrite Qcplus_0_l in Hxy. done.
Qed.

Lemma Qcmult_nonneg (x y : Qc) : (0 ≤ x)%Qc → (0 ≤ y)%Qc → (0 ≤ x * y)%Qc.
Proof.
  intros Hx Hy. rewrite <- (Qcmult_0_l y). by apply Qcmult_le_compat_r.
Qed.

Lemma Qcmult_pos (x y : Qc) : (0 < x)%Qc → (0 < y)%Qc → (0 < x * y)%Qc.
Proof.
  intros Hx Hy. rewrite <- (Qcmult_0_l y). by apply Qcmult_lt_compat_r.
Qed.

Lemma Qcinv_pos (x : Qc) : (0 < x)%Qc → (0 < / x)%Qc.
Proof.
  intros Hx. destruct (Qclt_le_dec 0 (/ x)) as [|Hle]; [done|]. exfalso.
  assert (Hne : x ≠ 0%Qc) by (intros ->; by apply (Qclt_not_eq 0%Qc 0%Qc)).
  assert (H1 : (x * / x ≤ 0)%Qc).
  { rewrite <- (Qcmult_0_l x), (Qcmult_comm x).
    apply Qcmult_le_compat_r; [done|by apply Qclt_le_weak]. }
  rewrite Qcmult_inv_r in H1 by done.
  by apply (Qclt_not_le 0%Qc 1%Qc).
Qed.

Lemma Qcdiv_pos (x y : Qc) : (0 < x)%Qc → (0 < y)%Qc → (0 < x / y)%Qc.
Proof. intros Hx Hy. apply Qcmult_pos; [done|by apply Qcinv_pos]. Qed.

Lemma Qclt_ne_zero (x : Qc) : (0 < x)%Qc → x ≠ 0%Qc.
Proof. intros Hx ->. by apply (Qclt_not_eq 0%Qc 0%Qc). Qed.

(** The three sums of a bin of valid rows are finite; the weighted sum of
    predicted is positive exactly when the bin has weight. *)
Lemma valid_rows_fold (g : DataFrame) :
  Forall valid_row g →
  ∀ accW accA accP : Qc,
    (0 ≤ accW)%Qc → (0 ≤ accP)%Qc →
    (accW = 0%Qc → accA = 0%Qc ∧ accP = 0%Qc) →
    ((0 < accW)%Qc → (0 < accP)%Qc) →
    ∃ W A P : Qc,
      fold_left fadd (map col_weight g) (Fin accW) = Fin W
      ∧ fold_left fadd (zip_with fmul (map col_actual g) (map col_weight g))
          (Fin accA) = Fin A
      ∧ fold_left fadd
          (zip_with fmul (map col_predicted g) (map col_weight g))
          (Fin accP) = Fin P
      ∧ (0 ≤ W)%Qc ∧ (0 ≤ P)%Qc
      ∧ (W = 0%Qc → A = 0%Qc ∧ P = 0%Qc)
      ∧ ((0 < W)%Qc → (0 < P)%Qc).
Proof.
  induction 1 as [|r g Hr _ IH]; intros accW accA accP HW HP Hz Hpos.
  - exists accW, accA, accP. simpl. done.
  - destruct Hr as (w & a & p & Hw & Ha & Hp & Hw0 & Hp0).
    simpl. rewrite Hw, Ha, Hp. simpl.
    assert (Hpw : (0 ≤ p * w)%Qc).
    { apply Qcmult_nonneg; [by apply Qclt_le_weak|done]. }
    apply IH.
    + by apply Qcplus_nonneg_nonneg.
    + by apply Qcplus_nonneg_nonneg.
    + intros Hsum.
      destruct (Qcplus_nonneg_zero _ _ HW Hw0 Hsum) as [-> ->].
      destruct Hz as [-> ->]; [done|].
      rewrite !Qcmult_0_r, !Qcplus_0_l. done.
    + intros Hsum.
      destruct (Qcle_lt_or_eq _ _ HW) as [HW'|<-].
      * apply Qcplus_pos_nonneg; auto.
      * rewrite Qcplus_0_l in Hsum.
        apply Qcplus_nonneg_pos; [done|]. by apply Qcmult_pos.
Qed.

Lemma valid_rows_sums (g : DataFrame) :
  Forall valid_row g →
  ∃ W A P : Qc,
    bin_weight g = Fin W
    ∧ fsum (zip_with fmul (map col_actual g) (map col_weight g)) = Fin A
    ∧ fsum (zip_with fmul (map col_predicted g) (map col_weight g)) = Fin P
    ∧ (0 ≤ W)%Qc
    ∧ (W = 0%Qc → A = 0%Qc)
    ∧ ((0 < W)%Qc → (0 < P)%Qc).
Proof.
  intros Hg.
  assert (H0 : (0 < 0)%Qc → (0 < 0)%Qc) by done.
  destruct (valid_rows_fold g Hg 0%Qc 0%Qc 0%Qc (Qcle_refl 0) (Qcle_refl 0)
              (λ _, conj eq_refl eq_refl) H0)
    as (W & A & P & HW & HA & HP & HW0 & _ & Hz & Hpos).
  exists W, A, P. repeat split; try done. intros H. by apply Hz.
Qed.

Section Aggregation.
Context `{E : Externals} {L : ExternalsLaws E}.
Variables (phi : Qc) (p : fval).
Hypothesis phi_pos : (0 < phi)%Qc.
Hypothesis power_pos :
  ∀ x : Qc, (0 < x)%Qc → ∃ y : Qc, np_power (Fin x) p = Fin y ∧ (0 < y)%Qc.

(** A bin of valid rows without weight yields NaN. *)
Lemma chi_sq_tweedie_zero_weight (g : DataFrame) :
  Forall valid_row g → bin_weight g = fzero →
  chi_sq_tweedie (Fin phi) p g = NaN.
Proof using L.
  intros Hg HW0.
  destruct (valid_rows_sums g Hg) as (W & A & P & HW & HA & HP & _ & Hz & _).
  unfold chi_sq_tweedie, weighted_average.
  unfold bin_weight in HW, HW0. rewrite HW in HW0. injection HW0 as ->.
  rewrite HW, HA, (Hz eq_refl).
  replace (fdiv (Fin 0%Qc) (Fin 0%Qc)) with NaN by reflexivity.
  simpl. by rewrite power_two.
Qed.

(** A bin of valid rows with weight yields a finite term. *)
Lemma chi_sq_tweedie_positive_weight (g : DataFrame) :
  Forall valid_row g → positive_weight g →
  ∃ t : Qc, chi_sq_tweedie (Fin phi) p g = Fin t.
Proof using All.
  intros Hg Hpos.
  destruct (valid_rows_sums g Hg)
    as (W & A & P & HW & HA & HP & _ & _ & HPpos).
  unfold positive_weight in Hpos. rewrite HW in Hpos. simpl in Hpos.
  apply bool_decide_eq_true_1 in Hpos.
  unfold chi_sq_tweedie, weighted_average.
  unfold bin_weight in HW. rewrite HW, HA, HP. simpl.
  pose proof (Qclt_ne_zero W Hpos) as HWne.
  rewrite !decide_False by done.
  destruct (power_pos (P / W)%Qc) as (y & Hy & Hypos).
  { apply Qcdiv_pos; auto. }
  rewrite Hy, power_two. simpl.
  rewrite decide_False by done.
  rewrite decide_False; [by eexists|].
  apply Qclt_ne_zero, Qcdiv_pos; [|done]. by apply Qcmult_pos.
Qed.

Lemma positive_weight_or_zero (g : DataFrame) :
  Forall valid_row g → positive_weight g ∨ bin_weight g = fzero.
Proof using Type.
  intros Hg.
  destruct (valid_rows_sums g Hg) as (W & _ & _ & HW & _ & _ & HW0 & _).
  unfold positive_weight. rewrite HW. simpl.
  destruct (Qcle_lt_or_eq _ _ HW0) as [Hlt|<-].
  - left. by apply bool_decide_eq_true_2.
  - by right.
Qed.

(** Skipping the NaN terms is skipping the bins without weight. *)
Lemma series_sum_positive_weight (gs : list DataFrame) :
  Forall (Forall valid_row) gs →
  series_sum (map (chi_sq_tweedie (Fin phi) p) gs)
  = fsum (map (chi_sq_tweedie (Fin phi) p) (filter positive_weight gs)).
Proof using All.
  intros Hgs. unfold series_sum. f_equal.
  induction Hgs as [|g gs Hg _ IH]; [done|].
  simpl. rewrite !filter_cons.
  destruct (decide (positive_weight g)) as [Hpos|Hzero].
  - destruct (chi_sq_tweedie_positive_weight g Hg Hpos) as (t & Ht).
    rewrite Ht. rewrite decide_True by done. simpl.
    by rewrite IH, Ht.
  - destruct (positive_weight_or_zero g Hg) as [|HW]; [done|].
    rewrite (chi_sq_tweedie_zero_weight g Hg HW).
    by rewrite decide_False.
Qed.

End Aggregation.

Lemma clamp_positive (x : Qc) :
  ∃ y : Qc,
    (if fleb (Fin x) fzero then epsilon else Fin x) = Fin y ∧ (0 < y)%Qc.
Proof.
  simpl. case_bool_decide as Hx.
  - eexists. split; [reflexivity|]. done.
  - exists x. split; [done|]. by apply Qclt_nge.
Qed.

Lemma valid_frame (w a pr : list Qc) (q : list nat) :
  Forall (λ x, (0 ≤ x)%Qc) w →
  Forall valid_row
    (zip_rows (Fin <$> w) (Fin <$> a) (clamp (Fin <$> pr)) q).
Proof.
  intros Hw. revert a pr q.
  induction Hw as [|w0 w Hw0 _ IH]; intros [|a0 a] [|p0 pr] [|q0 q];
    simpl; try by constructor.
  constructor; [|apply IH].
  destruct (clamp_positive p0) as (y & Hy & Hypos).
  exists w0, a0, y. simpl. by rewrite <- Hy.
Qed.

Lemma groups_valid (df : DataFrame) :
  Forall valid_row df → Forall (Forall valid_row) (groupby_quantile df).
Proof.
  intros Hdf. unfold groupby_quantile. apply Forall_forall.
  intros g Hg. apply in_map_iff in Hg as (k & <- & _).
  apply Forall_forall. intros r Hr.
  apply list_elem_of_In, list_elem_of_filter in Hr as [_ Hr].
  rewrite Forall_forall in Hdf. by apply Hdf, list_elem_of_In.
Qed.

Lemma max_list_zeros (l : list nat) :
  Forall (λ k, k = 0) l → max_list l = 0.
Proof. induction 1 as [|k l -> _ IH]; simpl; [done|]. by rewrite IH. Qed.

Lemma filter_all {A} (P : A → Prop) `{∀ x, Decision (P x)} (l : list A) :
  Forall P l → filter P l = l.
Proof.
  induction 1 as [|x l Hx _ IH]; [done|].
  by rewrite filter_cons, decide_True, IH.
Qed.

(** A frame whose rows all sit in bin 0 is a single group. *)
Lemma groupby_quantile_single (df : DataFrame) :
  Forall (λ r, col_quantile r = 0) df → df ≠ [] →
  groupby_quantile df = [df].
Proof.
  intros Hq Hne. unfold groupby_quantile, group_keys.
  assert (Hz : Forall (λ k, k = 0) (map col_quantile df)).
  { apply Forall_forall. intros k Hk. apply in_map_iff in Hk as (r & <- & Hr).
    rewrite Forall_forall in Hq. by apply Hq. }
  rewrite (max_list_zeros _ Hz). simpl.
  rewrite filter_cons, decide_True.
  - simpl. by rewrite filter_all.
  - destruct df as [|r df]; [done|]. simpl.
    apply Forall_inv in Hq as ->. by left.
Qed.

Lemma searchsorted_no_cut_points (v : ndarray) :
  Forall (λ k, k = 0) (np_searchsorted [] v).
Proof.
  unfold np_searchsorted. induction v as [|x v IH]; simpl; by constructor.
Qed.

(** C7.  In the aggregation stage of [hl_tweedie] a bin whose total weight
    is zero contributes nothing and raises nothing: for finite vectors of
    one length N >= 1 with non-negative weights and a positive phi, the call
    returns the sum of the per-bin terms
    [(wavg_actual - wavg_predicted)^2 / ((phi * wavg_predicted^p) / sum w)]
    over exactly the bins with positive total weight; every other bin has
    total weight zero and a NaN term, which the sum skips. *)
Theorem hl_tweedie_skips_weightless_bins `{E : Externals} {L : ExternalsLaws E}
    (h : heap) (weight actual predicted : loc) (w a pr : list Qc)
    (qs : ndarray) (bins : nat) (phi : Qc) (p : fval) :
  h !! weight = Some (Fin <$> w) →
  h !! actual = Some (Fin <$> a) →
  h !! predicted = Some (Fin <$> pr) →
  length w = length pr → length a = length pr → 1 ≤ length pr →
  Forall (λ x, (0 ≤ x)%Qc) w →
  (0 < phi)%Qc →
  (∀ x : Qc, (0 < x)%Qc →
     ∃ y : Qc, np_power (Fin x) p = Fin y ∧ (0 < y)%Qc) →
  DescrStatsW_quantile (Fin <$> pr) (Fin <$> w) (quantile_probs bins)
    = Ok qs →
  ∃ df,
    (hl_tweedie_df weight actual predicted bins (Fin phi) p h).1 = Ok df
    ∧ (hl_tweedie weight actual predicted bins (Fin phi) p h).1
      = Ok (fsum (map (bin_term (Fin phi) p)
                      (filter positive_weight (groupby_quantile df))))
    ∧ Forall (λ g, positive_weight g ∧ is_finite (bin_term (Fin phi) p g) = true
                   ∨ bin_weight g = fzero ∧ bin_term (Fin phi) p g = NaN)
             (groupby_quantile df).
Proof.
  intros Hw Ha Hp Hlw Hla _ Hw0 Hphi Hpow Hq.
  set (df := zip_rows (Fin <$> w) (Fin <$> a) (clamp (Fin <$> pr))
               (np_searchsorted qs (Fin <$> pr))).
  assert (Hdf : pd_DataFrame (Fin <$> w) (Fin <$> a) (clamp (Fin <$> pr))
                  (np_searchsorted qs (Fin <$> pr)) = Ok df).
  { apply pd_DataFrame_ok;
      rewrite ?length_clamp, ?length_np_searchsorted, ?length_fmap; lia. }
  assert (Hgs : Forall (Forall valid_row) (groupby_quantile df)).
  { apply groups_valid, valid_frame, Hw0. }
  exists df. split; [|split].
  - rewrite (hl_tweedie_df_run h weight actual predicted _ _ _ Hw Ha Hp).
    simpl. by rewrite Hq.
  - rewrite (hl_tweedie_run h weight actual predicted _ _ _ Hw Ha Hp).
    simpl. rewrite Hq. simpl. rewrite Hdf. simpl. f_equal.
    by apply series_sum_positive_weight.
  - eapply Forall_impl; [|exact Hgs]. simpl. intros g Hg.
    destruct (positive_weight_or_zero g Hg) as [Hpos|Hzero].
    + left. split; [done|].
      destruct (chi_sq_tweedie_positive_weight phi p Hphi Hpow g Hg Hpos)
        as (t & Ht).
      change (bin_term (Fin phi) p g) with (chi_sq_tweedie (Fin phi) p g).
      by rewrite Ht.
    + right. split; [done|].
      by apply chi_sq_tweedie_zero_weight.
Qed.

Lemma reference_power_two_positive (x : Qc) :
  (0 < x)%Qc →
  ∃ y : Qc, Reference.power (Fin x) ftwo = Fin y ∧ (0 < y)%Qc.
Proof.
  intros Hx. exists (x * x)%Qc. split.
  - by rewrite ReferenceFacts.power_two.
  - by apply Qcmult_pos.
Qed.

Lemma hl_tweedie_skips_weightless_bins_witness :
  ∃ df,
    (hl_tweedie_df (E := Reference.externals) 0 1 2 3 (Fin 1%Qc) ftwo
       Examples.heap_third).1 = Ok df
    ∧ (hl_tweedie (E := Reference.externals) 0 1 2 3 (Fin 1%Qc) ftwo
         Examples.heap_third).1
      = Ok (fsum (map (bin_term (E := Reference.externals) (Fin 1%Qc) ftwo)
                      (filter positive_weight (groupby_quantile df))))
    ∧ map (map col_quantile) (groupby_quantile df) = [[0; 0; 0]; [2]]
    ∧ map bin_weight (groupby_quantile df)
      = [Examples.fz 3; Examples.fz 0].
Proof.
  destruct (hl_tweedie_skips_weightless_bins (E := Reference.externals)
              (L := ReferenceFacts.laws) Examples.heap_third 0 1 2
              Examples.w_third Examples.a_third Examples.p_third
              [Examples.fz 3; Examples.fz 3] 3 1%Qc ftwo)
    as (df & Hdf & Hsum & _).
  - reflexivity.
  - reflexivity.
  - reflexivity.
  - reflexivity.
  - reflexivity.
  - simpl. lia.
  - repeat constructor; by_evaluation.
  - by_evaluation.
  - apply reference_power_two_positive.
  - by_evaluation.
  - exists df. split; [exact Hdf|]. split; [exact Hsum|].
    assert (Hdf' : Ok df = (hl_tweedie_df (E := Reference.externals)
                             0 1 2 3 (Fin 1%Qc) ftwo
                             Examples.heap_third).1) by done.
    vm_compute in Hdf'. injection Hdf' as ->.
    split; by_evaluation.
Defined.

(** C8.  With [bins = 1] and a valid input (finite vectors of one length
    N >= 1, non-negative weights of positive total, positive phi)
    [hl_tweedie] returns the single chi-square term of the per-bin formula
    evaluated over the whole data set as one bin, the predicted column
    being the clamped predictions. *)
Theorem hl_tweedie_one_bin `{E : Externals} {L : ExternalsLaws E}
    (h : heap) (weight actual predicted : loc) (w a pr : list Qc)
    (qs : ndarray) (phi : Qc) (p : fval) :
  h !! weight = Some (Fin <$> w) →
  h !! actual = Some (Fin <$> a) →
  h !! predicted = Some (Fin <$> pr) →
  length w = length pr → length a = length pr → 1 ≤ length pr →
  Forall (λ x, (0 ≤ x)%Qc) w →
  fltb fzero (fsum (Fin <$> w)) = true →
  (0 < phi)%Qc →
  (∀ x : Qc, (0 < x)%Qc →
     ∃ y : Qc, np_power (Fin x) p = Fin y ∧ (0 < y)%Qc) →
  DescrStatsW_quantile (Fin <$> pr) (Fin <$> w) (quantile_probs 1) = Ok qs →
  (hl_tweedie weight actual predicted 1 (Fin phi) p h).1
  = Ok (chi_square_term (Fin phi) p
          (Fin <$> w) (Fin <$> a) (clamp (Fin <$> pr)))
  ∧ is_finite (chi_square_term (Fin phi) p
                 (Fin <$> w) (Fin <$> a) (clamp (Fin <$> pr))) = true.
Proof.
  intros Hw Ha Hp Hlw Hla Hn Hw0 Htot Hphi Hpow Hq.
  assert (Hqs : qs = []).
  { apply nil_length_inv. by rewrite (quantile_length _ _ _ _ Hq). }
  subst qs.
  set (df := zip_rows (Fin <$> w) (Fin <$> a) (clamp (Fin <$> pr))
               (np_searchsorted [] (Fin <$> pr))).
  destruct (zip_rows_columns (Fin <$> w) (Fin <$> a) (clamp (Fin <$> pr))
              (np_searchsorted [] (Fin <$> pr)))
    as (Cw & Ca & Cp & Cq);
    rewrite ?length_clamp, ?length_np_searchsorted, ?length_fmap; try lia.
  fold df in Cw, Ca, Cp, Cq.
  assert (Hdf : pd_DataFrame (Fin <$> w) (Fin <$> a) (clamp (Fin <$> pr))
                  (np_searchsorted [] (Fin <$> pr)) = Ok df).
  { apply pd_DataFrame_ok;
      rewrite ?length_clamp, ?length_np_searchsorted, ?length_fmap; lia. }
  assert (Hvalid : Forall valid_row df) by apply valid_frame, Hw0.
  assert (Hterm : bin_term (Fin phi) p df
                  = chi_square_term (Fin phi) p
                      (Fin <$> w) (Fin <$> a) (clamp (Fin <$> pr))).
  { unfold bin_term. by rewrite Cw, Ca, Cp. }
  assert (Hpos : positive_weight df).
  { unfold positive_weight, bin_weight. by rewrite Cw. }
  destruct (chi_sq_tweedie_positive_weight phi p Hphi Hpow df Hvalid Hpos)
    as (t & Ht).
  change (chi_sq_tweedie (Fin phi) p df) with (bin_term (Fin phi) p df) in Ht.
  rewrite Hterm in Ht.
  split; [|by rewrite Ht].
  rewrite (hl_tweedie_run h weight actual predicted _ _ _ Hw Ha Hp).
  simpl. rewrite Hq. simpl. rewrite Hdf. simpl. f_equal.
  rewrite groupby_quantile_single.
  - change (map (chi_sq_tweedie (Fin phi) p) [df])
      with [bin_term (Fin phi) p df].
    rewrite Hterm, Ht. unfold series_sum. simpl. apply fadd_zero_l.
  - apply Forall_forall. intros r Hr.
    pose proof (searchsorted_no_cut_points (Fin <$> pr)) as Hz.
    rewrite <- Cq in Hz. rewrite Forall_forall in Hz.
    apply Hz, in_map_iff. by exists r.
  - intros Hnil. rewrite Hnil in Cw.
    destruct w; [simpl in *; lia|done].
Qed.

Lemma hl_tweedie_one_bin_witness :
  (hl_tweedie (E := Reference.externals) 0 1 2 1 (Fin 1%Qc) ftwo
     Examples.heap_third).1
  = Ok (chi_square_term (E := Reference.externals) (Fin 1%Qc) ftwo
          (Fin <$> Examples.w_third) (Fin <$> Examples.a_third)
          (clamp (Fin <$> Examples.p_third)))
  ∧ chi_square_term (E := Reference.externals) (Fin 1%Qc) ftwo
      (Fin <$> Examples.w_third) (Fin <$> Examples.a_third)
      (clamp (Fin <$> Examples.p_third))
    = Examples.fq 1 3.
Proof.
  split; [|by_evaluation].
  apply (hl_tweedie_one_bin (E := Reference.externals)
           (L := ReferenceFacts.laws) Examples.heap_third 0 1 2
           Examples.w_third Examples.a_third Examples.p_third [] 1%Qc ftwo).
  - reflexivity.
  - reflexivity.
  - reflexivity.
  - reflexivity.
  - reflexivity.
  - simpl. lia.
  - repeat constructor; by_evaluation.
  - by_evaluation.
  - by_evaluation.
  - apply reference_power_two_positive.
  - by_evaluation.
Defined.

(** ** Invariants of stateful computations *)

Lemma preserves_bind {S A B} (P : S → Prop)
    (m : StateExn S A) (f : A → StateExn S B) :
  preserves P m → (∀ a, preserves P (f a)) → preserves P (m ≫= f).
Proof.
  intros Hm Hf s Hs. unfold mbind, StateExn_bind.
  specialize (Hm s Hs). destruct (m s) as [[a|e] s']; simpl in *; [|done].
  by apply Hf.
Qed.

Lemma preserves_lift {S A} (P : S → Prop) (o : outcome A) :
  preserves P (lift o : StateExn S A).
Proof. by intros s Hs. Qed.

Lemma preserves_mret {S A} (P : S → Prop) (a : A) :
  preserves P (mret a : StateExn S A).
Proof. by intros s Hs. Qed.

(** Entering a metric leaves every other metric as it is. *)
Lemma metric_out_setitem_other (out : report) (split name split' name' : string)
    (v : fval) :
  (split, name) ≠ (split', name') →
  metric (out_setitem split name v out).2 split' name'
  = metric out split' name'.
Proof.
  intros Hne. unfold out_setitem, metric.
  destruct (out !! split) as [m|] eqn:Hm; simpl; [|done].
  destruct (decide (split = split')) as [<-|Hs].
  - rewrite lookup_insert_eq, Hm. simpl.
    rewrite lookup_insert_ne; [done|]. congruence.
  - by rewrite lookup_insert_ne.
Qed.

Lemma preserves_out_setitem_other (split name split' name' : string)
    (v : fval) (x : option ndarray) :
  (split, name) ≠ (split', name') →
  preserves (λ out, metric out split' name' = x) (out_setitem split name v).
Proof. intros Hne out Hout. by rewrite metric_out_setitem_other. Qed.

Lemma metric_out_setitem_same (out : report) (split name : string) (v : fval) :
  is_Some (out !! split) →
  metric (out_setitem split name v out).2 split name = Some [v].
Proof.
  intros [m Hm]. unfold out_setitem, metric. rewrite Hm. simpl.
  rewrite lookup_insert_eq. simpl. by rewrite lookup_insert_eq.
Qed.

(** The two splits of a report stay in place. *)
Lemma preserves_out_setitem_split (split name split' : string) (v : fval) :
  preserves (λ out : report, is_Some (out !! split'))
            (out_setitem split name v).
Proof.
  intros out Hout. unfold out_setitem.
  destruct (out !! split) as [m|] eqn:Hm; simpl; [|done].
  destruct (decide (split = split')) as [<-|Hs].
  - by rewrite lookup_insert_eq.
  - by rewrite lookup_insert_ne.
Qed.

Ltac preserve :=
  repeat first
    [ apply preserves_lift
    | apply preserves_mret
    | apply preserves_out_setitem_other; done
    | apply preserves_out_setitem_split
    | apply preserves_bind; [|intros ?]
    | match goal with
      | |- preserves _ (if ?b then _ else _) => destruct b
      | |- preserves _ (match ?o with Some _ => _ | None => _ end) =>
          destruct o
      end ].

(** ** model_stats_reg *)

Section ModelStatsReg.
Context `{E : Externals}.

Lemma model_stats_reg_finish (w : world) (train_set : loc)
    (valid_set : option loc) (has_weight : bool) :
  (((λ w,
    match model_stats_reg_try (dicts w) train_set valid_set has_weight
            ({[ "train" := ∅; "valid" := ∅ ]} : report) with
    | (Ok _, out_dict) => (Ok out_dict, w)
    | (Raise e, out_dict) =>
        match (_ ← print "Stats Failed to run"; print (exn_message e)) w with
        | (_, w') => (Ok out_dict, w')
        end
    end) : StateExn world report) w)
  = (Ok (model_stats_reg_try (dicts w) train_set valid_set has_weight
           empty_report).2,
     logged (model_stats_reg_try (dicts w) train_set valid_set has_weight
               empty_report).1 w).
Proof.
  unfold empty_report.
  destruct (model_stats_reg_try _ _ _ _ _) as [[[]|e] out]; simpl; [done|].
  unfold print, mbind, StateExn_bind. simpl.
  by rewrite <- app_assoc.
Qed.

(** With ['w'] supplied nothing is filled in and [has_weight] stays False. *)
Lemma model_stats_reg_supplied (w : world) (train_set : loc)
    (valid_set : option loc) (d : pydict) :
  dicts w !! train_set = Some d → is_Some (d !! "w") →
  model_stats_reg train_set valid_set w
  = (Ok (model_stats_reg_try (dicts w) train_set valid_set false
           empty_report).2,
     logged (model_stats_reg_try (dicts w) train_set valid_set false
               empty_report).1 w).
Proof.
  intros Hd Hw. unfold model_stats_reg.
  unfold mbind at 1. unfold StateExn_bind at 1.
  unfold dict_contains. rewrite Hd, bool_decide_eq_true_2 by done. simpl.
  unfold mbind at 1. unfold StateExn_bind at 1. unfold mret, StateExn_ret.
  apply model_stats_reg_finish.
Qed.

(** Without ['w'] a vector of ones is stored under ['w'] in the caller's
    dictionary, as long as [valid_set]'s ['y'] when there is a [valid_set],
    and [has_weight] becomes True. *)
Lemma model_stats_reg_default (w : world) (train_set : loc)
    (valid_set : option loc) (d : pydict) (yv : ndarray) (n : nat) :
  dicts w !! train_set = Some d → d !! "w" = None → d !! "y" = Some yv →
  match valid_set with
  | None => n = length yv
  | Some v =>
      ∃ dv vy, dicts w !! v = Some dv ∧ dv !! "y" = Some vy ∧ n = length vy
  end →
  let w1 :=
    World (<[train_set := with_default_weight d n]> (dicts w)) (stdout w) in
  model_stats_reg train_set valid_set w
  = (Ok (model_stats_reg_try (dicts w1) train_set valid_set true
           empty_report).2,
     logged (model_stats_reg_try (dicts w1) train_set valid_set true
               empty_report).1 w1).
Proof.
  intros Hd Hw Hy Hv w1. unfold model_stats_reg.
  assert (Hlt : train_set < length (dicts w)) by by eapply lookup_lt_Some.
  unfold mbind at 1. unfold StateExn_bind at 1.
  unfold dict_contains. rewrite Hd, bool_decide_eq_false_2
    by (rewrite Hw; by intros [? ?]).
  simpl negb. cbv iota.
  unfold mbind at 1. unfold StateExn_bind at 1.
  unfold mbind at 1. unfold StateExn_bind at 1.
  unfold dict_getitem at 1, getitem. rewrite Hd, Hy.
  unfold mbind at 1. unfold StateExn_bind at 1.
  unfold dict_setitem at 1. rewrite Hd.
  destruct valid_set as [v|].
  - destruct Hv as (dv & vy & Hdv & Hvy & ->).
    unfold mbind at 1. unfold StateExn_bind at 1.
    unfold mbind at 1. unfold StateExn_bind at 1.
    unfold dict_getitem at 1, getitem. simpl dicts.
    assert (Hvy' : ∃ dv', <[train_set := <["w" := np_ones (length yv)]> d]>
                            (dicts w) !! v = Some dv' ∧ dv' !! "y" = Some vy).
    { destruct (decide (train_set = v)) as [<-|Hne].
      - rewrite list_lookup_insert_eq by done. eexists. split; [done|].
        rewrite lookup_insert_ne by done. congruence.
      - rewrite list_lookup_insert_ne by done. eauto. }
    destruct Hvy' as (dv' & -> & ->).
    unfold dict_setitem. simpl dicts.
    rewrite list_lookup_insert_eq by done.
    rewrite list_insert_insert_eq, insert_insert_eq. simpl stdout.
    unfold mret, StateExn_ret.
    apply (model_stats_reg_finish w1).
  - subst n. unfold mret, StateExn_ret. simpl.
    apply (model_stats_reg_finish w1).
Qed.

(** With [has_weight] False the [try] block never enters
    [train]['weighted_rmse']. *)
Lemma try_without_flag_omits_weighted_rmse (ds : list pydict)
    (train_set : loc) (valid_set : option loc) :
  preserves (λ out, metric out "train" "weighted_rmse" = None)
            (model_stats_reg_try ds train_set valid_set false).
Proof. unfold model_stats_reg_try. preserve. Qed.

(** The [try] block on a training set alone, when every metric is
    defined: the four entries are made in order and nothing is raised. *)
Lemma try_train_success (ds : list pydict) (train_set : loc)
    (has_weight : bool) (yv pv wv : ndarray) (m1 m2 g r0 : fval)
    (out : report) (m : gmap string ndarray) :
  getitem ds train_set "y" = Ok yv →
  getitem ds train_set "pred" = Ok pv →
  getitem ds train_set "w" = Ok wv →
  mean_squared_error yv pv = Ok m1 →
  mean_absolute_error yv pv = Ok m2 →
  weighted_gini wv yv pv = Ok g →
  weighted_rmse wv yv pv = Ok r0 →
  out !! "train" = Some m →
  model_stats_reg_try ds train_set None has_weight out
  = (Ok (),
     <["train" :=
         (if has_weight then <["weighted_rmse" := [r0]]> else id)
           (<["gini" := [g]]>
              (<["mae" := [m2]]> (<["rmse" := [np_sqrt m1]]> m)))]> out).
Proof.
  intros Hy Hp Hw Hmse Hmae Hgini Hrmse Hout.
  unfold model_stats_reg_try, mbind, StateExn_bind, lift, mret, StateExn_ret,
    out_setitem.
  rewrite Hy, Hp, Hw. cbv beta iota.
  rewrite Hmse. cbv beta iota. rewrite Hout. cbv beta iota.
  rewrite Hmae. cbv beta iota. rewrite lookup_insert_eq. cbv beta iota.
  rewrite Hgini. cbv beta iota. rewrite lookup_insert_eq. cbv beta iota.
  destruct has_weight; cbv beta iota.
  - rewrite Hrmse. cbv beta iota. rewrite lookup_insert_eq. cbv beta iota.
    by rewrite !insert_insert_eq.
  - by rewrite !insert_insert_eq.
Qed.

Lemma weighted_rmse_defined (weight actual predicted : ndarray) :
  length actual = length predicted → length weight = length actual →
  ∃ v, weighted_rmse weight actual predicted = Ok v.
Proof.
  intros Hap Hwa. unfold weighted_rmse.
  rewrite broadcast_same_length by done. simpl.
  rewrite broadcast_same_length; [by eexists|].
  rewrite length_map, length_zip_with. lia.
Qed.

Lemma getitem_lookup (ds : list pydict) (d : pydict) (l : loc) (k : string)
    (v : ndarray) :
  ds !! l = Some d → d !! k = Some v → getitem ds l k = Ok v.
Proof. intros Hd Hk. unfold getitem. by rewrite Hd, Hk. Qed.

End ModelStatsReg.

(** C4.  Called with a [train_set] that lacks ['w'] (finite ['y'] and
    ['pred'] of one length N >= 1) and no [valid_set], [model_stats_reg]
    returns a report whose ['train'] entry holds ['rmse'], ['mae'],
    ['gini'] and ['weighted_rmse'], each a one-element list, and whose
    ['valid'] entry is the empty dict; nothing is printed. *)
Theorem model_stats_reg_train_without_w `{E : Externals} {L : ExternalsLaws E}
    (w : world) (train_set : loc) (d : pydict) (y pr : list Qc) :
  dicts w !! train_set = Some d →
  d !! "w" = None →
  d !! "y" = Some (Fin <$> y) →
  d !! "pred" = Some (Fin <$> pr) →
  length y = length pr → 1 ≤ length y →
  ∃ (r : report) (w' : world) (rmse mae gini wrmse : fval),
    model_stats_reg train_set None w = (Ok r, w')
    ∧ r !! "train"
      = Some (<["weighted_rmse" := [wrmse]]>
                (<["gini" := [gini]]>
                   (<["mae" := [mae]]> (<["rmse" := [rmse]]> ∅))))
    ∧ r !! "valid" = Some ∅
    ∧ stdout w' = stdout w.
Proof.
  intros Hd Hw Hy Hp Hlen Hn.
  assert (Hlt : train_set < length (dicts w)) by by eapply lookup_lt_Some.
  pose (n := length (Fin <$> y)).
  rewrite (model_stats_reg_default w train_set None d (Fin <$> y) n Hd Hw Hy
             eq_refl).
  set (ds := <[train_set := with_default_weight d n]> (dicts w)).
  assert (Hds : ds !! train_set = Some (with_default_weight d n)).
  { by apply list_lookup_insert_eq. }
  destruct (mean_squared_error_defined y pr Hlen Hn) as (m1 & Hm1).
  destruct (mean_absolute_error_defined y pr Hlen Hn) as (m2 & Hm2).
  assert (Hnn : n = length y) by apply length_fmap.
  destruct (weighted_rmse_defined (np_ones n) (Fin <$> y) (Fin <$> pr))
    as (r0 & Hr0).
  { rewrite !length_fmap. done. }
  { unfold np_ones. rewrite length_replicate. done. }
  pose proof (weighted_gini_reordered (np_ones n) (Fin <$> y) (Fin <$> pr))
    as Hg.
  unfold np_ones in Hg. rewrite length_replicate, !length_fmap in Hg.
  specialize (Hg ltac:(lia) ltac:(lia) ltac:(lia)). cbv zeta in Hg.
  fold (np_ones n) in Hg.
  assert (∃ g, weighted_gini (np_ones n) (Fin <$> y) (Fin <$> pr) = Ok g)
    as [g Hgg] by eauto.
  clear Hg. simpl dicts. fold ds.
  assert (Gy : getitem ds train_set "y" = Ok (Fin <$> y)).
  { apply (getitem_lookup _ _ _ _ _ Hds). unfold with_default_weight.
    by rewrite lookup_insert_ne. }
  assert (Gp : getitem ds train_set "pred" = Ok (Fin <$> pr)).
  { apply (getitem_lookup _ _ _ _ _ Hds). unfold with_default_weight.
    by rewrite lookup_insert_ne. }
  assert (Gw : getitem ds train_set "w" = Ok (np_ones n)).
  { apply (getitem_lookup _ _ _ _ _ Hds). unfold with_default_weight.
    by rewrite lookup_insert_eq. }
  assert (Hout : empty_report !! "train" = Some (∅ : gmap string ndarray)).
  { unfold empty_report. by rewrite lookup_insert_eq. }
  rewrite (try_train_success ds train_set true (Fin <$> y) (Fin <$> pr)
             (np_ones n) m1 m2 g r0 empty_report ∅ Gy Gp Gw Hm1 Hm2 Hgg Hr0
             Hout).
  cbn [fst snd logged].
  eexists _, _, (np_sqrt m1), m2, g, r0. split; [reflexivity|].
  split; [by rewrite lookup_insert_eq|]. split; [|done].
  rewrite lookup_insert_ne by done. unfold empty_report.
  rewrite lookup_insert_ne by done. by rewrite lookup_singleton_eq.
Qed.

Lemma model_stats_reg_train_without_w_witness :
  ∃ (r : report) (w' : world) (rmse mae gini wrmse : fval),
    model_stats_reg (E := Reference.externals) 0 None Examples.world_no_w
      = (Ok r, w')
    ∧ r !! "train"
      = Some (<["weighted_rmse" := [wrmse]]>
                (<["gini" := [gini]]>
                   (<["mae" := [mae]]> (<["rmse" := [rmse]]> ∅))))
    ∧ r !! "valid" = Some ∅
    ∧ stdout w' = stdout Examples.world_no_w.
Proof.
  apply (model_stats_reg_train_without_w (E := Reference.externals)
           (L := ReferenceFacts.laws) Examples.world_no_w 0
           {[ "y" := Examples.y2; "pred" := Examples.pred2 ]}
           [Q2Qc 1; Q2Qc 2] [Q2Qc 3; Q2Qc 4]).
  - reflexivity.
  - reflexivity.
  - reflexivity.
  - reflexivity.
  - reflexivity.
  - simpl. lia.
Defined.

(** C3 on the code.  With ['w'] supplied in [train_set] the report has no
    ['weighted_rmse'] under ['train'] (only ['rmse'], ['mae'] and ['gini']);
    with the same data and no ['w'] it has one: [has_weight] is set when
    the key is missing, not when it is present. *)
Theorem weighted_rmse_flag_inverted :
  returned_metric
    (model_stats_reg (E := Reference.externals) 0 None
       Examples.world_with_w).1 "train" "weighted_rmse" = None
  ∧ returned_metric
      (model_stats_reg (E := Reference.externals) 0 None
         Examples.world_with_w).1 "train" "gini" = Some [Examples.fq 3 28]
  ∧ returned_metric
      (model_stats_reg (E := Reference.externals) 0 None
         Examples.world_no_w).1 "train" "weighted_rmse"
    = Some [Examples.fz 2].
Proof. repeat split; by_evaluation. Qed.

Section ModelStatsRegReport.
Context `{E : Externals}.

Lemma supplied_weight_omits_weighted_rmse (w : world) (train_set : loc)
    (valid_set : option loc) (d : pydict) :
  dicts w !! train_set = Some d → is_Some (d !! "w") →
  returned_metric (model_stats_reg train_set valid_set w).1
    "train" "weighted_rmse" = None.
Proof.
  intros Hd Hw. rewrite (model_stats_reg_supplied w _ _ d Hd Hw). simpl.
  by apply try_without_flag_omits_weighted_rmse.
Qed.

(** Once ['rmse'] has been entered it stays in the report, whatever a later
    metric does. *)
Lemma try_keeps_rmse (ds : list pydict) (train_set : loc)
    (valid_set : option loc) (has_weight : bool) (y pred : ndarray)
    (m : fval) (out : report) :
  getitem ds train_set "y" = Ok y →
  getitem ds train_set "pred" = Ok pred →
  mean_squared_error y pred = Ok m →
  is_Some (out !! "train") →
  metric (model_stats_reg_try ds train_set valid_set has_weight out).2
    "train" "rmse" = Some [np_sqrt m].
Proof.
  intros Hy Hp Hm Hout. unfold model_stats_reg_try.
  unfold mbind at 1. unfold StateExn_bind at 1. unfold lift at 1.
  rewrite Hy. cbv beta iota.
  unfold mbind at 1. unfold StateExn_bind at 1. unfold lift at 1.
  rewrite Hp. cbv beta iota.
  unfold mbind at 1. unfold StateExn_bind at 1. unfold lift at 1.
  rewrite Hm. cbv beta iota.
  unfold mbind at 1. unfold StateExn_bind at 1.
  pose proof (metric_out_setitem_same out "train" "rmse" (np_sqrt m) Hout)
    as Hset.
  destruct (out_setitem "train" "rmse" (np_sqrt m) out) as [[[]|e] out1];
    simpl in Hset; [|done].
  match goal with
  | |- metric (?rest out1).2 _ _ = ?x =>
      assert (Hrest : preserves (λ o, metric o "train" "rmse" = x) rest)
  end.
  { preserve. }
  by apply Hrest.
Qed.

End ModelStatsRegReport.

(** *** The [try] block as a list of metric computations *)

Section TryBlock.
Context `{E : Externals}.

Lemma enter_splits (out : report) (m : string * string * fval) (s : string) :
  is_Some (out !! s) → is_Some (enter out m !! s).
Proof.
  destruct m as [[split name] v]. unfold enter. intros Hs.
  destruct (decide (split = s)) as [<-|Hne].
  - by rewrite lookup_insert_eq.
  - by rewrite lookup_insert_ne.
Qed.

Lemma run_setitem (split name : string) (v : fval)
    (k : StateExn report unit) (out : report) :
  is_Some (out !! split) →
  (out_setitem split name v ≫= λ _, k) out = k (enter out (split, name, v)).
Proof.
  intros [m Hm]. unfold mbind, StateExn_bind, out_setitem, enter.
  by rewrite Hm.
Qed.

Lemma run_setitem_last (split name : string) (v : fval) (out : report) :
  is_Some (out !! split) →
  out_setitem split name v out = (Ok (), enter out (split, name, v)).
Proof. intros [m Hm]. unfold out_setitem, enter. by rewrite Hm. Qed.

Lemma run_lift {A} (o : outcome A) (k : A → StateExn report unit)
    (out : report) :
  (lift o ≫= k) out
  = match o with Ok a => k a out | Raise e => (Raise e, out) end.
Proof. unfold mbind, StateExn_bind, lift. by destruct o. Qed.

Lemma run_lift_ok {A} (a : A) (k : A → StateExn report unit)
    (out : report) :
  (lift (Ok a) ≫= k) out = k a out.
Proof. done. Qed.

Lemma run_mret {A} (a : A) (k : A → StateExn report unit) (out : report) :
  (mret a ≫= k) out = k a out.
Proof. done. Qed.

Lemma run_assoc {A B} (m : StateExn report A) (f : A → StateExn report B)
    (k : B → StateExn report unit) (out : report) :
  ((m ≫= f) ≫= k) out = (m ≫= λ a, f a ≫= k) out.
Proof.
  unfold mbind, StateExn_bind. by destruct (m out) as [[a|e] out'].
Qed.

Lemma outcome_bind_ok {A B} (a : A) (f : A → outcome B) : Ok a ≫= f = f a.
Proof. done. Qed.

Ltac run_reads :=
  repeat (first [ rewrite run_assoc | rewrite run_mret | rewrite run_lift_ok
                | rewrite outcome_bind_ok ];
          cbv beta).

Ltac run_compute o x :=
  run_reads; rewrite run_lift;
  destruct o as [x|?]; [run_reads|reflexivity].

Ltac run_enter :=
  rewrite run_setitem by (repeat apply enter_splits; assumption).

(** The [try] block enters the metrics in order until one computation
    raises: it ends with that exception, and the report holds the metrics
    computed before it. *)
Lemma try_runs_computations (ds : list pydict) (train_set : loc)
    (valid_set : option loc) (has_weight : bool) (out : report) :
  is_Some (out !! "train") → is_Some (out !! "valid") →
  model_stats_reg_try ds train_set valid_set has_weight out
  = (try_outcome
       (first_failure (metric_computations ds train_set valid_set has_weight)),
     foldl enter out
       (succeeded (metric_computations ds train_set valid_set has_weight))).
Proof.
  intros Ht Hv.
  unfold model_stats_reg_try, metric_computations.
  run_compute (getitem ds train_set "y") ty.
  run_compute (getitem ds train_set "pred") tp.
  run_compute (mean_squared_error ty tp) tmse.
  run_enter.
  run_compute (mean_absolute_error ty tp) tmae.
  run_enter.
  run_compute (getitem ds train_set "w") tw.
  run_compute (weighted_gini tw ty tp) tgini.
  run_enter.
  destruct has_weight.
  - run_compute (weighted_rmse tw ty tp) twrmse.
    run_enter.
    destruct valid_set as [valid_set|]; [|reflexivity].
    run_compute (getitem ds valid_set "y") vy.
    run_compute (getitem ds valid_set "pred") vp.
    run_compute (mean_squared_error vy vp) vmse.
    run_enter.
    run_compute (mean_absolute_error vy vp) vmae.
    run_enter.
    run_compute (getitem ds valid_set "w") vw.
    run_compute (weighted_gini vw vy vp) vgini.
    run_enter.
    run_compute (weighted_rmse vw vy vp) vwrmse.
    rewrite run_setitem_last by (repeat apply enter_splits; assumption).
    reflexivity.
  - run_reads.
    destruct valid_set as [valid_set|]; [|reflexivity].
    run_compute (getitem ds valid_set "y") vy.
    run_compute (getitem ds valid_set "pred") vp.
    run_compute (mean_squared_error vy vp) vmse.
    run_enter.
    run_compute (mean_absolute_error vy vp) vmae.
    run_enter.
    run_compute (getitem ds valid_set "w") vw.
    run_compute (weighted_gini vw vy vp) vgini.
    run_enter.
    run_compute (weighted_rmse vw vy vp) vwrmse.
    rewrite run_setitem_last by (repeat apply enter_splits; assumption).
    reflexivity.
Qed.

Lemma logged_try_outcome (failure : option exn) (w : world) :
  logged (try_outcome failure) w
  = World (dicts w) (stdout w ++ failure_log failure).
Proof.
  destruct w as [ds out], failure as [e|]; simpl; [done|].
  by rewrite app_nil_r.
Qed.

(** The report and the world after the [try] block and its [except]
    clause, run on the dictionaries [ds] with the output [out]. *)
Lemma try_except_result (ds : list pydict) (printed : list string)
    (train_set : loc) (valid_set : option loc) (has_weight : bool) :
  let steps := metric_computations ds train_set valid_set has_weight in
  (Ok (model_stats_reg_try ds train_set valid_set has_weight
         empty_report).2,
   logged (model_stats_reg_try ds train_set valid_set has_weight
             empty_report).1 (World ds printed))
  = (Ok (report_of (succeeded steps)),
     World ds (printed ++ failure_log (first_failure steps))).
Proof.
  intros steps.
  rewrite try_runs_computations.
  - cbn [fst snd]. by rewrite logged_try_outcome.
  - unfold empty_report. by rewrite lookup_insert_eq.
  - unfold empty_report. rewrite lookup_insert_ne by done.
    by rewrite lookup_singleton_eq.
Qed.

End TryBlock.

(** C5 (as the code has it).  [model_stats_reg] returns a report instead of
    raising whenever the default weight can be filled in: [train_set] has
    ['w'], or it has ['y'] and so does [valid_set] when one is given.  The
    [try] block computes the metrics in order (for the training set
    ['rmse'], ['mae'], ['gini'] and, when [has_weight] is set, that is when
    ['w'] was missing, ['weighted_rmse']; then the four metrics of the
    validation set) on the dictionaries as the fill has left them.  If no
    computation raises, the report holds all of them and nothing is printed.
    If one raises, the exception is caught, ['Stats Failed to run'] and the
    exception are printed, and the report returned holds exactly the metrics
    computed before the failure. *)
Theorem model_stats_reg_returns `{E : Externals}
    (w : world) (train_set : loc) (valid_set : option loc) (d : pydict) :
  dicts w !! train_set = Some d →
  is_Some (d !! "w")
  ∨ (is_Some (d !! "y")
     ∧ match valid_set with
       | None => True
       | Some v => ∃ dv, dicts w !! v = Some dv ∧ is_Some (dv !! "y")
       end) →
  ∃ (has_weight : bool) (ds : list pydict),
    (if has_weight
     then d !! "w" = None
          ∧ ∃ n, ds = <[train_set := with_default_weight d n]> (dicts w)
               ∧ match valid_set with
                 | None => ∃ yv, d !! "y" = Some yv ∧ n = length yv
                 | Some v =>
                     ∃ dv vy, dicts w !! v = Some dv
                              ∧ dv !! "y" = Some vy ∧ n = length vy
                 end
     else is_Some (d !! "w") ∧ ds = dicts w)
    ∧ let steps := metric_computations ds train_set valid_set has_weight in
      model_stats_reg train_set valid_set w
      = (Ok (report_of (succeeded steps)),
         World ds (stdout w ++ failure_log (first_failure steps))).
Proof.
  intros Hd Hcase.
  destruct (d !! "w") as [wv|] eqn:Hw.
  - exists false, (dicts w). split; [by eauto|]. cbv zeta.
    rewrite (model_stats_reg_supplied w _ _ d Hd) by by rewrite Hw.
    destruct w as [ds printed]. cbn [dicts stdout].
    apply (try_except_result ds printed train_set valid_set false).
  - destruct Hcase as [[? ?]|[[yv Hy] Hv]]; [done|].
    assert (∃ n, match valid_set with
                 | None => n = length yv
                 | Some v => ∃ dv vy, dicts w !! v = Some dv
                               ∧ dv !! "y" = Some vy ∧ n = length vy
                 end) as [n Hn].
    { destruct valid_set as [v|]; [|by eexists].
      destruct Hv as (dv & Hdv & [vy Hvy]). exists (length vy). eauto. }
    exists true, (<[train_set := with_default_weight d n]> (dicts w)).
    split.
    { split; [done|]. exists n. split; [done|].
      destruct valid_set as [v|]; [done|]. eauto. }
    cbv zeta.
    rewrite (model_stats_reg_default w train_set valid_set d yv n Hd Hw Hy Hn).
    cbn [dicts stdout].
    apply (try_except_result _ (stdout w) train_set valid_set true).
Qed.

Lemma model_stats_reg_returns_witness :
  ∃ (r : report) (rmse mae : fval),
    model_stats_reg (E := Reference.externals) 0 (Some 1)
      Examples2.world_short_valid
    = (Ok r,
       World (<[0 := with_default_weight
                       {[ "y" := Examples2.y3; "pred" := Examples2.pred3 ]}
                       1]>
                (dicts Examples2.world_short_valid))
             ["Stats Failed to run"; "IndexError"])
    ∧ r = report_of [("train", "rmse", rmse); ("train", "mae", mae)].
Proof.
  destruct (model_stats_reg_returns (E := Reference.externals)
              Examples2.world_short_valid 0 (Some 1)
              {[ "y" := Examples2.y3; "pred" := Examples2.pred3 ]})
    as (hw & ds & Hfill & Hrun).
  - reflexivity.
  - right. split; [by eexists|]. eexists. split; [reflexivity|by eexists].
  - destruct hw.
    + destruct Hfill as (_ & n & -> & dv & vy & Hdv & Hvy & ->).
      injection Hdv as <-. injection Hvy as <-.
      cbv zeta in Hrun. rewrite Hrun.
      eexists _, _, _. split; [|reflexivity].
      reflexivity.
    + destruct Hfill as [[wv Hw] _]. discriminate Hw.
Defined.

(** C5 as stated fails: a [train_set] with neither ['w'] nor ['y'] makes
    the default-weight fill, which precedes the [try] block, raise
    KeyError. *)
Lemma model_stats_reg_can_raise :
  (model_stats_reg (E := Reference.externals) 0 None Examples.world_no_y).1
  = Raise KeyError.
Proof. by_evaluation. Qed.

(** ** What a call leaves of its inputs *)

Section ModelStatsRegInputs.
Context `{E : Externals}.
Variables (w : world) (train_set : loc) (d : pydict).
Hypothesis Hd : dicts w !! train_set = Some d.

Lemma dicts_logged (r : outcome unit) (w0 : world) :
  dicts (logged r w0) = dicts w0.
Proof using Type. by destruct r. Qed.

Lemma model_stats_reg_without_y (valid_set : option loc) :
  d !! "w" = None → d !! "y" = None →
  model_stats_reg train_set valid_set w = (Raise KeyError, w).
Proof using Hd.
  intros Hw Hy. unfold model_stats_reg.
  unfold mbind at 1. unfold StateExn_bind at 1.
  unfold dict_contains. rewrite Hd, bool_decide_eq_false_2
    by (rewrite Hw; by intros [? ?]).
  simpl negb. cbv iota.
  unfold mbind at 1. unfold StateExn_bind at 1.
  unfold mbind at 1. unfold StateExn_bind at 1.
  unfold dict_getitem at 1, getitem. by rewrite Hd, Hy.
Qed.

Lemma model_stats_reg_valid_without_y (v : loc) (yv : ndarray) (e : exn) :
  d !! "w" = None → d !! "y" = Some yv →
  getitem (<[train_set := with_default_weight d (length yv)]> (dicts w))
    v "y" = Raise e →
  model_stats_reg train_set (Some v) w
  = (Raise e,
     World (<[train_set := with_default_weight d (length yv)]> (dicts w))
           (stdout w)).
Proof using Hd.
  intros Hw Hy Hv. unfold model_stats_reg.
  unfold mbind at 1. unfold StateExn_bind at 1.
  unfold dict_contains. rewrite Hd, bool_decide_eq_false_2
    by (rewrite Hw; by intros [? ?]).
  simpl negb. cbv iota.
  unfold mbind at 1. unfold StateExn_bind at 1.
  unfold mbind at 1. unfold StateExn_bind at 1.
  unfold dict_getitem at 1, getitem at 1. rewrite Hd, Hy.
  unfold mbind at 1. unfold StateExn_bind at 1.
  unfold dict_setitem at 1. rewrite Hd.
  unfold mbind at 1. unfold StateExn_bind at 1.
  unfold mbind at 1. unfold StateExn_bind at 1.
  unfold dict_getitem at 1. simpl dicts.
  unfold with_default_weight in Hv. by rewrite Hv.
Qed.

Lemma getitem_after_fill (v : loc) (n : nat) (vy : ndarray) :
  getitem (<[train_set := with_default_weight d n]> (dicts w)) v "y" = Ok vy →
  ∃ dv, dicts w !! v = Some dv ∧ dv !! "y" = Some vy.
Proof using Hd.
  assert (Hlt : train_set < length (dicts w)) by by eapply lookup_lt_Some.
  unfold getitem. destruct (decide (train_set = v)) as [<-|Hne].
  - rewrite list_lookup_insert_eq by done. unfold with_default_weight.
    rewrite lookup_insert_ne by done.
    destruct (d !! "y") as [y|] eqn:Hy; [|done]. intros [= <-]. eauto.
  - rewrite list_lookup_insert_ne by done.
    intros Hg. repeat case_match; simplify_eq. eauto.
Qed.

(** The dictionaries after a call: untouched when ['w'] was supplied;
    otherwise untouched (the call raised at once) or with ['w'] added to
    [train_set], and with ['w'] added whenever the call returned. *)
Lemma model_stats_reg_dicts (valid_set : option loc) :
  let w' := (model_stats_reg train_set valid_set w).2 in
  (is_Some (d !! "w") → dicts w' = dicts w)
  ∧ (d !! "w" = None →
     dicts w' = dicts w
     ∨ ∃ n, dicts w' = <[train_set := with_default_weight d n]> (dicts w))
  ∧ (d !! "w" = None →
     raises (model_stats_reg train_set valid_set w).1 = false →
     ∃ n, dicts w' = <[train_set := with_default_weight d n]> (dicts w)).
Proof using Hd.
  intros w'. unfold w'. clear w'. split; [|].
  { intros Hw. rewrite (model_stats_reg_supplied w _ _ d Hd Hw). simpl.
    apply dicts_logged. }
  assert (Hmain : d !! "w" = None →
    (model_stats_reg train_set valid_set w = (Raise KeyError, w))
    ∨ (∃ e n, model_stats_reg train_set valid_set w
              = (Raise e,
                 World (<[train_set := with_default_weight d n]> (dicts w))
                       (stdout w)))
    ∨ (∃ n r, model_stats_reg train_set valid_set w
              = (Ok r.2,
                 logged r.1
                   (World (<[train_set := with_default_weight d n]>
                             (dicts w)) (stdout w))))).
  { intros Hw. destruct (d !! "y") as [yv|] eqn:Hy.
    2:{ left. by apply model_stats_reg_without_y. }
    right. destruct valid_set as [v|].
    - destruct (getitem (<[train_set := with_default_weight d (length yv)]>
                           (dicts w)) v "y") as [vy|e] eqn:Hv.
      + right. apply getitem_after_fill in Hv as (dv & Hdv & Hvy).
        eexists (length vy), _.
        apply (model_stats_reg_default w train_set (Some v) d yv (length vy)
                 Hd Hw Hy).
        eauto.
      + left. exists e, (length yv).
        by apply model_stats_reg_valid_without_y.
    - right. eexists (length yv), _.
      by apply (model_stats_reg_default w train_set None d yv (length yv)
                  Hd Hw Hy). }
  split; intros Hw; destruct (Hmain Hw)
    as [->|[(e & n & ->)|(n & r & ->)]]; simpl.
  - by left.
  - right. by exists n.
  - right. exists n. by rewrite dicts_logged.
  - done.
  - done.
  - intros _. exists n. by rewrite dicts_logged.
Qed.

End ModelStatsRegInputs.




(** * Further properties of the module *)

(** ** Finite vectors *)

Lemma fold_left_fadd_Fin (l : list Qc) (acc : Qc) :
  fold_left fadd (Fin <$> l) (Fin acc) = Fin (fold_left Qcplus l acc).
Proof.
  revert acc. induction l as [|x l IH]; intros acc; simpl; [done|].
  apply IH.
Qed.

Lemma fsum_Fin (l : list Qc) : fsum (Fin <$> l) = Fin (Qc_sum l).
Proof.
  unfold fsum, fzero, Qc_sum. rewrite fold_left_fadd_Fin. f_equal.
  apply fold_symmetric.
  - intros x y z. apply Qcplus_assoc.
  - intros y. apply Qcplus_comm.
Qed.

Lemma zip_with_Fin (f : fval → fval → fval) (g : Qc → Qc → Qc)
    (x y : list Qc) :
  (∀ a b, f (Fin a) (Fin b) = Fin (g a b)) →
  zip_with f (Fin <$> x) (Fin <$> y) = Fin <$> zip_with g x y.
Proof.
  intros Hfg. revert y. induction x as [|a x IH]; intros [|b y]; simpl;
    try done.
  by rewrite Hfg, IH.
Qed.

Lemma Qc_sum_zeros (l : list Qc) :
  Forall (λ x, x = 0%Qc) l → Qc_sum l = 0%Qc.
Proof.
  induction 1 as [|x l -> _ IH]; simpl; [done|].
  rewrite IH. apply Qcplus_0_l.
Qed.

(** ** weighted_rmse *)

Section WeightedRmse.
Context `{E : Externals} {L : ExternalsLaws E}.

(** On finite vectors of one length the radicand is an exact quotient. *)
Lemma weighted_rmse_finite (w a p : list Qc) :
  length a = length p → length w = length a →
  weighted_rmse (Fin <$> w) (Fin <$> a) (Fin <$> p)
  = Ok (np_sqrt
          (fdiv (Fin (Qc_sum (zip_with Qcmult w
                                (map (λ d, d * d)%Qc
                                     (zip_with Qcminus a p)))))
                (Fin (Qc_sum w)))).
Proof.
  intros Hap Hwa. unfold weighted_rmse.
  rewrite broadcast_same_length by by rewrite !length_fmap.
  simpl.
  rewrite (zip_with_Fin fsub Qcminus) by done.
  assert (Hsq : map (λ x, np_power x ftwo) (Fin <$> zip_with Qcminus a p)
                = Fin <$> map (λ d, d * d)%Qc (zip_with Qcminus a p)).
  { induction (zip_with Qcminus a p) as [|d l IH]; simpl; [done|].
    rewrite power_two. simpl. f_equal. exact IH. }
  rewrite Hsq.
  rewrite broadcast_same_length.
  2:{ rewrite ?length_fmap, ?length_map, ?length_zip_with. lia. }
  simpl. rewrite (zip_with_Fin fmul Qcmult) by done.
  by rewrite !fsum_Fin.
Qed.

End WeightedRmse.

Lemma zip_with_Qcmult_zeros (w l : list Qc) :
  Forall (λ x, x = 0%Qc) l → Forall (λ x, x = 0%Qc) (zip_with Qcmult w l).
Proof.
  intros Hl. revert w. induction Hl as [|x l -> _ IH]; intros [|a w]; simpl;
    try by constructor.
  constructor; [apply Qcmult_0_r|apply IH].
Qed.

Lemma squares_of_self_differences (y : list Qc) :
  Forall (λ x, x = 0%Qc) (map (λ d, d * d)%Qc (zip_with Qcminus y y)).
Proof.
  induction y as [|a y IH]; simpl; constructor; [ring|exact IH].
Qed.

(** X1.  [weighted_rmse(w, y, y)]: on finite vectors of one length whose
    weights are not negative and not all zero, a perfect prediction gives
    the square root of exactly 0.  (Weights of one sign keep the total
    weight away from zero without any cancellation.) *)
Theorem weighted_rmse_perfect_prediction `{E : Externals}
    {L : ExternalsLaws E} (w y : list Qc) :
  length w = length y →
  Forall (λ x, (0 ≤ x)%Qc) w → (0 < Qc_sum w)%Qc →
  weighted_rmse (Fin <$> w) (Fin <$> y) (Fin <$> y) = Ok (np_sqrt fzero).
Proof.
  intros Hlen _ HW. rewrite weighted_rmse_finite by done.
  rewrite (Qc_sum_zeros (zip_with Qcmult w _)).
  2:{ apply zip_with_Qcmult_zeros, squares_of_self_differences. }
  do 2 f_equal. apply fdiv_zero_l; [done|].
  intros [= H]. by rewrite H in HW.
Qed.

Lemma weighted_rmse_perfect_prediction_witness :
  weighted_rmse (E := Reference.externals)
    (Fin <$> [Q2Qc 1; Q2Qc 3]) (Fin <$> [Q2Qc 5; Q2Qc 7])
    (Fin <$> [Q2Qc 5; Q2Qc 7])
  = Ok fzero.
Proof.
  rewrite (weighted_rmse_perfect_prediction (E := Reference.externals)
             (L := ReferenceFacts.laws) [Q2Qc 1; Q2Qc 3] [Q2Qc 5; Q2Qc 7]).
  - by_evaluation.
  - reflexivity.
  - repeat constructor; by_evaluation.
  - by_evaluation.
Defined.

(** X2.  [weighted_rmse] on finite vectors of one length whose weights are
    all zero raises nothing: numpy's division 0/0 yields NaN, and the
    result is the square root of NaN. *)
Theorem weighted_rmse_zero_total_weight `{E : Externals}
    {L : ExternalsLaws E} (w a p : list Qc) :
  length a = length p → length w = length a →
  Forall (λ x, x = 0%Qc) w →
  weighted_rmse (Fin <$> w) (Fin <$> a) (Fin <$> p) = Ok (np_sqrt NaN).
Proof.
  intros Hap Hwa HW. rewrite weighted_rmse_finite by done.
  rewrite (Qc_sum_zeros w HW).
  rewrite (Qc_sum_zeros (zip_with Qcmult w _)).
  2:{ clear Hwa. revert HW. generalize (map (λ d, (d * d)%Qc)
                                         (zip_with Qcminus a p)).
      intros l HW. revert l.
      induction HW as [|x w -> _ IH]; intros [|b l]; simpl;
        try by constructor.
      constructor; [apply Qcmult_0_l|apply IH]. }
  reflexivity.
Qed.

Lemma weighted_rmse_zero_total_weight_witness :
  weighted_rmse (E := Reference.externals)
    (Fin <$> [Q2Qc 0; Q2Qc 0]) (Fin <$> [Q2Qc 5; Q2Qc 7])
    (Fin <$> [Q2Qc 5; Q2Qc 8])
  = Ok (Reference.sqrt NaN).
Proof.
  apply (weighted_rmse_zero_total_weight (E := Reference.externals)
           (L := ReferenceFacts.laws)
           [Q2Qc 0; Q2Qc 0] [Q2Qc 5; Q2Qc 7] [Q2Qc 5; Q2Qc 8]).
  - reflexivity.
  - reflexivity.
  - by repeat constructor.
Defined.

(** ** weighted_gini on finite vectors *)

Lemma lookup_total_seq_take {A} `{Inhabited A} (x : list A) (n : nat) :
  n ≤ length x → map (λ j, x !!! j) (seq 0 n) = take n x.
Proof.
  intros Hn. apply list_eq. intros k.
  rewrite list_lookup_fmap.
  destruct (decide (k < n)) as [Hk|Hk].
  - rewrite lookup_seq_lt by done. simpl.
    rewrite lookup_take_lt by done.
    symmetry. apply list_lookup_lookup_total_lt. lia.
  - rewrite lookup_seq_ge by lia. simpl.
    symmetry. apply lookup_ge_None_2. rewrite length_take. lia.
Qed.

Lemma reorder_Fin (w : list Qc) (idx : list nat) :
  Forall (λ i, i < length w) idx →
  reorder (Fin <$> w) idx = Fin <$> map (λ i, w !!! i) idx.
Proof.
  unfold reorder. induction 1 as [|i idx Hi _ IH]; simpl; [done|].
  f_equal; [|exact IH].
  rewrite (list_lookup_total_fmap Fin w i Hi). done.
Qed.

Lemma Qc_sum_perm (l l' : list Qc) : l ≡ₚ l' → Qc_sum l = Qc_sum l'.
Proof.
  induction 1 as [|x l l' _ IH|x y l|l l' l'' _ IH1 _ IH2]; simpl.
  - done.
  - by rewrite IH.
  - ring.
  - by rewrite IH1.
Qed.

Lemma Qc_sum_reorder (w : list Qc) (idx : list nat) :
  idx ≡ₚ seq 0 (length w) → Qc_sum (map (λ i, w !!! i) idx) = Qc_sum w.
Proof.
  intros Hperm.
  rewrite (Qc_sum_perm _ _ (Permutation_map (λ i, w !!! i) Hperm)).
  by rewrite lookup_total_seq_take, take_ge.
Qed.

Lemma zip_with_reorder (w a : list Qc) (idx : list nat) :
  length a = length w → Forall (λ i, i < length w) idx →
  zip_with Qcmult (map (λ i, w !!! i) idx) (map (λ i, a !!! i) idx)
  = map (λ i, zip_with Qcmult w a !!! i) idx.
Proof.
  intros Hlen. induction 1 as [|i idx Hi _ IH]; simpl; [done|].
  f_equal; [|exact IH].
  apply (inj Some). rewrite <- list_lookup_lookup_total_lt.
  - rewrite lookup_zip_with.
    rewrite (list_lookup_lookup_total_lt w i), (list_lookup_lookup_total_lt a i)
      by lia. done.
  - rewrite length_zip_with. lia.
Qed.

Lemma sigma_Fin (lo hi : nat) (f : nat → fval) (g : nat → Qc) :
  (∀ i, lo ≤ i ≤ hi → f i = Fin (g i)) →
  sigma lo hi f = Fin (Qc_sum (map g (seq lo (S hi - lo)))).
Proof.
  intros Hfg. unfold sigma. rewrite <- fsum_Fin. f_equal.
  rewrite <- list_fmap_compose. apply map_ext_in.
  intros i Hi. apply in_seq in Hi. apply Hfg. lia.
Qed.

Section GiniFinite.
Variables w a : list Qc.
Hypothesis Hlen : length a = length w.

Lemma cw_Fin (i : nat) :
  i < length w →
  GiniSpec.cw (Fin <$> w) i = Fin (Qc_sum (take (S i) w)).
Proof using All.
  intros Hi. unfold GiniSpec.cw.
  rewrite (sigma_Fin 0 i _ (λ j, w !!! j)).
  - by rewrite Nat.sub_0_r, lookup_total_seq_take by lia.
  - intros j Hj. apply list_lookup_total_fmap. lia.
Qed.

Lemma ca_Fin (i : nat) :
  i < length w →
  GiniSpec.ca (Fin <$> w) (Fin <$> a) i
  = Fin (Qc_sum (take (S i) (zip_with Qcmult w a))).
Proof using All.
  intros Hi. unfold GiniSpec.ca.
  rewrite (sigma_Fin 0 i _ (λ j, zip_with Qcmult w a !!! j)).
  - rewrite Nat.sub_0_r, lookup_total_seq_take; [done|].
    rewrite length_zip_with. lia.
  - intros j Hj.
    rewrite (list_lookup_total_fmap Fin w j), (list_lookup_total_fmap Fin a j)
      by lia.
    simpl. f_equal.
    apply (inj Some). rewrite <- list_lookup_lookup_total_lt.
    + rewrite lookup_zip_with.
      rewrite (list_lookup_lookup_total_lt w j),
        (list_lookup_lookup_total_lt a j) by lia. done.
    + rewrite length_zip_with. lia.
Qed.

(** The statistic on finite vectors, as exact sums. *)
Lemma gini_Fin :
  1 ≤ length w →
  let CW i := Qc_sum (take (S i) w) in
  let CA i := Qc_sum (take (S i) (zip_with Qcmult w a)) in
  let B := Qc_sum (map (λ i, (CW (i - 1)%nat * CA i)%Qc)
                       (seq 1 (length w - 1))) in
  let A := Qc_sum (map (λ i, (CW i * CA (i - 1)%nat)%Qc)
                       (seq 1 (length w - 1))) in
  GiniSpec.gini (Fin <$> w) (Fin <$> a)
  = fabs (fdiv (Fin (B - A))
               (Fin (Qc_sum w * Qc_sum (zip_with Qcmult w a)))).
Proof using All.
  intros Hn CW CA B A.
  unfold GiniSpec.gini, GiniSpec.sum_a, GiniSpec.sum_b, GiniSpec.denominator.
  rewrite !length_fmap.
  rewrite (sigma_Fin 1 (length w - 1) _ (λ i, (CW (i - 1)%nat * CA i)%Qc)).
  2:{ intros i Hi. rewrite cw_Fin, ca_Fin by lia.
      simpl. unfold CW, CA. by replace (S (i - 1)) with i by lia. }
  rewrite (sigma_Fin 1 (length w - 1) _ (λ i, (CW i * CA (i - 1)%nat)%Qc)).
  2:{ intros i Hi. rewrite cw_Fin, ca_Fin by lia.
      simpl. unfold CW, CA. by replace (S (i - 1)) with i by lia. }
  rewrite cw_Fin, ca_Fin by lia.
  replace (S (length w - 1)) with (length w) by lia.
  rewrite !take_ge by (rewrite ?length_zip_with; lia).
  replace (S (length w - 1) - 1) with (length w - 1) by lia.
  done.
Qed.

End GiniFinite.

Section GiniExtras.
Context `{E : Externals} {L : ExternalsLaws E}.

(** X5.  [weighted_gini] on an empty predicted vector raises IndexError
    ([cumulative_weight[-1]] of an empty array), whatever weight and actual
    are. *)
Theorem weighted_gini_empty (weight actual : ndarray) :
  weighted_gini weight actual [] = Raise IndexError.
Proof.
  unfold weighted_gini.
  assert (Hnil : np_argsort [] = []).
  { apply Permutation_nil_r. apply (argsort_perm []). }
  rewrite Hnil. done.
Qed.

(** [weighted_gini] on finite vectors of one length, as exact sums over the
    reordered weight and actual. *)
Lemma weighted_gini_finite (w a p : list Qc) :
  length w = length p → length a = length p → 1 ≤ length p →
  let idx := reverse (np_argsort (Fin <$> p)) in
  let w' := map (λ i, w !!! i) idx in
  let a' := map (λ i, a !!! i) idx in
  let CW i := Qc_sum (take (S i) w') in
  let CA i := Qc_sum (take (S i) (zip_with Qcmult w' a')) in
  let B := Qc_sum (map (λ i, (CW (i - 1)%nat * CA i)%Qc)
                       (seq 1 (length w' - 1))) in
  let A := Qc_sum (map (λ i, (CW i * CA (i - 1)%nat)%Qc)
                       (seq 1 (length w' - 1))) in
  length w' = length p ∧ length a' = length p
  ∧ (∀ j x, w' !! j = Some x → x ∈ w)
  ∧ (∀ j x, a' !! j = Some x → x ∈ a)
  ∧ weighted_gini (Fin <$> w) (Fin <$> a) (Fin <$> p)
    = Ok (fabs (fdiv (Fin (B - A))
                     (Fin (Qc_sum w * Qc_sum (zip_with Qcmult w a))))).
Proof.
  intros Hw Ha Hn idx w' a' CW CA B A.
  pose proof (sort_index_bound (Fin <$> p)) as Hb. fold idx in Hb.
  rewrite length_fmap in Hb.
  pose proof (length_sort_index (Fin <$> p)) as Hli. fold idx in Hli.
  rewrite length_fmap in Hli.
  assert (Hbw : Forall (λ i, i < length w) idx) by by rewrite Hw.
  assert (Hba : Forall (λ i, i < length a) idx) by by rewrite Ha.
  assert (Hperm : idx ≡ₚ seq 0 (length p)).
  { unfold idx. rewrite reverse_Permutation.
    rewrite <- (length_fmap Fin p). apply argsort_perm. }
  assert (Hmem : ∀ (l : list Qc), Forall (λ i, i < length l) idx →
            ∀ j x, map (λ i, l !!! i) idx !! j = Some x → x ∈ l).
  { intros l Hl j x Hj. rewrite list_lookup_fmap in Hj.
    destruct (idx !! j) as [i|] eqn:Hi; [|done]. simpl in Hj.
    injection Hj as <-. apply list_elem_of_lookup_total_2.
    rewrite Forall_forall in Hl. apply Hl.
    apply list_elem_of_In. by eapply list_elem_of_lookup_2. }
  split; [unfold w'; by rewrite length_map|].
  split; [unfold a'; by rewrite length_map|].
  split; [by apply Hmem|]. split; [by apply Hmem|].
  rewrite weighted_gini_reordered by (rewrite !length_fmap; lia).
  cbv zeta. fold idx.
  rewrite (reorder_Fin w idx Hbw), (reorder_Fin a idx Hba).
  fold w' a'.
  rewrite (gini_Fin w' a'); [|unfold w', a'; by rewrite !length_map|
                              unfold w'; rewrite length_map; lia].
  cbv zeta. fold CW CA B A.
  assert (H1 : Qc_sum w' = Qc_sum w).
  { unfold w'. apply Qc_sum_reorder. by rewrite Hw. }
  assert (H2 : Qc_sum (zip_with Qcmult w' a')
               = Qc_sum (zip_with Qcmult w a)).
  { unfold w', a'. rewrite zip_with_reorder by (done || lia).
    apply Qc_sum_reorder. rewrite length_zip_with.
    replace (length w `min` length a) with (length p) by lia. done. }
  by rewrite H1, H2.
Qed.

(** X6.  [weighted_gini] on finite vectors of one length N >= 1 whose
    weights are all zero, or whose actual values are all zero: every
    cumulative product and the denominator are 0, so the call raises
    nothing and returns NaN (0/0). *)
Theorem weighted_gini_zero_denominator (w a p : list Qc) :
  length w = length p → length a = length p → 1 ≤ length p →
  Forall (λ x, x = 0%Qc) w ∨ Forall (λ x, x = 0%Qc) a →
  weighted_gini (Fin <$> w) (Fin <$> a) (Fin <$> p) = Ok NaN.
Proof.
  intros Hw Ha Hn Hzero.
  destruct (weighted_gini_finite w a p Hw Ha Hn)
    as (Hlw & Hla & Hmw & Hma & ->).
  set (idx := reverse (np_argsort (Fin <$> p))) in *.
  set (w' := map (λ i, w !!! i) idx) in *.
  set (a' := map (λ i, a !!! i) idx) in *.
  assert (Hsum0 : ∀ (f : nat → Qc) (l : list nat),
            (∀ i, f i = 0%Qc) → Qc_sum (map f l) = 0%Qc).
  { intros f l Hf. induction l as [|i l IH]; simpl; [done|].
    rewrite Hf, IH. ring. }
  assert (Hzeros : ∀ l l' : list Qc,
            Forall (λ x, x = 0%Qc) l →
            (∀ j x, l' !! j = Some x → x ∈ l) →
            Forall (λ x, x = 0%Qc) l').
  { intros l l' Hl Hmem. apply Forall_lookup. intros j x Hj.
    rewrite Forall_forall in Hl. apply Hl, list_elem_of_In.
    by eapply Hmem. }
  assert (HBA : ∀ i j : nat,
            (Qc_sum (take i w') * Qc_sum (take j (zip_with Qcmult w' a')))%Qc
            = 0%Qc
            ∧ (Qc_sum w * Qc_sum (zip_with Qcmult w a))%Qc = 0%Qc).
  { intros i j. destruct Hzero as [H0|H0].
    - rewrite (Qc_sum_zeros (take i w')), (Qc_sum_zeros w H0).
      + split; ring.
      + apply Forall_take. by apply (Hzeros w).
    - rewrite (Qc_sum_zeros (take j (zip_with Qcmult w' a'))),
        (Qc_sum_zeros (zip_with Qcmult w a)).
      + split; ring.
      + by apply zip_with_Qcmult_zeros.
      + apply Forall_take, zip_with_Qcmult_zeros. by apply (Hzeros a). }
  rewrite (proj2 (HBA 0 0)).
  rewrite !Hsum0 by (intros i; apply HBA).
  reflexivity.
Qed.

End GiniExtras.

Lemma weighted_gini_empty_witness :
  weighted_gini (E := Reference.externals)
    Examples.weight4 Examples.actual4 [] = Raise IndexError.
Proof.
  apply (weighted_gini_empty (E := Reference.externals)
           (L := ReferenceFacts.laws)).
Defined.

Lemma weighted_gini_zero_denominator_witness :
  weighted_gini (E := Reference.externals)
    (Fin <$> [Q2Qc 1; Q2Qc 2]) (Fin <$> [Q2Qc 0; Q2Qc 0])
    (Fin <$> [Q2Qc 1; Q2Qc 2])
  = Ok NaN.
Proof.
  apply (weighted_gini_zero_denominator (E := Reference.externals)
           (L := ReferenceFacts.laws)
           [Q2Qc 1; Q2Qc 2] [Q2Qc 0; Q2Qc 0] [Q2Qc 1; Q2Qc 2]).
  - reflexivity.
  - reflexivity.
  - simpl. lia.
  - right. by repeat constructor.
Defined.

(** ** The clamp, pearson_chi_sq_scale_estimate and deviance_tweedie *)

Lemma clamp_idempotent (x : ndarray) : clamp (clamp x) = clamp x.
Proof.
  unfold clamp. rewrite map_map. apply map_ext. intros e.
  destruct (fleb e fzero) eqn:He; [reflexivity|]. by rewrite He.
Qed.

Lemma clamp_no_nonpositive (x : ndarray) :
  Forall (λ e, fleb e fzero = false) (clamp x).
Proof.
  unfold clamp. apply Forall_forall. intros e He.
  apply in_map_iff in He as (e0 & <- & _).
  destruct (fleb e0 fzero) eqn:H0; [reflexivity|exact H0].
Qed.

(** X8.  [pearson_chi_sq_scale_estimate] with as many observations as
    parameters ([len(actual) == p], by default 100): once the squared
    errors are computed, [1 / (n - p)] raises ZeroDivisionError; the
    caller's arrays are as before. *)
Theorem pearson_chi_sq_scale_estimate_zero_division `{E : Externals}
    (h : heap) (actual weight predicted : loc) (av wv pv : ndarray)
    (p : Z) (tweedie_power : fval) :
  h !! actual = Some av → h !! weight = Some wv →
  h !! predicted = Some pv →
  length av = length pv → Z.of_nat (length av) = p →
  pearson_chi_sq_scale_estimate actual weight predicted p tweedie_power h
  = (Raise ZeroDivisionError, h ++ [clamp pv]).
Proof.
  intros Ha Hw Hp Hlen Hn.
  unfold pearson_chi_sq_scale_estimate. unfold_heap_monad.
  rewrite Hp, lookup_heap_new, heap_clamp_copy.
  rewrite (lookup_heap_old _ _ _ _ Ha), lookup_heap_new.
  fold (clamp pv).
  rewrite broadcast_same_length by by rewrite length_clamp.
  simpl. rewrite decide_True by lia. done.
Qed.

Lemma pearson_chi_sq_scale_estimate_zero_division_witness :
  pearson_chi_sq_scale_estimate (E := Reference.externals) 1 0 2 4 ftwo
    Examples2.heap4
  = (Raise ZeroDivisionError,
     Examples2.heap4
     ++ [[epsilon; epsilon; Examples.fz 30; Examples.fz 40]]).
Proof.
  rewrite (pearson_chi_sq_scale_estimate_zero_division
             (E := Reference.externals) Examples2.heap4 1 0 2
             Examples.actual4 Examples.weight4
             [Examples.fz (-1); Examples.fz 0; Examples.fz 30; Examples.fz 40]
             4 ftwo); reflexivity.
Defined.

(** X9.  [deviance_tweedie] gives the same result on a predicted vector and
    on its clamped version: clamping is idempotent, so a caller who has
    already floored the predictions at 1e-7 changes nothing. *)
Theorem deviance_tweedie_clamped_input `{E : Externals}
    (h : heap) (actual predicted clamped weight : loc) (av pv wv : ndarray)
    (p : fval) :
  h !! actual = Some av → h !! weight = Some wv →
  h !! predicted = Some pv → h !! clamped = Some (clamp pv) →
  (deviance_tweedie actual clamped weight p h).1
  = (deviance_tweedie actual predicted weight p h).1.
Proof.
  intros Ha Hw Hp Hc.
  rewrite (deviance_tweedie_run h weight actual clamped wv av (clamp pv)
             Hw Ha Hc).
  rewrite (deviance_tweedie_run h weight actual predicted wv av pv Hw Ha Hp).
  simpl. by rewrite clamp_idempotent.
Qed.

Lemma deviance_tweedie_clamped_input_witness :
  (deviance_tweedie (E := Reference.externals) 1 3 0 ftwo
     (Examples2.heap4
      ++ [[epsilon; epsilon; Examples.fz 30; Examples.fz 40]])).1
  = (deviance_tweedie (E := Reference.externals) 1 2 0 ftwo
       (Examples2.heap4
        ++ [[epsilon; epsilon; Examples.fz 30; Examples.fz 40]])).1.
Proof.
  apply (deviance_tweedie_clamped_input (E := Reference.externals)
           _ 1 2 3 0 Examples.actual4
           [Examples.fz (-1); Examples.fz 0; Examples.fz 30; Examples.fz 40]
           Examples.weight4 ftwo); reflexivity.
Defined.

(** ** hl_tweedie_df and hl_tweedie *)

Lemma sort_ltb_leb_trans (x y z : fval) :
  sort_ltb x y = true → sort_leb y z = true → sort_ltb x z = true.
Proof.
  unfold sort_leb, sort_ltb.
  destruct x as [a| | |], y as [b| | |], z as [c| | |]; simpl; try done.
  destruct (a ?= b)%Qc eqn:Hab; try done;
    destruct (b ?= c)%Qc eqn:Hbc; try done; intros _ _;
    rewrite <- ?Qceq_alt, <- ?Qclt_alt in *; subst.
  - by apply Qclt_alt in Hab as ->.
  - assert (Hac : (a < c)%Qc) by (eapply Qclt_trans; eassumption).
    by apply Qclt_alt in Hac as ->.
Qed.

Lemma searchsorted1_monotone (qs : ndarray) (u v : fval) :
  sort_leb u v = true → searchsorted1 qs u ≤ searchsorted1 qs v.
Proof.
  intros Huv. induction qs as [|c qs IH]; simpl; [lia|].
  destruct (sort_ltb c u) eqn:Hcu; [|lia].
  rewrite (sort_ltb_leb_trans c u v Hcu Huv). lia.
Qed.

Lemma zip_rows_lookup (w a p : ndarray) (q : list nat) (i : nat) (r : row) :
  zip_rows w a p q !! i = Some r →
  w !! i = Some (col_weight r) ∧ a !! i = Some (col_actual r)
  ∧ p !! i = Some (col_predicted r) ∧ q !! i = Some (col_quantile r).
Proof.
  revert a p q i. induction w as [|w0 w IH];
    intros [|a0 a] [|p0 p] [|q0 q] i; simpl; try done.
  destruct i as [|i]; simpl.
  - by intros [= <-].
  - apply IH.
Qed.

Section FrameExtras.
Context `{E : Externals}.
Variables (h : heap) (weight actual predicted : loc) (wv av pv : ndarray).
Hypothesis Hw : h !! weight = Some wv.
Hypothesis Ha : h !! actual = Some av.
Hypothesis Hp : h !! predicted = Some pv.

(** The frame [hl_tweedie_df] returns is built row by row from the three
    arrays, the clamped predictions and the bin ids. *)
Lemma hl_tweedie_df_returned (bins : nat) (phi p : fval) (df : DataFrame) :
  (hl_tweedie_df weight actual predicted bins phi p h).1 = Ok df →
  ∃ qs,
    DescrStatsW_quantile pv wv (quantile_probs bins) = Ok qs
    ∧ df = zip_rows wv av (clamp pv) (np_searchsorted qs pv).
Proof using All.
  rewrite (hl_tweedie_df_run h weight actual predicted wv av pv Hw Ha Hp).
  simpl. destruct (DescrStatsW_quantile _ _ _) as [qs|e]; simpl; [|done].
  unfold pd_DataFrame. case_decide; [|done]. intros [= <-]. by exists qs.
Qed.

(** X10.  For a float64 predicted array, no row of the frame
    [hl_tweedie_df] returns has a predicted value [<= 0]: the column holds
    the clamped copy, so the weighted averages of the aggregation never see
    a zero or negative prediction. *)
Theorem hl_tweedie_df_predicted_clamped (bins : nat) (phi p : fval)
    (df : DataFrame) :
  (hl_tweedie_df weight actual predicted bins phi p h).1 = Ok df →
  Forall (λ r, fleb (col_predicted r) fzero = false) df
  ∧ length df = length pv.
Proof using All.
  intros Hdf.
  assert (Hrun := Hdf).
  rewrite (hl_tweedie_df_run h weight actual predicted wv av pv Hw Ha Hp)
    in Hrun.
  simpl in Hrun.
  destruct (DescrStatsW_quantile _ _ _) as [qs|e]; simpl in Hrun; [|done].
  unfold pd_DataFrame in Hrun. case_decide as Hlen; [|done].
  injection Hrun as <-.
  destruct Hlen as (H1 & H2 & H3).
  destruct (zip_rows_columns wv av (clamp pv) (np_searchsorted qs pv)
              H1 H2 H3) as (Cw & _ & Cp & _).
  split.
  - pose proof (clamp_no_nonpositive pv) as Hc. rewrite <- Cp in Hc.
    apply Forall_forall. intros r Hr. rewrite Forall_forall in Hc.
    apply Hc, in_map_iff. by exists r.
  - apply (f_equal length) in Cp.
    rewrite length_map, length_clamp in Cp. done.
Qed.

(** X11.  The bin ids [hl_tweedie_df] assigns are monotone in the
    prediction: an observation whose predicted value is not above
    another's never lands in a higher bin. *)
Theorem hl_tweedie_df_bins_monotone (bins : nat) (phi p : fval)
    (df : DataFrame) (i j : nat) (ri rj : row) (u v : fval) :
  (hl_tweedie_df weight actual predicted bins phi p h).1 = Ok df →
  df !! i = Some ri → df !! j = Some rj →
  pv !! i = Some u → pv !! j = Some v →
  sort_leb u v = true →
  col_quantile ri ≤ col_quantile rj.
Proof using All.
  intros Hdf Hi Hj Hu Hv Huv.
  destruct (hl_tweedie_df_returned bins phi p df Hdf) as (qs & _ & ->).
  apply zip_rows_lookup in Hi as (_ & _ & _ & Hqi).
  apply zip_rows_lookup in Hj as (_ & _ & _ & Hqj).
  unfold np_searchsorted in Hqi, Hqj.
  rewrite list_lookup_fmap, Hu in Hqi. rewrite list_lookup_fmap, Hv in Hqj.
  simpl in Hqi, Hqj. injection Hqi as <-. injection Hqj as <-.
  by apply searchsorted1_monotone.
Qed.

End FrameExtras.

Lemma hl_tweedie_df_predicted_clamped_witness :
  ∃ df,
    (hl_tweedie_df (E := Reference.externals) 0 1 2 2 fone ftwo
       Examples2.heap4).1 = Ok df
    ∧ Forall (λ r, fleb (col_predicted r) fzero = false) df
    ∧ length df = 4.
Proof.
  eexists. split; [by vm_compute|].
  apply (hl_tweedie_df_predicted_clamped (E := Reference.externals)
           Examples2.heap4 0 1 2 Examples.weight4 Examples.actual4
           [Examples.fz (-1); Examples.fz 0; Examples.fz 30; Examples.fz 40]
           eq_refl eq_refl eq_refl 2 fone ftwo).
  by vm_compute.
Defined.

Lemma hl_tweedie_df_bins_monotone_witness :
  ∃ df ri rj,
    (hl_tweedie_df (E := Reference.externals) 0 1 2 2 fone ftwo
       Examples2.heap4).1 = Ok df
    ∧ df !! 1 = Some ri ∧ df !! 3 = Some rj
    ∧ sort_leb (Examples.fz 0) (Examples.fz 40) = true
    ∧ col_quantile ri ≤ col_quantile rj.
Proof.
  eexists _, _, _.
  split; [by vm_compute|].
  split; [by vm_compute|].
  split; [by vm_compute|].
  split; [by vm_compute|].
  eapply (hl_tweedie_df_bins_monotone (E := Reference.externals)
            Examples2.heap4 0 1 2 Examples.weight4 Examples.actual4
            [Examples.fz (-1); Examples.fz 0; Examples.fz 30; Examples.fz 40]
            eq_refl eq_refl eq_refl 2 fone ftwo _ 1 3 _ _
            (Examples.fz 0) (Examples.fz 40)).
  - by vm_compute.
  - by vm_compute.
  - by vm_compute.
  - reflexivity.
  - reflexivity.
  - by vm_compute.
Defined.

(** ** hl_tweedie on perfect predictions *)

Lemma clamp_positive_id (pr : list Qc) :
  Forall (λ x, (0 < x)%Qc) pr → clamp (Fin <$> pr) = Fin <$> pr.
Proof.
  induction 1 as [|x pr Hx _ IH]; [done|].
  change (clamp (Fin <$> x :: pr))
    with ((if fleb (Fin x) fzero then epsilon else Fin x)
          :: clamp (Fin <$> pr)).
  rewrite IH, fmap_cons. f_equal. simpl.
  rewrite bool_decide_eq_false_2; [done|]. by apply Qclt_not_le.
Qed.

Lemma zip_rows_same_columns (w a : ndarray) (q : list nat) :
  Forall (λ r, col_actual r = col_predicted r) (zip_rows w a a q).
Proof.
  revert a q. induction w as [|w0 w IH]; intros [|a0 a] [|q0 q]; simpl;
    by constructor.
Qed.

Lemma groups_Forall (P : row → Prop) (df : DataFrame) :
  Forall P df → Forall (Forall P) (groupby_quantile df).
Proof.
  intros Hdf. unfold groupby_quantile. apply Forall_forall.
  intros g Hg. apply in_map_iff in Hg as (k & <- & _).
  apply Forall_forall. intros r Hr.
  apply list_elem_of_In, list_elem_of_filter in Hr as [_ Hr].
  rewrite Forall_forall in Hdf. by apply Hdf, list_elem_of_In.
Qed.

Section PerfectPrediction.
Context `{E : Externals} {L : ExternalsLaws E}.
Variables (phi : Qc) (p : fval).
Hypothesis phi_pos : (0 < phi)%Qc.
Hypothesis power_pos :
  ∀ x : Qc, (0 < x)%Qc → ∃ y : Qc, np_power (Fin x) p = Fin y ∧ (0 < y)%Qc.

(** A bin with weight whose actual and predicted columns agree has the
    term 0. *)
Lemma chi_sq_tweedie_perfect_bin (g : DataFrame) :
  Forall valid_row g → positive_weight g →
  Forall (λ r, col_actual r = col_predicted r) g →
  chi_sq_tweedie (Fin phi) p g = fzero.
Proof using All.
  intros Hg Hpos Heq.
  assert (Hcols : map col_actual g = map col_predicted g).
  { clear Hg Hpos. induction Heq as [|r g Hr _ IH]; simpl; [done|].
    by rewrite Hr, IH. }
  destruct (valid_rows_sums g Hg)
    as (W & A & P & HW & HA & HP & _ & _ & HPpos).
  unfold positive_weight in Hpos. rewrite HW in Hpos. simpl in Hpos.
  apply bool_decide_eq_true_1 in Hpos.
  unfold chi_sq_tweedie, weighted_average. rewrite Hcols.
  unfold bin_weight in HW. rewrite HW, HP. simpl.
  pose proof (Qclt_ne_zero W Hpos) as HWne.
  rewrite !decide_False by done.
  destruct (power_pos (P / W)%Qc) as (y & Hy & Hypos).
  { apply Qcdiv_pos; auto. }
  rewrite Hy, power_two. simpl.
  rewrite decide_False by done.
  rewrite decide_False.
  2:{ apply Qclt_ne_zero, Qcdiv_pos; [|done]. by apply Qcmult_pos. }
  unfold fzero. f_equal.
  replace (P / W + - (P / W))%Qc with 0%Qc by ring.
  unfold Qcdiv. by rewrite !Qcmult_0_l.
Qed.

Lemma fsum_perfect_bins (gs : list DataFrame) :
  Forall (λ g, chi_sq_tweedie (Fin phi) p g = fzero) gs →
  fsum (map (chi_sq_tweedie (Fin phi) p) gs) = fzero.
Proof using Type.
  intros Hgs. unfold fsum.
  assert (Hgen : ∀ acc, fold_left fadd (map (chi_sq_tweedie (Fin phi) p) gs)
                          acc = acc).
  { induction Hgs as [|g gs Hg _ IH]; intros acc; simpl; [done|].
    rewrite Hg, IH. destruct acc; simpl; try done.
    by rewrite Qcplus_0_r. }
  apply Hgen.
Qed.

End PerfectPrediction.

(** X12.  [hl_tweedie] on a perfect prediction: when the actual vector
    equals the predicted vector, all predictions are positive and finite,
    the weights are not negative and phi is positive, every bin with weight
    contributes 0 and every bin without weight is skipped, so the statistic
    is exactly 0, for any number of bins. *)
Theorem hl_tweedie_perfect_prediction `{E : Externals} {L : ExternalsLaws E}
    (h : heap) (weight actual predicted : loc) (w pr : list Qc)
    (qs : ndarray) (bins : nat) (phi : Qc) (p : fval) :
  h !! weight = Some (Fin <$> w) →
  h !! actual = Some (Fin <$> pr) →
  h !! predicted = Some (Fin <$> pr) →
  length w = length pr →
  Forall (λ x, (0 ≤ x)%Qc) w →
  Forall (λ x, (0 < x)%Qc) pr →
  (0 < phi)%Qc →
  (∀ x : Qc, (0 < x)%Qc →
     ∃ y : Qc, np_power (Fin x) p = Fin y ∧ (0 < y)%Qc) →
  DescrStatsW_quantile (Fin <$> pr) (Fin <$> w) (quantile_probs bins)
    = Ok qs →
  (hl_tweedie weight actual predicted bins (Fin phi) p h).1 = Ok fzero.
Proof.
  intros Hw Ha Hp Hlen Hw0 Hpr Hphi Hpow Hq.
  rewrite (hl_tweedie_run h weight actual predicted _ _ _ Hw Ha Hp).
  simpl. rewrite Hq. simpl.
  rewrite pd_DataFrame_ok
    by (rewrite ?length_clamp, ?length_np_searchsorted, ?length_fmap; lia).
  simpl. f_equal.
  set (df := zip_rows (Fin <$> w) (Fin <$> pr) (clamp (Fin <$> pr))
               (np_searchsorted qs (Fin <$> pr))).
  assert (Hvalid : Forall valid_row df) by apply valid_frame, Hw0.
  assert (Hsame : Forall (λ r, col_actual r = col_predicted r) df).
  { unfold df. rewrite (clamp_positive_id pr Hpr).
    apply zip_rows_same_columns. }
  rewrite (series_sum_positive_weight phi p Hphi Hpow)
    by by apply groups_valid.
  apply fsum_perfect_bins.
  apply Forall_forall. intros g Hg.
  apply list_elem_of_In, list_elem_of_filter in Hg as [Hpos Hg].
  pose proof (groups_valid df Hvalid) as Hgv.
  pose proof (groups_Forall _ df Hsame) as Hgs.
  rewrite Forall_forall in Hgv, Hgs.
  apply list_elem_of_In in Hg.
  apply (chi_sq_tweedie_perfect_bin phi p Hphi Hpow); auto.
Qed.

Lemma hl_tweedie_perfect_prediction_witness :
  (hl_tweedie (E := Reference.externals) 0 1 2 3 (Fin 1%Qc) ftwo
     [Fin <$> Examples.w_third; Fin <$> Examples.p_third;
      Fin <$> Examples.p_third]).1 = Ok fzero.
Proof.
  eapply (hl_tweedie_perfect_prediction (E := Reference.externals)
            (L := ReferenceFacts.laws) _ 0 1 2 Examples.w_third
            Examples.p_third _ 3 1%Qc ftwo).
  - reflexivity.
  - reflexivity.
  - reflexivity.
  - reflexivity.
  - unfold Examples.w_third. repeat constructor; by_evaluation.
  - unfold Examples.p_third. repeat constructor; by_evaluation.
  - done.
  - apply reference_power_two_positive.
  - by vm_compute.
Defined.

(** ** model_stats_reg with a validation set *)

Section ModelStatsRegValid.
Context `{E : Externals} {L : ExternalsLaws E}.

(** The [try] block when the Gini computation raises: ['rmse'] and ['mae']
    of the training set are in the report and nothing after them is. *)
Lemma try_gini_fails (ds : list pydict) (train_set : loc)
    (valid_set : option loc) (has_weight : bool) (yv pv wv : ndarray)
    (m1 m2 : fval) (e : exn) (out : report) (m : gmap string ndarray) :
  getitem ds train_set "y" = Ok yv →
  getitem ds train_set "pred" = Ok pv →
  getitem ds train_set "w" = Ok wv →
  mean_squared_error yv pv = Ok m1 →
  mean_absolute_error yv pv = Ok m2 →
  weighted_gini wv yv pv = Raise e →
  out !! "train" = Some m →
  model_stats_reg_try ds train_set valid_set has_weight out
  = (Raise e,
     <["train" := <["mae" := [m2]]> (<["rmse" := [np_sqrt m1]]> m)]> out).
Proof using Type.
  intros Hy Hp Hw Hmse Hmae Hgini Hout.
  unfold model_stats_reg_try, mbind, StateExn_bind, lift, mret, StateExn_ret,
    out_setitem.
  rewrite Hy, Hp, Hw. cbv beta iota.
  rewrite Hmse. cbv beta iota. rewrite Hout. cbv beta iota.
  rewrite Hmae. cbv beta iota. rewrite lookup_insert_eq. cbv beta iota.
  rewrite Hgini. cbv beta iota.
  by rewrite insert_insert_eq.
Qed.

End ModelStatsRegValid.

(** X13.  [model_stats_reg] on a [train_set] without ['w'] and a
    [valid_set] with fewer observations: the default weight stored in
    [train_set] has the length of [valid_set]['y'], so the Gini of the
    training set raises IndexError inside the [try] block.  The call still
    returns; the report holds only ['rmse'] and ['mae'] of the training set,
    no metric of the validation set at all, and the failure is printed. *)
Theorem model_stats_reg_short_valid_set `{E : Externals}
    {L : ExternalsLaws E} (w : world) (train_set valid_set : loc)
    (d dv : pydict) (y pr : list Qc) (vy : ndarray) :
  dicts w !! train_set = Some d →
  d !! "w" = None →
  d !! "y" = Some (Fin <$> y) →
  d !! "pred" = Some (Fin <$> pr) →
  length y = length pr →
  dicts w !! valid_set = Some dv →
  dv !! "y" = Some vy →
  length vy < length pr →
  ∃ (r : report) (w' : world) (rmse mae : fval),
    model_stats_reg train_set (Some valid_set) w = (Ok r, w')
    ∧ r !! "train" = Some (<["mae" := [mae]]> (<["rmse" := [rmse]]> ∅))
    ∧ r !! "valid" = Some ∅
    ∧ dicts w'
      = <[train_set := with_default_weight d (length vy)]> (dicts w)
    ∧ stdout w' = stdout w ++ ["Stats Failed to run"; "IndexError"].
Proof.
  intros Hd Hw Hy Hp Hlen Hdv Hvy Hshort.
  assert (Hlt : train_set < length (dicts w)) by by eapply lookup_lt_Some.
  pose (n := length vy).
  rewrite (model_stats_reg_default w train_set (Some valid_set) d (Fin <$> y)
             n Hd Hw Hy).
  2:{ exists dv, vy. done. }
  set (ds := <[train_set := with_default_weight d n]> (dicts w)).
  assert (Hds : ds !! train_set = Some (with_default_weight d n)).
  { by apply list_lookup_insert_eq. }
  assert (Hn : 0 < length y) by lia.
  destruct (mean_squared_error_defined y pr Hlen Hn) as (m1 & Hm1).
  destruct (mean_absolute_error_defined y pr Hlen Hn) as (m2 & Hm2).
  assert (Hgini : weighted_gini (np_ones n) (Fin <$> y) (Fin <$> pr)
                  = Raise IndexError).
  { apply weighted_gini_index_error. left.
    unfold np_ones. rewrite length_replicate, length_fmap. done. }
  simpl dicts. fold ds.
  assert (Gy : getitem ds train_set "y" = Ok (Fin <$> y)).
  { apply (getitem_lookup _ _ _ _ _ Hds). unfold with_default_weight.
    by rewrite lookup_insert_ne. }
  assert (Gp : getitem ds train_set "pred" = Ok (Fin <$> pr)).
  { apply (getitem_lookup _ _ _ _ _ Hds). unfold with_default_weight.
    by rewrite lookup_insert_ne. }
  assert (Gw : getitem ds train_set "w" = Ok (np_ones n)).
  { apply (getitem_lookup _ _ _ _ _ Hds). unfold with_default_weight.
    by rewrite lookup_insert_eq. }
  assert (Hout : empty_report !! "train" = Some (∅ : gmap string ndarray)).
  { unfold empty_report. by rewrite lookup_insert_eq. }
  rewrite (try_gini_fails ds train_set (Some valid_set) true (Fin <$> y)
             (Fin <$> pr) (np_ones n) m1 m2 IndexError empty_report ∅
             Gy Gp Gw Hm1 Hm2 Hgini Hout).
  cbn [fst snd logged dicts stdout exn_message].
  eexists _, _, (np_sqrt m1), m2. split; [reflexivity|].
  split; [by rewrite lookup_insert_eq|]. split; [|done].
  rewrite lookup_insert_ne by done. unfold empty_report.
  rewrite lookup_insert_ne by done. by rewrite lookup_singleton_eq.
Qed.

Lemma model_stats_reg_short_valid_set_witness :
  ∃ (r : report) (w' : world) (rmse mae : fval),
    model_stats_reg (E := Reference.externals) 0 (Some 1)
      Examples2.world_short_valid = (Ok r, w')
    ∧ r !! "train" = Some (<["mae" := [mae]]> (<["rmse" := [rmse]]> ∅))
    ∧ r !! "valid" = Some ∅
    ∧ dicts w'
      = <[0 := with_default_weight
                 {[ "y" := Examples2.y3; "pred" := Examples2.pred3 ]} 1]>
          (dicts Examples2.world_short_valid)
    ∧ stdout w' = ["Stats Failed to run"; "IndexError"].
Proof.
  apply (model_stats_reg_short_valid_set (E := Reference.externals)
           (L := ReferenceFacts.laws) Examples2.world_short_valid 0 1
           {[ "y" := Examples2.y3; "pred" := Examples2.pred3 ]}
           {[ "y" := [Examples.fz 5]; "pred" := [Examples.fz 5];
              "w" := [Examples.fz 1] ]}
           [Q2Qc 1; Q2Qc 2; Q2Qc 3] [Q2Qc 1; Q2Qc 2; Q2Qc 4]
           [Examples.fz 5]).
  - reflexivity.
  - reflexivity.
  - reflexivity.
  - reflexivity.
  - reflexivity.
  - reflexivity.
  - reflexivity.
  - simpl. lia.
Defined.

(** ** model_stats_tweedie *)

Lemma preserves_dict_getitem (P : world → Prop) (d : loc) (k : string) :
  preserves P (dict_getitem d k).
Proof. by intros s Hs. Qed.

Ltac preserve_world :=
  repeat first
    [ apply preserves_lift
    | apply preserves_mret
    | apply preserves_dict_getitem
    | apply preserves_bind; [|intros ?]
    | match goal with
      | |- preserves _ (match ?o with Some _ => _ | None => _ end) =>
          destruct o
      end ].

Lemma bind_ok_inv {S A B} (m : StateExn S A) (f : A → StateExn S B)
    (s : S) (b : B) :
  ((m ≫= f) s).1 = Ok b → ∃ a s', m s = (Ok a, s') ∧ (f a s').1 = Ok b.
Proof.
  unfold mbind, StateExn_bind.
  destruct (m s) as [[a|e] s']; simpl; [eauto|done].
Qed.

Lemma report_setitem_metric (out out' : report) (split name : string)
    (v : fval) :
  report_setitem out split name v = Ok out' →
  metric out' split name = Some [v]
  ∧ ∀ split' name', (split, name) ≠ (split', name') →
      metric out' split' name' = metric out split' name'.
Proof.
  unfold report_setitem.
  pose proof (metric_out_setitem_other out split name) as Hother.
  unfold out_setitem in *.
  destruct (out !! split) as [m|] eqn:Hm; [|done].
  intros [= <-]. split.
  - unfold metric. rewrite lookup_insert_eq. simpl.
    by rewrite lookup_insert_eq.
  - intros split' name' Hne. by apply Hother.
Qed.

Section ModelStatsTweedie.
Context `{E : Externals}.

Lemma model_stats_reg_no_dict (w : world) (train_set : loc)
    (valid_set : option loc) :
  dicts w !! train_set = None →
  model_stats_reg train_set valid_set w = (Raise AttributeError, w).
Proof.
  intros Hd. unfold model_stats_reg.
  unfold mbind at 1. unfold StateExn_bind at 1.
  unfold dict_contains. by rewrite Hd.
Qed.

(** Whenever [model_stats_reg] returns, [train_set] holds ['w']. *)
Lemma model_stats_reg_returned_w (w w' : world) (train_set : loc)
    (valid_set : option loc) (r : report) :
  model_stats_reg train_set valid_set w = (Ok r, w') →
  ∃ d', dicts w' !! train_set = Some d' ∧ is_Some (d' !! "w").
Proof.
  intros Hreg.
  destruct (dicts w !! train_set) as [d|] eqn:Hd.
  2:{ by rewrite model_stats_reg_no_dict in Hreg. }
  pose proof (model_stats_reg_dicts w train_set d Hd valid_set) as Hds.
  cbv zeta in Hds. rewrite Hreg in Hds. simpl in Hds.
  destruct Hds as (Hsup & _ & Hdef).
  destruct (d !! "w") as [wv|] eqn:Hw.
  - exists d. rewrite Hsup by eauto. split; [done|]. by rewrite Hw.
  - destruct Hdef as [n Hn]; [done|done|].
    exists (with_default_weight d n). rewrite Hn. split.
    + apply list_lookup_insert_eq. by eapply lookup_lt_Some.
    + unfold with_default_weight. rewrite lookup_insert_eq. eauto.
Qed.

End ModelStatsTweedie.

(** X14.  [model_stats_tweedie] changes the caller's dictionaries and the
    standard output exactly as its call of [model_stats_reg] does: the
    default-weight fill it repeats after that call never runs (when
    [model_stats_reg] has returned, [train_set] holds ['w']), and the rest
    only reads. *)
Theorem model_stats_tweedie_world `{E : Externals} (w : world)
    (train_set : loc) (valid_set : option loc) (p : fval) :
  (model_stats_tweedie train_set valid_set p w).2
  = (model_stats_reg train_set valid_set w).2.
Proof.
  unfold model_stats_tweedie. unfold mbind at 1. unfold StateExn_bind at 1.
  destruct (model_stats_reg train_set valid_set w) as [[r|e] w'] eqn:Hreg;
    [|done].
  destruct (model_stats_reg_returned_w _ _ _ _ _ Hreg) as (d' & Hd' & Hw').
  unfold mbind at 1. unfold StateExn_bind at 1.
  unfold dict_contains at 1. rewrite Hd', bool_decide_eq_true_2 by done.
  cbn [negb]. cbv beta iota.
  change ((Ok r, w').2) with w'.
  match goal with
  | |- (?m w').2 = w' => assert (preserves (λ s, s = w') m) as Hpres
  end.
  { preserve_world. }
  by apply Hpres.
Qed.

Section ModelStatsTweedieReturn.
Context `{E : Externals}.

(** What a returning call of [model_stats_tweedie] has computed on the
    training set. *)
Lemma model_stats_tweedie_train_inv (w : world) (train_set : loc)
    (valid_set : option loc) (p : fval) (r : report) :
  (model_stats_tweedie train_set valid_set p w).1 = Ok r →
  ∃ (r0 r1 r2 : report) (w1 : world) (yv pv wv : ndarray) (dev hl : fval),
    model_stats_reg train_set valid_set w = (Ok r0, w1)
    ∧ getitem (dicts w1) train_set "y" = Ok yv
    ∧ getitem (dicts w1) train_set "pred" = Ok pv
    ∧ getitem (dicts w1) train_set "w" = Ok wv
    ∧ (hl_tweedie 0 1 2 default_bins train_phi p [wv; yv; pv]).1 = Ok hl
    ∧ report_setitem r0 "train" "tweedie_deviance" dev = Ok r1
    ∧ report_setitem r1 "train" "hl_tweedie" hl = Ok r2
    ∧ match valid_set with
      | None => r = r2
      | Some v =>
          ∃ (r3 : report) (vdev vhl : fval),
            report_setitem r2 "valid" "tweedie_deviance" vdev = Ok r3
            ∧ report_setitem r3 "valid" "hl_tweedie" vhl = Ok r
      end.
Proof.
  intros H. unfold model_stats_tweedie in H.
  apply bind_ok_inv in H as (r0 & w1 & Hreg & H).
  destruct (model_stats_reg_returned_w _ _ _ _ _ Hreg) as (d' & Hd' & Hw').
  apply bind_ok_inv in H as (has_w & s & Hc & H).
  unfold dict_contains in Hc.
  rewrite Hd', bool_decide_eq_true_2 in Hc by done.
  injection Hc as <- <-. cbn [negb] in H. cbv iota in H.
  apply bind_ok_inv in H as (? & s & Hm & H).
  unfold mret, StateExn_ret in Hm. injection Hm as _ <-.
  apply bind_ok_inv in H as (yv & s & Hy & H).
  unfold dict_getitem in Hy. injection Hy as Hy <-.
  apply bind_ok_inv in H as (pv & s & Hp & H).
  unfold dict_getitem in Hp. injection Hp as Hp <-.
  apply bind_ok_inv in H as (wv & s & Hw & H).
  unfold dict_getitem in Hw. injection Hw as Hw <-.
  apply bind_ok_inv in H as (dev & s & Hdev & H).
  unfold lift in Hdev. injection Hdev as Hdev <-.
  apply bind_ok_inv in H as (r1 & s & Hr1 & H).
  unfold lift in Hr1. injection Hr1 as Hr1 <-.
  apply bind_ok_inv in H as (wv' & s & Hw2 & H).
  unfold dict_getitem in Hw2. injection Hw2 as Hw2 <-.
  apply bind_ok_inv in H as (yv' & s & Hy2 & H).
  unfold dict_getitem in Hy2. injection Hy2 as Hy2 <-.
  apply bind_ok_inv in H as (pv' & s & Hp2 & H).
  unfold dict_getitem in Hp2. injection Hp2 as Hp2 <-.
  rewrite Hw in Hw2. injection Hw2 as <-.
  rewrite Hy in Hy2. injection Hy2 as <-.
  rewrite Hp in Hp2. injection Hp2 as <-.
  apply bind_ok_inv in H as (hl & s & Hhl & H).
  unfold lift, call_with_arrays in Hhl. injection Hhl as Hhl <-.
  apply bind_ok_inv in H as (r2 & s & Hr2 & H).
  unfold lift in Hr2. injection Hr2 as Hr2 <-.
  exists r0, r1, r2, w1, yv, pv, wv, dev, hl.
  do 7 (split; [done|]).
  destruct valid_set as [v|].
  - apply bind_ok_inv in H as (vy & s & Hvy & H).
    unfold dict_getitem in Hvy. injection Hvy as Hvy <-.
    apply bind_ok_inv in H as (vp & s & Hvp & H).
    unfold dict_getitem in Hvp. injection Hvp as Hvp <-.
    apply bind_ok_inv in H as (vw & s & Hvw & H).
    unfold dict_getitem in Hvw. injection Hvw as Hvw <-.
    apply bind_ok_inv in H as (vdev & s & Hvdev & H).
    unfold lift in Hvdev. injection Hvdev as Hvdev <-.
    apply bind_ok_inv in H as (r3 & s & Hr3 & H).
    unfold lift in Hr3. injection Hr3 as Hr3 <-.
    apply bind_ok_inv in H as (vw' & s & Hvw2 & H).
    unfold dict_getitem in Hvw2. injection Hvw2 as Hvw2 <-.
    apply bind_ok_inv in H as (vy' & s & Hvy2 & H).
    unfold dict_getitem in Hvy2. injection Hvy2 as Hvy2 <-.
    apply bind_ok_inv in H as (vp' & s & Hvp2 & H).
    unfold dict_getitem in Hvp2. injection Hvp2 as Hvp2 <-.
    apply bind_ok_inv in H as (vhl & s & Hvhl & H).
    unfold lift in Hvhl. injection Hvhl as Hvhl <-.
    apply bind_ok_inv in H as (r4 & s & Hr4 & H).
    unfold lift in Hr4. injection Hr4 as Hr4 <-.
    unfold mret, StateExn_ret in H. simpl in H. injection H as <-.
    by exists r3, vdev, vhl.
  - unfold mret, StateExn_ret in H. simpl in H. by injection H as <-.
Qed.

Lemma hl_tweedie_mismatch_raises (h : heap) (weight actual predicted : loc)
    (wv av pv : ndarray) (bins : nat) (phi p : fval) :
  h !! weight = Some wv → h !! actual = Some av →
  h !! predicted = Some pv →
  ¬ (length wv = length av ∧ length av = length pv) →
  raises (hl_tweedie weight actual predicted bins phi p h).1 = true.
Proof.
  intros Hw Ha Hp Hlen.
  rewrite (hl_tweedie_run h weight actual predicted wv av pv Hw Ha Hp).
  simpl. destruct (DescrStatsW_quantile _ _ _) as [qs|e]; simpl; [|done].
  unfold pd_DataFrame. rewrite decide_False; [done|].
  unfold clamp, np_searchsorted. rewrite !length_map. tauto.
Qed.

End ModelStatsTweedieReturn.

(** X15.  [model_stats_tweedie] has no [try] block of its own.  On a
    [train_set] without ['w'] and a [valid_set] whose ['y'] has another
    length than [train_set]'s, the default weight has the length of
    [valid_set]['y'], and the call raises: at the latest when [hl_tweedie]
    builds its data frame from the training vectors. *)
Theorem model_stats_tweedie_raises `{E : Externals} (w : world)
    (train_set valid_set : loc) (d dv : pydict) (yv vy : ndarray)
    (p : fval) :
  dicts w !! train_set = Some d →
  d !! "w" = None →
  d !! "y" = Some yv →
  dicts w !! valid_set = Some dv →
  dv !! "y" = Some vy →
  length vy ≠ length yv →
  raises (model_stats_tweedie train_set (Some valid_set) p w).1 = true.
Proof.
  intros Hd Hw Hy Hdv Hvy Hlen.
  destruct (model_stats_tweedie train_set (Some valid_set) p w).1
    as [r|e] eqn:Hrun; [exfalso|done].
  apply model_stats_tweedie_train_inv in Hrun
    as (r0 & r1 & r2 & w1 & yv' & pv & wv & dev & hl
        & Hreg & Gy & Gp & Gw & Hhl & _).
  rewrite (model_stats_reg_default w train_set (Some valid_set) d yv
             (length vy) Hd Hw Hy) in Hreg.
  2:{ exists dv, vy. done. }
  injection Hreg as _ <-. rewrite dicts_logged in Gy, Gp, Gw.
  simpl dicts in Gy, Gp, Gw.
  assert (Hds : <[train_set := with_default_weight d (length vy)]> (dicts w)
                !! train_set = Some (with_default_weight d (length vy))).
  { apply list_lookup_insert_eq. by eapply lookup_lt_Some. }
  unfold getitem in Gy, Gw. rewrite Hds in Gy, Gw.
  unfold with_default_weight in Gy, Gw.
  rewrite lookup_insert_ne, Hy in Gy by done. injection Gy as <-.
  rewrite lookup_insert_eq in Gw. injection Gw as <-.
  pose proof (hl_tweedie_mismatch_raises [np_ones (length vy); yv; pv] 0 1 2
                (np_ones (length vy)) yv pv default_bins train_phi p
                eq_refl eq_refl eq_refl) as Hraise.
  rewrite Hhl in Hraise. simpl in Hraise.
  assert (true = false); [|done]. symmetry. apply Hraise.
  unfold np_ones. rewrite length_replicate. tauto.
Qed.

Lemma model_stats_tweedie_raises_witness :
  raises (model_stats_tweedie (E := Reference.externals) 0 (Some 1) ftwo
            Examples2.world_short_valid).1 = true.
Proof.
  apply (model_stats_tweedie_raises (E := Reference.externals)
           Examples2.world_short_valid 0 1
           {[ "y" := Examples2.y3; "pred" := Examples2.pred3 ]}
           {[ "y" := [Examples.fz 5]; "pred" := [Examples.fz 5];
              "w" := [Examples.fz 1] ]}
           Examples2.y3 [Examples.fz 5] ftwo).
  - reflexivity.
  - reflexivity.
  - reflexivity.
  - reflexivity.
  - reflexivity.
  - simpl. lia.
Defined.

(** X16.  The report [model_stats_tweedie] returns is the report of
    [model_stats_reg] with the two Tweedie metrics added: every other
    metric is as [model_stats_reg] entered it (or left it out), the
    training split holds ['tweedie_deviance'] and ['hl_tweedie'], the
    latter computed with 10 bins and the dispersion 6000, and with a
    [valid_set] the validation split holds both as well. *)
Theorem model_stats_tweedie_extends_reg `{E : Externals} (w : world)
    (train_set : loc) (valid_set : option loc) (p : fval) (r : report) :
  (model_stats_tweedie train_set valid_set p w).1 = Ok r →
  ∃ (r0 : report) (w1 : world) (yv pv wv : ndarray) (hl : fval),
    model_stats_reg train_set valid_set w = (Ok r0, w1)
    ∧ (∀ split name,
         name ≠ "tweedie_deviance" → name ≠ "hl_tweedie" →
         metric r split name = metric r0 split name)
    ∧ is_Some (metric r "train" "tweedie_deviance")
    ∧ getitem (dicts w1) train_set "y" = Ok yv
    ∧ getitem (dicts w1) train_set "pred" = Ok pv
    ∧ getitem (dicts w1) train_set "w" = Ok wv
    ∧ (hl_tweedie 0 1 2 10 (Fin (Q2Qc 6000)) p [wv; yv; pv]).1 = Ok hl
    ∧ metric r "train" "hl_tweedie" = Some [hl]
    ∧ (is_Some valid_set →
       is_Some (metric r "valid" "tweedie_deviance")
       ∧ is_Some (metric r "valid" "hl_tweedie")).
Proof.
  intros Hrun.
  apply model_stats_tweedie_train_inv in Hrun
    as (r0 & r1 & r2 & w1 & yv & pv & wv & dev & hl
        & Hreg & Gy & Gp & Gw & Hhl & Hr1 & Hr2 & Hvalid).
  apply report_setitem_metric in Hr1 as [Hdev Hr1].
  apply report_setitem_metric in Hr2 as [Hhlm Hr2].
  exists r0, w1, yv, pv, wv, hl. split; [done|].
  destruct valid_set as [v|].
  - destruct Hvalid as (r3 & vdev & vhl & Hr3 & Hr4).
    apply report_setitem_metric in Hr3 as [Hvdev Hr3].
    apply report_setitem_metric in Hr4 as [Hvhl Hr4].
    split; [|split; [|split; [|split; [|split; [|split; [|split]]]]]];
      try done.
    + intros split name Hn1 Hn2.
      rewrite Hr4, Hr3, Hr2, Hr1 by congruence. done.
    + rewrite Hr4, Hr3, Hr2, Hdev by done. eauto.
    + rewrite Hr4, Hr3, Hhlm by done. done.
    + intros _. split.
      * rewrite Hr4, Hvdev by done. eauto.
      * rewrite Hvhl. eauto.
  - subst r.
    split; [|split; [|split; [|split; [|split; [|split; [|split]]]]]];
      try done.
    + intros split name Hn1 Hn2. rewrite Hr2, Hr1 by congruence. done.
    + rewrite Hr2, Hdev by done. eauto.
Qed.

Lemma model_stats_tweedie_example_returns :
  raises (model_stats_tweedie (E := Reference.externals) 0 None ftwo
            Examples.world_with_w).1 = false.
Proof. by vm_compute. Qed.

Lemma model_stats_tweedie_extends_reg_witness :
  ∃ (r r0 : report) (hl : fval),
    (model_stats_tweedie (E := Reference.externals) 0 None ftwo
       Examples.world_with_w).1 = Ok r
    ∧ (model_stats_reg (E := Reference.externals) 0 None
         Examples.world_with_w).1 = Ok r0
    ∧ metric r "train" "gini" = metric r0 "train" "gini"
    ∧ metric r "train" "hl_tweedie" = Some [hl].
Proof.
  destruct (model_stats_tweedie (E := Reference.externals) 0 None ftwo
              Examples.world_with_w).1 as [r|e] eqn:Hrun.
  - destruct (model_stats_tweedie_extends_reg (E := Reference.externals)
                Examples.world_with_w 0 None ftwo r Hrun)
      as (r0 & w1 & yv & pv & wv & hl & Hreg & Hsame & _ & _ & _ & _ & _
          & Hhl & _).
    exists r, r0, hl. split; [done|]. split; [by rewrite Hreg|].
    split; [by apply Hsame|done].
  - pose proof model_stats_tweedie_example_returns as Hret.
    rewrite Hrun in Hret. discriminate Hret.
Defined.

(** ** model_stats_reg on a training and a validation set with weights *)

Section ModelStatsRegBoth.
Context `{E : Externals} {L : ExternalsLaws E}.


End ModelStatsRegBoth.


